(** * TechDraw: the AI diagram generation and normalisation pipeline

    A shallow embedding of [AIService] (the TypeScript class behind
    [aiService]) together with the two collaborators it calls,
    [SettingsService.getAPIKey] and [generateId], and the properties of
    the response normaliser [parseAIResponse], the fallback diagram, and
    the two entry points [generateDiagram] and [refineDescription].

    JavaScript values are untyped at run time: the TypeScript annotations
    are erased, and the model output that [JSON.parse] hands to the
    normaliser is arbitrary.  The embedding therefore works on a type of
    JavaScript values and makes every implicit run-time step explicit:
    truthiness for [||], the [TypeError] of a property read on [null] or
    [undefined], the string conversion of a template literal, and the
    exceptions caught by [try]/[catch].  Console output is left out. *)

From Stdlib Require Import ZArith Ascii String List Bool Lia DecimalNat DecimalString.
From stdpp Require Import base option list strings gmap.

Local Open Scope string_scope.
Local Open Scope Z_scope.

(** ** JavaScript values *)

(** The values [JSON.parse] can produce, plus [undefined].  Numbers are
    the integer-valued ones that a double holds exactly: the code computes
    with array indices only and otherwise tests numbers for truthiness.  An
    object is the list of its own properties in insertion order, with
    unique keys. *)
#[warnings="-register-all"]
Inductive JSValue : Type :=
| JUndefined
| JNull
| JBool (b : bool)
| JNum (n : Z)
| JStr (s : string)
| JArr (items : list JSValue)
| JObj (props : list (string * JSValue)).

(** What a [throw] carries: an [Error] instance (any subclass) with its
    [message], or some other value. *)
Inductive ErrorClass := ErrorK | TypeErrorK | SyntaxErrorK.

Inductive Exn : Type :=
| JsError (cls : ErrorClass) (message : string)
| JsThrown (v : JSValue).

(** The outcome of evaluating an expression or running a statement list. *)
Inductive Completion (A : Type) : Type :=
| Normal (a : A)
| Throw (e : Exn).
Arguments Normal {A} a.
Arguments Throw {A} e.

(** The engine's message of a [TypeError]; its wording is engine
    specific. *)
Definition not_readable : Exn :=
  JsError TypeErrorK "Cannot read properties of undefined or null".
Definition not_a_function : Exn :=
  JsError TypeErrorK "not a function".
Definition not_primitive : Exn :=
  JsError TypeErrorK "Cannot convert object to primitive value".

(** ToBoolean. *)
Definition truthy (v : JSValue) : bool :=
  match v with
  | JUndefined | JNull => false
  | JBool b => b
  | JNum n => negb (n =? 0)
  | JStr s => negb (String.eqb s "")
  | JArr _ | JObj _ => true
  end.

(** [a || b] for an already evaluated [a] and a [b] without effects. *)
Definition or_else (a b : JSValue) : JSValue := if truthy a then a else b.
Infix "|||" := or_else (at level 50, left associativity).

Fixpoint own_prop (props : list (string * JSValue)) (k : string) : JSValue :=
  match props with
  | [] => JUndefined
  | (k', v) :: rest => if String.eqb k' k then v else own_prop rest k
  end.

(** [v.k] on a value that is neither [null] nor [undefined], for the
    property names [AIService] reads (none of them is inherited from a
    prototype): an object answers with its own property, everything else
    with [undefined]. *)
Definition prop (v : JSValue) (k : string) : JSValue :=
  match v with
  | JObj props => own_prop props k
  | _ => JUndefined
  end.

Definition nullish (v : JSValue) : bool :=
  match v with JUndefined | JNull => true | _ => false end.

(** [v.k]: a [TypeError] on [null] and [undefined]. *)
Definition get (v : JSValue) (k : string) : Completion JSValue :=
  if nullish v then Throw not_readable else Normal (prop v k).

(** [v?.k] *)
Definition get_opt (v : JSValue) (k : string) : JSValue :=
  if nullish v then JUndefined else prop v k.

(** ** Plain objects read by a computed name *)

(** Two tables of the program are plain objects indexed by a string that
    comes from the caller: the key store [this.apiKeys[provider]] and the
    configurations [configs[type]].  Such a read finds the object's own
    property or else what the object inherits from [Object.prototype]:
    eleven functions and, under [__proto__], the prototype itself.  All
    twelve are truthy, and none of them has a property the program then
    reads. *)
Definition Object_prototype : list string :=
  [ "constructor"; "hasOwnProperty"; "isPrototypeOf"; "propertyIsEnumerable";
    "toLocaleString"; "toString"; "valueOf"; "__proto__";
    "__defineGetter__"; "__defineSetter__"; "__lookupGetter__"; "__lookupSetter__" ].

Definition inherited (k : string) : bool := existsb (String.eqb k) Object_prototype.

(** What such a read gives when it gives something: an own value, or the
    inherited member of that name. *)
Inductive Member (A : Type) : Type :=
| Own (a : A)
| Builtin (name : string).
Arguments Own {A} a.
Arguments Builtin {A} name.

(** [object[k]] on a plain object with the given own properties. *)
Definition read {A} (own : gmap string A) (k : string) : option (Member A) :=
  match own !! k with
  | Some a => Some (Own a)
  | None => if inherited k then Some (Builtin k) else None
  end.

(** [object[k] = v] for a string [v].  The name [__proto__] reaches the
    setter of [Object.prototype], which ignores a value that is neither
    an object nor [null], unless the object has an own property of that
    name (as [JSON.parse] can create one). *)
Definition assign (k v : string) (own : gmap string string) : gmap string string :=
  if String.eqb k "__proto__" && bool_decide (own !! k = None) then own
  else <[k := v]> own.

(** ** Strings *)

Definition dec_nat (n : nat) : string := NilZero.string_of_uint (Nat.to_uint n).
Definition dec_Z (n : Z) : string := NilZero.string_of_int (Z.to_int n).

Definition has_own (props : list (string * JSValue)) (k : string) : bool :=
  existsb (λ p, String.eqb (fst p) k) props.

Fixpoint join (sep : string) (parts : list string) : string :=
  match parts with
  | [] => ""
  | [p] => p
  | p :: rest => p +:+ sep +:+ join sep rest
  end.

(** ToString, as a template literal applies it.  An integer prints in
    decimal (as JavaScript prints it below 10^21).  An array joins the
    conversions of its elements with commas, [null] and [undefined]
    elements giving the empty string.  A parsed object inherits
    [Object.prototype.toString] unless it has an own property of that name,
    which JSON can only fill with a value that is not callable; conversion
    then falls through [valueOf] and ends in a [TypeError]. *)
Fixpoint ToString (v : JSValue) : Completion string :=
  match v with
  | JUndefined => Normal "undefined"
  | JNull => Normal "null"
  | JBool true => Normal "true"
  | JBool false => Normal "false"
  | JNum n => Normal (dec_Z n)
  | JStr s => Normal s
  | JArr items =>
      let fix elements (l : list JSValue) : Completion (list string) :=
        match l with
        | [] => Normal []
        | x :: rest =>
            match (if nullish x then Normal "" else ToString x) with
            | Throw e => Throw e
            | Normal s =>
                match elements rest with
                | Throw e => Throw e
                | Normal ss => Normal (s :: ss)
                end
            end
        end in
      match elements items with
      | Throw e => Throw e
      | Normal ss => Normal (join "," ss)
      end
  | JObj props =>
      if has_own props "toString" then Throw not_primitive
      else Normal "[object Object]"
  end.

(** [String.prototype.match] with the two patterns of [AIService], an
    opening delimiter, anything, a closing delimiter: the match starts at
    the first opening delimiter and, the star being greedy, ends at the
    last closing one behind it.  [None] is the [null] of no match. *)
Fixpoint from_first (c : ascii) (s : string) : option string :=
  match s with
  | EmptyString => None
  | String a rest => if Ascii.eqb a c then Some s else from_first c rest
  end.

Fixpoint upto_last (c : ascii) (s : string) : option string :=
  match s with
  | EmptyString => None
  | String a rest =>
      match upto_last c rest with
      | Some p => Some (String a p)
      | None => if Ascii.eqb a c then Some (String a EmptyString) else None
      end
  end.

Definition match_delimited (opening closing : ascii) (s : string) : option string :=
  from_first opening s ≫= upto_last closing.

(** [/\{[\s\S]*\}/] and [/\[[\s\S]*\]/] *)
Definition match_object : string → option string := match_delimited "{" "}".
Definition match_array : string → option string := match_delimited "[" "]".

Definition lower (a : ascii) : ascii :=
  let n := nat_of_ascii a in
  if ((65 <=? n) && (n <=? 90))%nat then ascii_of_nat (n + 32) else a.

Fixpoint starts_with_ci (p s : string) : bool :=
  match p, s with
  | EmptyString, _ => true
  | String _ _, EmptyString => false
  | String a p', String b s' => Ascii.eqb (lower a) (lower b) && starts_with_ci p' s'
  end.

(** Does [s] contain [p], letter case ignored? *)
Fixpoint includes_ci (p s : string) : bool :=
  starts_with_ci p s ||
  match s with
  | EmptyString => false
  | String _ s' => includes_ci p s'
  end.

(** [substr(from, len)] *)
Definition substr (from len : nat) (s : string) : string := String.substring from len s.

(** ** The graph handed to the canvas *)

(** The object literals the normaliser builds.  A field holding
    [JUndefined] is a property that is absent or holds [undefined]; reading
    it gives [undefined] either way. *)
Module NodeData.
Record t := mk {
  title : JSValue;
  content : JSValue;
  backgroundColor : JSValue;
  borderColor : JSValue;
  textColor : JSValue;
  iconPath : JSValue }.
End NodeData.

Module Node.
Record t := mk {
  id : JSValue;
  type : JSValue;
  position : JSValue;
  data : NodeData.t }.
End Node.

Module Edge.
Record t := mk {
  id : JSValue;
  source : JSValue;
  target : JSValue;
  type : JSValue;
  label : JSValue;
  animated : JSValue }.
End Edge.

Module DiagramGenerationResponse.
Record t := mk {
  title : JSValue;
  description : JSValue;
  nodes : list Node.t;
  edges : list Edge.t;
  suggestions : JSValue }.
End DiagramGenerationResponse.

Module PublicIcon.
Record t := mk {
  id : string;
  name : string;
  fileName : string;
  path : string;
  category : option string }.
End PublicIcon.

Module DiagramGenerationRequest.
Record options_t := mk_options {
  includeIcons : option bool;
  diagramType : option string;
  complexity : option string }.
Record t := mk {
  description : string;
  provider : string;
  model : option string;
  options : option options_t }.
End DiagramGenerationRequest.

(** ** The world around the service *)

(** What the service cannot decide itself: the built-in [JSON.parse]
    ([None] is its [SyntaxError]), the clock and the random source behind
    [generateId] (the n-th draw), the icon catalogue, and the answers of
    the two client libraries ([chat.completions.create] yields the content
    of the first choice, if there is one; [generateContent] the text of
    the response).  A client call may throw anything. *)
Record Platform := {
  JSON_parse : string → option JSValue;
  Date_now : nat → Z;
  Math_random_toString36 : nat → string;
  getAllIcons : Completion (list PublicIcon.t);
  chat_completions_create :
    string (* baseURL *) → Member string (* apiKey *) → string (* model *) →
    string (* prompt *) → Z (* max_tokens *) → Completion (option string);
  generateContent :
    Member string (* apiKey *) → string (* model *) → string (* prompt *) →
    Completion string }.

Record OpenAI := { apiKey : Member string; baseURL : string }.
Record GoogleGenerativeAI := { gemini_apiKey : Member string }.

(** Calls that leave the service, in the order they are made. *)
Inductive Event :=
| CallInitializeProvider (provider : string)
| CallGetAllIcons
| CallBuildPrompt
| CallProvider (provider model prompt : string).

(** The mutable state: the own properties of the key store of
    [settingsService], the three
    client fields of [aiService], the number of ids drawn so far, and the
    calls made so far (latest first). *)
Record World := {
  apiKeys : gmap string string;
  openrouterClient : option OpenAI;
  groqClient : option OpenAI;
  geminiClient : option GoogleGenerativeAI;
  draws : nat;
  calls : list Event }.

(** Statements: they change the world and complete normally or throw.  A
    throw keeps the changes made before it. *)
Definition M (A : Type) : Type := World → Completion A * World.

Definition ret {A} (a : A) : M A := λ w, (Normal a, w).
Definition throw {A} (e : Exn) : M A := λ w, (Throw e, w).
Definition bind {A B} (m : M A) (k : A → M B) : M B :=
  λ w, match m w with
       | (Normal a, w') => k a w'
       | (Throw e, w') => (Throw e, w')
       end.
Definition lift {A} (c : Completion A) : M A := λ w, (c, w).
Definition try_catch {A} (m : M A) (handler : Exn → M A) : M A :=
  λ w, match m w with
       | (Normal a, w') => (Normal a, w')
       | (Throw e, w') => handler e w'
       end.
Definition modify (f : World → World) : M unit := λ w, (Normal tt, f w).
Definition gets {A} (f : World → A) : M A := λ w, (Normal (f w), w).
Definition record_call (ev : Event) : M unit :=
  modify (λ w, {| apiKeys := apiKeys w; openrouterClient := openrouterClient w;
                  groqClient := groqClient w; geminiClient := geminiClient w;
                  draws := draws w; calls := ev :: calls w |}).

Notation "x <- m ;; k" := (bind m (λ x, k))
  (at level 100, m at next level, right associativity).
Notation "m ;;; k" := (bind m (λ _, k))
  (at level 100, right associativity).

(** [items.map(f)] and [items.forEach] pushing [f]'s result: the callback
    runs on each element with its index, in order. *)
Fixpoint map_indexed {A} (f : JSValue → nat → M A) (items : list JSValue)
    (index : nat) : M (list A) :=
  match items with
  | [] => ret []
  | x :: rest =>
      y <- f x index ;;
      ys <- map_indexed f rest (S index) ;;
      ret (y :: ys)
  end.

(** The receiver of [.forEach] or [.map], known to be truthy: an array
    has the method, nothing else [JSON.parse] returns does. *)
Definition array_items (v : JSValue) : Completion (list JSValue) :=
  match v with
  | JArr items => Normal items
  | _ => Throw not_a_function
  end.

(** A literal of the source that contains double quotes, written here
    with single quotes in their place (no such literal has a single quote
    of its own). *)
Definition dq (s : string) : string :=
  string_of_list_ascii
    (map (λ a, if Ascii.eqb a "'" then "034"%char else a) (list_ascii_of_string s)).

Definition bool_text (b : bool) : string := if b then "true" else "false".

(** ** Diagram type configurations *)

Record ColorScheme := { background : string; border : string; text : string }.

Record DiagramTypeConfig := {
  specificInstructions : string;
  layoutStyle : string;
  layoutRules : string;
  nodeRules : string;
  edgeType : string;
  edgeRules : string;
  edgeLabel : string;
  animated : bool;
  colorScheme : ColorScheme }.

Definition config_flowchart : DiagramTypeConfig := {|
  specificInstructions := "FLOWCHART SPECIFIC RULES:
- Use simple, clean node styling with minimal decoration
- Nodes should flow top-to-bottom or left-to-right
- Use only solid, straight edges - ABSOLUTELY NO ANIMATION
- Include decision points (diamond shapes can be simulated with styling)
- Keep icons simple and minimal";
  layoutStyle := "top-to-bottom or left-to-right flow with clear progression";
  layoutRules := "Arrange in a clear sequential flow from start to end. Group related steps together. Use vertical or horizontal alignment.";
  nodeRules := "Each node represents a step or decision. Use simple, clean styling. Minimal decoration.";
  edgeType := "straight";
  edgeRules := "Use solid, straight arrows showing direction of flow. Label each edge with action or condition.";
  edgeLabel := "Action or condition";
  animated := false;
  colorScheme := {| background := "#f0f9ff"; border := "#3b82f6"; text := "#1e40af" |} |}.

Definition config_container : DiagramTypeConfig := {|
  specificInstructions := "CONTAINER DIAGRAM SPECIFIC RULES:
- Use large boxes representing containers/systems
- IMPORTANT: Show grouped stacks within containers (multiple components per container)
- Each container can hold multiple services/components
- Use clear visual grouping for stacks within containers
- Edges can be animated to show data flow
- Use professional blue/gray color scheme";
  layoutStyle := "grouped by containers with nested stacks inside";
  layoutRules := "Group components into containers. Show container boundaries clearly. Nest multiple stacks/services within each container.";
  nodeRules := "Each node is either a container (large box) or a service/stack within a container. Show hierarchy and grouping.";
  edgeType := "smoothstep";
  edgeRules := "Use smoothstep edges between containers and services. Show clear data/message flow between components.";
  edgeLabel := "Data flow or API call";
  animated := true;
  colorScheme := {| background := "#ffffff"; border := "#6b7280"; text := "#1f2937" |} |}.

Definition config_architecture : DiagramTypeConfig := {|
  specificInstructions := "SYSTEM ARCHITECTURE SPECIFIC RULES:
- Show high-level system components and their relationships
- Use HIERARCHICAL layout - top-to-bottom or left-to-right
- NO CIRCULAR CONNECTIONS - only clear directional flows
- Show both brief overview and detailed component interactions
- Use clear, straight edges showing information flow direction";
  layoutStyle := "hierarchical top-to-bottom or left-to-right with clear directional flow";
  layoutRules := "Arrange in strict hierarchy. Show clear information flow from sources to sinks. NO circular dependencies or connections.";
  nodeRules := "Each node is a major subsystem or component. Show clear boundaries and responsibilities. Use large, prominent boxes.";
  edgeType := "straight";
  edgeRules := "Use only straight edges with clear directional arrows. Show unidirectional data/control flow. Label with data type or protocol.";
  edgeLabel := "Data or control flow";
  animated := false;
  colorScheme := {| background := "#f0fdfa"; border := "#14b8a6"; text := "#134e4a" |} |}.

(** [configs[type] || configs.container]: [configs] is a plain object
    with three own properties, so a type that names a member of
    [Object.prototype] gets that member, which is truthy. *)
Definition getDiagramTypeConfig (type : string) : Member DiagramTypeConfig :=
  if String.eqb type "flowchart" then Own config_flowchart
  else if String.eqb type "container" then Own config_container
  else if String.eqb type "architecture" then Own config_architecture
  else if inherited type then Builtin type
  else Own config_container.

(** ** The prompt *)

(** [/workflow|process flow|flowchart|steps|procedure|sequential/i] *)
Definition workflowKeywords : list string :=
  ["workflow"; "process flow"; "flowchart"; "steps"; "procedure"; "sequential"].

Definition isWorkflowType (description : string) : bool :=
  existsb (λ keyword, includes_ci keyword description) workflowKeywords.

(** The value [buildPrompt] leaves in [animatedEdges]: the configured
    default, overridden in both directions for a container diagram. *)
Definition animatedEdges_of (typeConfig : DiagramTypeConfig)
    (diagramType description : string) : bool :=
  let animatedEdges := animated typeConfig in
  if String.eqb diagramType "container" && isWorkflowType description then false
  else if String.eqb diagramType "container" && negb (isWorkflowType description) then true
  else animatedEdges.

(** The template reads [typeConfig.colorScheme.background]: on an
    inherited member [typeConfig.colorScheme] is [undefined] and the read
    throws a [TypeError]; nothing was done before that could be seen. *)
Definition buildPrompt (request : DiagramGenerationRequest.t)
    (availableIcons : list PublicIcon.t) : Completion string :=
  let description := DiagramGenerationRequest.description request in
  let options :=
    default (DiagramGenerationRequest.mk_options None None None)
            (DiagramGenerationRequest.options request) in
  let diagramType := default "container" (DiagramGenerationRequest.diagramType options) in
  let complexity := default "medium" (DiagramGenerationRequest.complexity options) in
  let allIconNames := map PublicIcon.name availableIcons in
  let iconList := join ", " (take 150 allIconNames) in
  match getDiagramTypeConfig diagramType with
  | Builtin _ => Throw not_readable
  | Own typeConfig =>
  let animatedEdges := animatedEdges_of typeConfig diagramType description in
  Normal (dq "
Task: Generate a professional "
    +:+ diagramType
    +:+ dq " diagram based on the given description.

Input:
- Description: '"
    +:+ description
    +:+ dq "'
- Diagram Type: "
    +:+ diagramType
    +:+ dq "
- Complexity Level: "
    +:+ complexity
    +:+ dq "
- Available Icons (must use exact names): "
    +:+ iconList
    +:+ dq "

"
    +:+ specificInstructions typeConfig
    +:+ dq "

Output Requirements:
- Strictly return JSON only (no markdown, no extra text).
- Use the exact JSON schema defined below.
- Each node must have a unique ID, proper position, and use an available icon.
- Layout must follow "
    +:+ layoutStyle typeConfig
    +:+ dq ".

JSON Schema:
{
  'title': 'Clear, professional diagram title',
  'description': 'One-sentence overview of the system/process',
  'nodes': [
    {
      'id': 'unique-id',
      'type': 'custom',
      'position': {'x': number, 'y': number},
      'data': {
        'title': 'Component Name',
        'content': 'Brief component role/function',
        'backgroundColor': '"
    +:+ background (colorScheme typeConfig)
    +:+ dq "',
        'borderColor': '"
    +:+ border (colorScheme typeConfig)
    +:+ dq "',
        'textColor': '"
    +:+ text (colorScheme typeConfig)
    +:+ dq "',
        'iconPath': '/icons/exact-icon-name-from-available-list.png'
      }
    }
  ],
  'edges': [
    {
      'id': 'edge-id',
      'source': 'source-node-id',
      'target': 'target-node-id',
      'type': '"
    +:+ edgeType typeConfig
    +:+ dq "',
      'label': '"
    +:+ edgeLabel typeConfig
    +:+ dq "',
      'animated': "
    +:+ bool_text animatedEdges
    +:+ dq "
    }
  ],
  'suggestions': [
    'Improvement suggestion 1',
    'Enhancement suggestion 2'
  ]
}

Diagram Style Guidelines:
1. **Node Rules**
   - Use only 'custom' node type.
   - "
    +:+ nodeRules typeConfig
    +:+ dq "
   - Use appropriate background colors: "
    +:+ background (colorScheme typeConfig)
    +:+ dq "
   - Include relevant icons from the available list.

2. **Layout Rules**
   - "
    +:+ layoutRules typeConfig
    +:+ dq "
   - Minimum spacing: 200px between nodes, 300px between layers.
   - Use consistent alignment and distribution.

3. **Edge Rules**
   - "
    +:+ edgeRules typeConfig
    +:+ dq "
   - "
    +:+ (if animated typeConfig then "Use animated edges to show flow" else "Use solid edges (NO animation)")
    +:+ dq "
   - No orphan nodes; all must connect logically.

4. **Complexity Rules**
   - For 'simple', include 3–5 nodes.  
   - For 'medium', include 6–9 nodes.  
   - For 'complex', include 10–15 nodes.  

5. **Professional Standards**
   - All IDs must be unique and consistent.  
   - Nodes must be descriptive but concise.
   - Use only properties defined in the schema.  

Final Instruction:
- Read the description carefully, map to correct diagram type, and generate only valid JSON output following the schema above.
- Ensure the diagram is visually balanced, semantically accurate, and ready to render in a diagramming canvas.
")
  end.

(** ** The service *)

Definition set_draws (n : nat) (w : World) : World :=
  {| apiKeys := apiKeys w; openrouterClient := openrouterClient w;
     groqClient := groqClient w; geminiClient := geminiClient w;
     draws := n; calls := calls w |}.
Definition set_openrouterClient (c : OpenAI) (w : World) : World :=
  {| apiKeys := apiKeys w; openrouterClient := Some c;
     groqClient := groqClient w; geminiClient := geminiClient w;
     draws := draws w; calls := calls w |}.
Definition set_groqClient (c : OpenAI) (w : World) : World :=
  {| apiKeys := apiKeys w; openrouterClient := openrouterClient w;
     groqClient := Some c; geminiClient := geminiClient w;
     draws := draws w; calls := calls w |}.
Definition set_geminiClient (c : GoogleGenerativeAI) (w : World) : World :=
  {| apiKeys := apiKeys w; openrouterClient := openrouterClient w;
     groqClient := groqClient w; geminiClient := Some c;
     draws := draws w; calls := calls w |}.

(** An optional string that is truthy: present and not empty. *)
Definition nonempty (s : option string) : option string :=
  match s with
  | Some k => if String.eqb k "" then None else Some k
  | None => None
  end.

(** What [if (!apiKey)] lets pass of a key read from the store: a string
    that is not empty, or an inherited member. *)
Definition usable (apiKey : option (Member string)) : option (Member string) :=
  match apiKey with
  | Some (Own k) => if String.eqb k "" then None else Some (Own k)
  | Some (Builtin name) => Some (Builtin name)
  | None => None
  end.

(** [a || b] on an optional string. *)
Definition string_or (a : option string) (b : string) : string :=
  match a with
  | Some s => if String.eqb s "" then b else s
  | None => b
  end.

Definition createFallbackDiagram (description : string) : DiagramGenerationResponse.t :=
  let nodes := [
    Node.mk (JStr "start-1") (JStr "custom")
      (JObj [("x", JNum 100); ("y", JNum 50)])
      (NodeData.mk (JStr "Start") (JStr "Starting point")
                   JUndefined JUndefined JUndefined JUndefined);
    Node.mk (JStr "process-1") (JStr "custom")
      (JObj [("x", JNum 100); ("y", JNum 150)])
      (NodeData.mk (JStr "Process") (JStr description)
                   (JStr "#ffffff") (JStr "#d1d5db") (JStr "#1f2937") JUndefined);
    Node.mk (JStr "end-1") (JStr "custom")
      (JObj [("x", JNum 100); ("y", JNum 250)])
      (NodeData.mk (JStr "End") (JStr "Completion point")
                   JUndefined JUndefined JUndefined JUndefined) ] in
  let edges := [
    Edge.mk (JStr "e1-2") (JStr "start-1") (JStr "process-1")
            JUndefined JUndefined JUndefined;
    Edge.mk (JStr "e2-3") (JStr "process-1") (JStr "end-1")
            JUndefined JUndefined JUndefined ] in
  DiagramGenerationResponse.mk
    (JStr "Simple Diagram") (JStr description) nodes edges
    (JArr [JStr "Add more detail to your description for better results"]).

Definition fallbackQuestions : JSValue :=
  JArr [ JStr "What are the main steps in this process?";
         JStr "Are there any decision points or conditions?";
         JStr "Who are the main actors or users involved?";
         JStr "What happens if something goes wrong?" ].

Section AIService.
Context (P : Platform).

(** [JSON.parse(s)] *)
Definition parse (s : string) : Completion JSValue :=
  match JSON_parse P s with
  | Some v => Normal v
  | None => Throw (JsError SyntaxErrorK "Unexpected token in JSON")
  end.

(** The text [generateId] returns at its n-th call: the clock reading,
    a dash, and up to nine base-36 digits of a random number (its text
    without the leading zero and point). *)
Definition idText (n : nat) : string :=
  dec_Z (Date_now P n) +:+ "-" +:+ substr 2 9 (Math_random_toString36 P n).

Definition generateId : M string :=
  λ w, (Normal (idText (draws w)), set_draws (S (draws w)) w).

(** [settingsService.getAPIKey]: [this.apiKeys[provider]]. *)
Definition getAPIKey (provider : string) : M (option (Member string)) :=
  gets (λ w, read (apiKeys w) provider).

Definition initializeProvider (provider : string) (apiKey : Member string) : M unit :=
  record_call (CallInitializeProvider provider) ;;;
  if String.eqb provider "openrouter" then
    modify (set_openrouterClient
              {| apiKey := apiKey; baseURL := "https://openrouter.ai/api/v1" |})
  else if String.eqb provider "groq" then
    modify (set_groqClient
              {| apiKey := apiKey; baseURL := "https://api.groq.com/openai/v1" |})
  else if String.eqb provider "gemini" then
    modify (set_geminiClient {| gemini_apiKey := apiKey |})
  else ret tt.

Definition generateWithOpenRouter (prompt : string) (model : option string) : M string :=
  client <- gets openrouterClient ;;
  match client with
  | None => throw (JsError ErrorK "OpenRouter client not initialized")
  | Some c =>
      let model := string_or model "anthropic/claude-3.5-sonnet" in
      record_call (CallProvider "openrouter" model prompt) ;;;
      content <- lift (chat_completions_create P (baseURL c) (apiKey c) model prompt 1000) ;;
      ret (string_or content "")
  end.

Definition generateWithGroq (prompt : string) (model : option string) : M string :=
  client <- gets groqClient ;;
  match client with
  | None => throw (JsError ErrorK "Groq client not initialized")
  | Some c =>
      let model := string_or model "llama-3.1-70b-versatile" in
      record_call (CallProvider "groq" model prompt) ;;;
      content <- lift (chat_completions_create P (baseURL c) (apiKey c) model prompt 2000) ;;
      ret (string_or content "")
  end.

Definition generateWithGemini (prompt : string) (model : option string) : M string :=
  client <- gets geminiClient ;;
  match client with
  | None => throw (JsError ErrorK "Gemini client not initialized")
  | Some c =>
      let model := string_or model "gemini-2.5-pro" in
      record_call (CallProvider "gemini" model prompt) ;;;
      lift (generateContent P (gemini_apiKey c) model prompt)
  end.

(** The [switch] over the provider, shared by both entry points. *)
Definition dispatch (provider prompt : string) (model : option string) : M string :=
  if String.eqb provider "openrouter" then generateWithOpenRouter prompt model
  else if String.eqb provider "groq" then generateWithGroq prompt model
  else if String.eqb provider "gemini" then generateWithGemini prompt model
  else throw (JsError ErrorK ("Unsupported provider: " +:+ provider)).

(** The callback of [forEach] over the parsed nodes. *)
Definition containerNode (node : JSValue) (index : nat) : M Node.t :=
  id <- lift (get node "id") ;;
  nodeId <- (if truthy id then ret id
             else (fresh <- generateId ;; ret (JStr fresh))) ;;
  given <- lift (get node "position") ;;
  let position :=
    given ||| JObj [("x", JNum (Z.of_nat (index mod 3) * 300 + 100));
                    ("y", JNum (Z.of_nat (index / 3) * 200 + 100))] in
  data <- lift (get node "data") ;;
  iconPath <-
    (if truthy (get_opt data "iconPath") then ret (get_opt data "iconPath")
     else if truthy (get_opt data "icon") then
            icon <- lift (get data "icon") ;;
            name <- lift (ToString icon) ;;
            ret (JStr ("/icons/" +:+ name +:+ ".png"))
          else ret JUndefined) ;;
  ret (Node.mk nodeId (JStr "custom") position
         (NodeData.mk
            (get_opt data "title" ||| get_opt data "label"
               ||| JStr ("Component " +:+ dec_nat (index + 1)))
            (get_opt data "content" ||| get_opt data "description"
               ||| JStr "Component description")
            (get_opt data "backgroundColor" ||| JStr "#ffffff")
            (get_opt data "borderColor" ||| JStr "#e5e7eb")
            (get_opt data "textColor" ||| JStr "#1f2937")
            iconPath)).

(** The callback of [map] over the parsed edges. *)
Definition edgeOf (edge : JSValue) (index : nat) : M Edge.t :=
  id <- lift (get edge "id") ;;
  source <- lift (get edge "source") ;;
  target <- lift (get edge "target") ;;
  type <- lift (get edge "type") ;;
  label <- lift (get edge "label") ;;
  animated <- lift (get edge "animated") ;;
  ret (Edge.mk (id ||| JStr ("edge-" +:+ dec_nat index)) source target
               (type ||| JStr "smoothstep") label (animated ||| JBool false)).

(** The [try] block of [parseAIResponse]. *)
Definition parseAIResponse_try (response originalDescription : string)
    : M DiagramGenerationResponse.t :=
  let jsonMatch := match_object response in
  let jsonString := default response jsonMatch in
  parsed <- lift (parse jsonString) ;;
  parsedNodes <- lift (get parsed "nodes") ;;
  nodeItems <- lift (array_items (parsedNodes ||| JArr [])) ;;
  nodes <- map_indexed containerNode nodeItems 0 ;;
  parsedEdges <- lift (get parsed "edges") ;;
  edgeItems <- lift (array_items (parsedEdges ||| JArr [])) ;;
  edges <- map_indexed edgeOf edgeItems 0 ;;
  title <- lift (get parsed "title") ;;
  description <- lift (get parsed "description") ;;
  suggestions <- lift (get parsed "suggestions") ;;
  ret (DiagramGenerationResponse.mk
         (title ||| JStr "Generated Diagram")
         (description ||| JStr originalDescription)
         nodes edges
         (suggestions ||| JArr [])).

Definition parseAIResponse (response originalDescription : string)
    : M DiagramGenerationResponse.t :=
  try_catch (parseAIResponse_try response originalDescription)
            (λ error, ret (createFallbackDiagram originalDescription)).

(** [error instanceof Error ? error.message : 'Unknown error'] *)
Definition message_of (error : Exn) : string :=
  match error with
  | JsError _ message => message
  | JsThrown _ => "Unknown error"
  end.

(** Lines 88 to 90 of [generateDiagram]: the client is set up, the
    icons are fetched, the prompt is built. *)
Definition preparePrompt (request : DiagramGenerationRequest.t)
    (apiKey : Member string) : M string :=
  initializeProvider (DiagramGenerationRequest.provider request) apiKey ;;;
  availableIcons <- (record_call CallGetAllIcons ;;; lift (getAllIcons P)) ;;
  record_call CallBuildPrompt ;;;
  lift (buildPrompt request availableIcons).

Definition generateDiagram (request : DiagramGenerationRequest.t)
    : M DiagramGenerationResponse.t :=
  let provider := DiagramGenerationRequest.provider request in
  apiKey <- getAPIKey provider ;;
  match usable apiKey with
  | None =>
      throw (JsError ErrorK ("API key not found for " +:+ provider
                             +:+ ". Please configure your API key in settings."))
  | Some apiKey =>
      prompt <- preparePrompt request apiKey ;;
      try_catch
        (response <- dispatch provider prompt (DiagramGenerationRequest.model request) ;;
         parseAIResponse response (DiagramGenerationRequest.description request))
        (λ error,
           throw (JsError ErrorK ("Failed to generate diagram: " +:+ message_of error)))
  end.

Definition refinePrompt (description : string) : string :=
  dq "
Analyze this diagram description and suggest 3-5 clarifying questions to help create a better flowchart:

Description: '" +:+ description +:+ dq "'

Return a JSON array of questions that would help clarify:
- Missing steps or processes
- Decision points or conditions
- Input/output requirements
- User roles or actors involved
- Exception handling or error cases

Format: ['Question 1?', 'Question 2?', 'Question 3?']
".

(** Lines 469 to 471 of [refineDescription]: a key that is passed in
    sets up the client. *)
Definition refineSetup (provider : string) (apiKey : option string) : M unit :=
  match nonempty apiKey with
  | Some apiKey => initializeProvider provider (Own apiKey)
  | None => ret tt
  end.

Definition refineDescription (description provider : string) (apiKey : option string)
    : M JSValue :=
  refineSetup provider apiKey ;;;
  let prompt := refinePrompt description in
  try_catch
    (response <- dispatch provider prompt None ;;
     let jsonMatch := match_array response in
     let jsonString := default response jsonMatch in
     lift (parse jsonString))
    (λ error, ret fallbackQuestions).

End AIService.

(** ** A reference [JSON.parse]

    The service is verified for every [Platform].  To run it on concrete
    responses, here is the JSON grammar of ECMA-404 as a recursive descent
    parser over the values of this model: objects, arrays, strings with
    their escapes, [true], [false], [null], and integer literals.  A
    number literal with a fraction or an exponent denotes a value this
    model has no constructor for, and is not accepted. *)
Module Reference.

Definition is_ws (a : ascii) : bool :=
  let n := nat_of_ascii a in
  ((n =? 32) || (n =? 9) || (n =? 10) || (n =? 13))%nat.

Fixpoint skip_ws (s : string) : string :=
  match s with
  | String a rest => if is_ws a then skip_ws rest else s
  | EmptyString => s
  end.

Definition digit (a : ascii) : option Z :=
  let n := nat_of_ascii a in
  if ((48 <=? n) && (n <=? 57))%nat then Some (Z.of_nat (n - 48)) else None.

Definition hex_digit (a : ascii) : option N :=
  let n := N_of_ascii a in
  if ((48 <=? n) && (n <=? 57))%N then Some (n - 48)%N
  else if ((65 <=? n) && (n <=? 70))%N then Some (n - 55)%N
  else if ((97 <=? n) && (n <=? 102))%N then Some (n - 87)%N
  else None.

(** The digits at the front of [s], read onto [acc]. *)
Fixpoint digits (s : string) (acc : Z) : Z * string :=
  match s with
  | String a rest =>
      match digit a with
      | Some d => digits rest (acc * 10 + d)
      | None => (acc, s)
      end
  | EmptyString => (acc, s)
  end.

Definition starts_fraction_or_exponent (s : string) : bool :=
  match s with
  | String a _ => Ascii.eqb a "." || Ascii.eqb a "e" || Ascii.eqb a "E"
  | EmptyString => false
  end.

(** A literal without sign: [0], or a digit from 1 to 9 and more digits. *)
Definition natural (s : string) : option (Z * string) :=
  match s with
  | String a rest =>
      match digit a with
      | Some 0 => if starts_fraction_or_exponent rest then None else Some (0, rest)
      | Some d =>
          let '(n, rest') := digits rest d in
          if starts_fraction_or_exponent rest' then None else Some (n, rest')
      | None => None
      end
  | EmptyString => None
  end.

Definition number (s : string) : option (JSValue * string) :=
  match s with
  | String "-" rest => '(n, r) ← natural rest; Some (JNum (- n), r)
  | _ => '(n, r) ← natural s; Some (JNum n, r)
  end.

(** UTF-8 of a code unit outside the surrogate range. *)
Definition utf8 (c : N) : option string :=
  if (c <? 128)%N then Some (String (ascii_of_N c) EmptyString)
  else if (c <? 2048)%N then
    Some (String (ascii_of_N (192 + c / 64))
         (String (ascii_of_N (128 + c mod 64)) EmptyString))
  else if ((55296 <=? c) && (c <=? 57343))%N then None
  else
    Some (String (ascii_of_N (224 + c / 4096))
         (String (ascii_of_N (128 + (c / 64) mod 64))
         (String (ascii_of_N (128 + c mod 64)) EmptyString))).

Definition escape (a : ascii) : option ascii :=
  if Ascii.eqb a "034" then Some "034"%char
  else if Ascii.eqb a "\" then Some "\"%char
  else if Ascii.eqb a "/" then Some "/"%char
  else if Ascii.eqb a "b" then Some "008"%char
  else if Ascii.eqb a "f" then Some "012"%char
  else if Ascii.eqb a "n" then Some "010"%char
  else if Ascii.eqb a "r" then Some "013"%char
  else if Ascii.eqb a "t" then Some "009"%char
  else None.

(** The characters of a string literal after its opening quote, up to
    the closing one. *)
Fixpoint chars (s : string) : option (string * string) :=
  match s with
  | EmptyString => None
  | String a rest =>
      if Ascii.eqb a "034" then Some (EmptyString, rest)
      else if Ascii.eqb a "\" then
        match rest with
        | String "u" (String h1 (String h2 (String h3 (String h4 rest')))) =>
            d1 ← hex_digit h1; d2 ← hex_digit h2; d3 ← hex_digit h3; d4 ← hex_digit h4;
            c ← utf8 (((d1 * 16 + d2) * 16 + d3) * 16 + d4)%N;
            '(t, r) ← chars rest';
            Some (c +:+ t, r)
        | String e rest' =>
            c ← escape e;
            '(t, r) ← chars rest';
            Some (String c t, r)
        | EmptyString => None
        end
      else if (nat_of_ascii a <? 32)%nat then None
      else '(t, r) ← chars rest; Some (String a t, r)
  end.

Definition literal (word : string) (v : JSValue) (s : string) : option (JSValue * string) :=
  if String.prefix word s
  then Some (v, String.substring (String.length word) (String.length s) s)
  else None.

(** Defining a property: a repeated key keeps its place and takes the
    later value. *)
Fixpoint define (k : string) (v : JSValue) (props : list (string * JSValue))
    : list (string * JSValue) :=
  match props with
  | [] => [(k, v)]
  | (k', v') :: rest =>
      if String.eqb k' k then (k, v) :: rest else (k', v') :: define k v rest
  end.

Fixpoint value (fuel : nat) (s : string) : option (JSValue * string) :=
  match fuel with
  | O => None
  | S fuel =>
      match skip_ws s with
      | String "{" rest =>
          match skip_ws rest with
          | String "}" r => Some (JObj [], r)
          | r => members fuel r []
          end
      | String "[" rest =>
          match skip_ws rest with
          | String "]" r => Some (JArr [], r)
          | r => elements fuel r []
          end
      | String "034" rest => '(t, r) ← chars rest; Some (JStr t, r)
      | String "t" _ as r => literal "true" (JBool true) r
      | String "f" _ as r => literal "false" (JBool false) r
      | String "n" _ as r => literal "null" JNull r
      | r => number r
      end
  end
with members (fuel : nat) (s : string) (acc : list (string * JSValue))
    : option (JSValue * string) :=
  match fuel with
  | O => None
  | S fuel =>
      match skip_ws s with
      | String "034" rest =>
          '(k, r) ← chars rest;
          match skip_ws r with
          | String ":" r1 =>
              '(v, r2) ← value fuel r1;
              match skip_ws r2 with
              | String "," r3 => members fuel r3 (define k v acc)
              | String "}" r3 => Some (JObj (define k v acc), r3)
              | _ => None
              end
          | _ => None
          end
      | _ => None
      end
  end
with elements (fuel : nat) (s : string) (acc : list JSValue)
    : option (JSValue * string) :=
  match fuel with
  | O => None
  | S fuel =>
      '(v, r) ← value fuel s;
      match skip_ws r with
      | String "," r1 => elements fuel r1 (acc ++ [v])
      | String "]" r1 => Some (JArr (acc ++ [v]), r1)
      | _ => None
      end
  end.

Definition json (s : string) : option JSValue :=
  '(v, rest) ← value (2 * String.length s + 2) s;
  match skip_ws rest with
  | EmptyString => Some v
  | _ => None
  end.

(** A platform for running the service: the reference parser, a clock
    that advances by one millisecond per draw, a random text that
    differs from draw to draw, a catalogue of two icons, and client
    libraries that answer every call with [reply]. *)
Definition platform (reply : Completion string) : Platform := {|
  JSON_parse := json;
  Date_now := λ n, 1700000000000 + Z.of_nat n;
  Math_random_toString36 := λ n, "0." +:+ dec_nat n +:+ "fzyo82mvyr";
  getAllIcons :=
    Normal [ PublicIcon.mk "docker" "docker" "docker.png" "/icons/docker.png" None;
             PublicIcon.mk "redis" "redis" "redis.png" "/icons/redis.png" None ];
  chat_completions_create := λ _ _ _ _ _,
    match reply with Normal s => Normal (Some s) | Throw e => Throw e end;
  generateContent := λ _ _ _, reply |}.

(** A fresh service whose settings hold a key for Groq only. *)
Definition world0 : World := {|
  apiKeys := {[ "groq" := "gsk_test" ]};
  openrouterClient := None; groqClient := None; geminiClient := None;
  draws := 0; calls := [] |}.

(** The same with a key stored under a name that is no provider. *)
Definition world1 : World := {|
  apiKeys := {[ "telepathy" := "key" ]};
  openrouterClient := None; groqClient := None; geminiClient := None;
  draws := 0; calls := [] |}.

End Reference.

(** ** Vocabulary of the properties *)

(** The ids the model supplied: the truthy [id] properties, in order. *)
Definition supplied_ids (items : list JSValue) : list JSValue :=
  List.filter truthy (map (λ item, prop item "id") items).

(** How many items have no usable [id]. *)
Definition missing_ids (items : list JSValue) : nat :=
  length (List.filter (λ item, negb (truthy (prop item "id"))) items).

(** The default ids [edge-i] of the edges without a usable [id], the first
    item having index [index]. *)
Fixpoint default_edge_ids (items : list JSValue) (index : nat) : list JSValue :=
  match items with
  | [] => []
  | item :: rest =>
      if truthy (prop item "id") then default_edge_ids rest (S index)
      else JStr ("edge-" +:+ dec_nat index) :: default_edge_ids rest (S index)
  end.

(** The grid place of the node with index [index], as the data model
    words it. *)
Definition grid (index : nat) : JSValue :=
  JObj [("x", JNum (100 + 300 * Z.of_nat (index mod 3)));
        ("y", JNum (100 + 200 * Z.of_nat (index / 3)))].

(** The array a loop of the normaliser runs over: the property [k] of the
    parsed response, or the empty array when that is falsy. *)
Definition items_of (parsed : JSValue) (k : string) : list JSValue :=
  match prop parsed k ||| JArr [] with JArr l => l | _ => [] end.

(** A JavaScript array of strings. *)
Definition is_string (v : JSValue) : bool :=
  match v with JStr _ => true | _ => false end.
Definition is_string_array (v : JSValue) : bool :=
  match v with JArr items => forallb is_string items | _ => false end.

(** The fields of a node's [data] that the data model lists as required. *)
Definition defined (v : JSValue) : Prop := v ≠ JUndefined.

Definition styled (n : Node.t) : Prop :=
  defined (NodeData.backgroundColor (Node.data n)) ∧
  defined (NodeData.borderColor (Node.data n)) ∧
  defined (NodeData.textColor (Node.data n)).

Definition titled (n : Node.t) : Prop :=
  Node.type n = JStr "custom" ∧
  defined (NodeData.title (Node.data n)) ∧
  defined (NodeData.content (Node.data n)).

(** Two worlds that differ at most in the number of ids drawn: the key
    store, the three clients and the calls made are the same. *)
Definition same_service (w w' : World) : Prop :=
  apiKeys w' = apiKeys w ∧
  openrouterClient w' = openrouterClient w ∧
  groqClient w' = groqClient w ∧
  geminiClient w' = geminiClient w ∧
  calls w' = calls w.

(** A statement that does nothing to the world but draw ids. *)
Definition draws_only {A} (m : M A) : Prop :=
  ∀ w, same_service w (m w).2 ∧ (draws w ≤ draws (m w).2)%nat.

(** A response to run the normaliser on: three nodes (one with an id, a
    label and an icon name; one with a title, an icon path and a colour;
    one with nothing but a position) and two edges (one without id whose
    target names no node, one fully specified). *)
Definition sample_response : string :=
  dq "Here is your diagram: {'title':'Shop','nodes':[{'id':'web','data':{'label':'Web','icon':'react'}},{'data':{'title':'Api','iconPath':'/icons/node.png','backgroundColor':'#eee'}},{'position':{'x':5,'y':7}}],'edges':[{'source':'web','target':'ghost','label':'calls'},{'id':'e9','source':'web','target':'api','type':'straight','animated':true}]} Enjoy!".

Definition sample_nodes : list JSValue :=
  [ JObj [("id", JStr "web");
          ("data", JObj [("label", JStr "Web"); ("icon", JStr "react")])];
    JObj [("data", JObj [("title", JStr "Api"); ("iconPath", JStr "/icons/node.png");
                         ("backgroundColor", JStr "#eee")])];
    JObj [("position", JObj [("x", JNum 5); ("y", JNum 7)])] ].

Definition sample_edges : list JSValue :=
  [ JObj [("source", JStr "web"); ("target", JStr "ghost"); ("label", JStr "calls")];
    JObj [("id", JStr "e9"); ("source", JStr "web"); ("target", JStr "api");
          ("type", JStr "straight"); ("animated", JBool true)] ].

(** The diagram type a request asks for, after defaulting. *)
Definition diagramType_of (request : DiagramGenerationRequest.t) : string :=
  default "container"
    (DiagramGenerationRequest.diagramType
       (default (DiagramGenerationRequest.mk_options None None None)
                (DiagramGenerationRequest.options request))).

(** [needle] occurs in [text]. *)
Definition contains (needle text : string) : Prop :=
  ∃ before after, text = before +:+ needle +:+ after.

(** The end of the edge in the JSON schema of the prompt, from the quote
    that closes the label to the list of suggestions, with the value
    written after [animated]. *)
Definition schema_animated (animatedEdges : bool) : string :=
  dq "',
      'animated': " +:+ bool_text animatedEdges +:+ dq "
    }
  ],
  'suggestions'".

(** What follows [needle] at the front of [text], if it is there. *)
Fixpoint strip_prefix (needle text : string) : option string :=
  match needle, text with
  | EmptyString, _ => Some text
  | String a needle', String b text' =>
      if Ascii.eqb a b then strip_prefix needle' text' else None
  | String _ _, EmptyString => None
  end.

(** The text before and after the first occurrence of [needle]. *)
Fixpoint find_sub (needle text : string) : option (string * string) :=
  match strip_prefix needle text with
  | Some after => Some ("", after)
  | None =>
      match text with
      | EmptyString => None
      | String a rest =>
          '(before, after) ← find_sub needle rest; Some (String a before, after)
      end
  end.

(** The three providers the service knows. *)
Definition supported (provider : string) : Prop :=
  provider = "openrouter" ∨ provider = "groq" ∨ provider = "gemini".

(** The model a provider is asked for when the caller names none. *)
Definition defaultModel (provider : string) : string :=
  if String.eqb provider "openrouter" then "anthropic/claude-3.5-sonnet"
  else if String.eqb provider "groq" then "llama-3.1-70b-versatile"
  else "gemini-2.5-pro".

(** The key held by the client of a provider, if that client exists. *)
Definition client_key (provider : string) (w : World) : option (Member string) :=
  if String.eqb provider "openrouter" then apiKey <$> openrouterClient w
  else if String.eqb provider "groq" then apiKey <$> groqClient w
  else if String.eqb provider "gemini" then gemini_apiKey <$> geminiClient w
  else None.

(** A platform whose chat endpoint answers without content. *)
Definition silent_platform : Platform := {|
  JSON_parse := Reference.json;
  Date_now := λ n, 1700000000000 + Z.of_nat n;
  Math_random_toString36 := λ n, "0." +:+ dec_nat n +:+ "fzyo82mvyr";
  getAllIcons := Normal [];
  chat_completions_create := λ _ _ _ _ _, Normal None;
  generateContent := λ _ _ _, Normal "" |}.

(** ** The settings service and its storage *)

(** [UserPreferences], as [storage.ts] declares it. *)
Module UserPreferences.
Record t := mk {
  theme : string;
  defaultNodeStyle : JSValue;
  defaultEdgeStyle : JSValue;
  aiProvider : string;
  apiKeys : gmap string string;
  autoSave : bool;
  gridSnap : bool }.

(** [Partial<UserPreferences>] *)
Record partial := mk_partial {
  theme' : option string;
  defaultNodeStyle' : option JSValue;
  defaultEdgeStyle' : option JSValue;
  aiProvider' : option string;
  apiKeys' : option (gmap string string);
  autoSave' : option bool;
  gridSnap' : option bool }.
End UserPreferences.

Module SettingsService.

(** The state of [settingsService] and of the preferences record of
    [storageManager].  [keys] holds the own properties of the object
    [this.apiKeys].
    [preferences] is [this.preferences], with a flag that tells whether its
    [apiKeys] is that very object (then the field of the record is stale
    and [keys] is what a reader sees) or an object of its own.  [stored]
    is what the store holds, by value, as a structured clone or a JSON text
    keeps it.  [operations] counts the calls made to the store. *)
Record State := {
  keys : gmap string string;
  preferences : option (UserPreferences.t * bool);
  stored : option UserPreferences.t;
  operations : nat }.

Definition with_keys (k : gmap string string) (s : State) : State :=
  {| keys := k; preferences := preferences s; stored := stored s;
     operations := operations s |}.
Definition with_preferences (p : option (UserPreferences.t * bool)) (s : State) : State :=
  {| keys := keys s; preferences := p; stored := stored s;
     operations := operations s |}.

(** What a reader of [this.preferences] sees. *)
Definition seen (s : State) : option UserPreferences.t :=
  match preferences s with
  | Some (p, true) =>
      Some (UserPreferences.mk (UserPreferences.theme p)
              (UserPreferences.defaultNodeStyle p) (UserPreferences.defaultEdgeStyle p)
              (UserPreferences.aiProvider p) (keys s)
              (UserPreferences.autoSave p) (UserPreferences.gridSnap p))
  | Some (p, false) => Some p
  | None => None
  end.

Section Storage.
(** Which calls to the store fail, and with what: the n-th call throws
    [failure n] when there is one. *)
Context (failure : nat → option Exn).

(** [storageManager.getPreferences] *)
Definition storage_getPreferences (s : State)
    : Completion (option UserPreferences.t) * State :=
  let s' := {| keys := keys s; preferences := preferences s; stored := stored s;
               operations := S (operations s) |} in
  match failure (operations s) with
  | Some e => (Throw e, s')
  | None => (Normal (stored s), s')
  end.

(** [storageManager.savePreferences] *)
Definition storage_savePreferences (p : UserPreferences.t) (s : State)
    : Completion unit * State :=
  match failure (operations s) with
  | Some e =>
      (Throw e, {| keys := keys s; preferences := preferences s; stored := stored s;
                   operations := S (operations s) |})
  | None =>
      (Normal tt, {| keys := keys s; preferences := preferences s; stored := Some p;
                     operations := S (operations s) |})
  end.

(** [a || b] on strings *)
Definition or_string (a b : string) : string := if String.eqb a "" then b else a.

Definition loadSettings (s : State) : Completion unit * State :=
  match storage_getPreferences s with
  | (Normal loaded, s1) =>
      match loaded with
      | Some p =>
          (Normal tt,
           with_keys (UserPreferences.apiKeys p) (with_preferences (Some (p, true)) s1))
      | None => (Normal tt, with_preferences None s1)
      end
  | (Throw error, s1) => (Normal tt, s1)
  end.

Definition initialize : State → Completion unit * State := loadSettings.

Definition saveSettings (s : State) : Completion unit * State :=
  match storage_getPreferences s with
  | (Normal currentPreferences, s1) =>
      let updatedPreferences :=
        UserPreferences.mk
          (or_string (default "" (UserPreferences.theme <$> currentPreferences)) "light")
          (default JUndefined (UserPreferences.defaultNodeStyle <$> currentPreferences)
             ||| JObj [])
          (default JUndefined (UserPreferences.defaultEdgeStyle <$> currentPreferences)
             ||| JObj [])
          (or_string (default "" (UserPreferences.aiProvider <$> currentPreferences))
             "openrouter")
          (keys s1)
          (default true (UserPreferences.autoSave <$> currentPreferences))
          (default true (UserPreferences.gridSnap <$> currentPreferences)) in
      match storage_savePreferences updatedPreferences s1 with
      | (Normal _, s2) => (Normal tt, with_preferences (Some (updatedPreferences, true)) s2)
      | (Throw error, s2) => (Normal tt, s2)
      end
  | (Throw error, s1) => (Normal tt, s1)
  end.

Definition saveAPIKey (provider apiKey : string) (s : State) : Completion unit * State :=
  saveSettings (with_keys (assign provider apiKey (keys s)) s).

Definition getAPIKey (provider : string) (s : State) : option (Member string) :=
  read (keys s) provider.

Definition removeAPIKey (provider : string) (s : State) : Completion unit * State :=
  saveSettings (with_keys (delete provider (keys s)) s).

(** [!!this.apiKeys[provider]] *)
Definition hasAPIKey (provider : string) (s : State) : bool :=
  match read (keys s) provider with
  | Some (Own k) => negb (String.eqb k "")
  | Some (Builtin _) => true
  | None => false
  end.

Definition getAllAPIKeys (s : State) : gmap string string := keys s.

Definition getPreferences (s : State) : Completion (option UserPreferences.t) * State :=
  match preferences s with
  | None =>
      match loadSettings s with
      | (Normal _, s1) => (Normal (seen s1), s1)
      | (Throw e, s1) => (Throw e, s1)
      end
  | Some _ => (Normal (seen s), s)
  end.

Definition updatePreferences (updates : UserPreferences.partial) (s : State)
    : Completion unit * State :=
  match getPreferences s with
  | (Throw e, s1) => (Throw e, s1)
  | (Normal current, s1) =>
      let pick {A} (u : option A) (c : option A) (d : A) : A :=
        match u with Some x => x | None => default d c end in
      let updated :=
        UserPreferences.mk
          (pick (UserPreferences.theme' updates) (UserPreferences.theme <$> current) "light")
          (pick (UserPreferences.defaultNodeStyle' updates)
                (UserPreferences.defaultNodeStyle <$> current) (JObj []))
          (pick (UserPreferences.defaultEdgeStyle' updates)
                (UserPreferences.defaultEdgeStyle <$> current) (JObj []))
          (pick (UserPreferences.aiProvider' updates)
                (UserPreferences.aiProvider <$> current) "openrouter")
          (pick (UserPreferences.apiKeys' updates) (UserPreferences.apiKeys <$> current) ∅)
          (pick (UserPreferences.autoSave' updates) (UserPreferences.autoSave <$> current) true)
          (pick (UserPreferences.gridSnap' updates) (UserPreferences.gridSnap <$> current) true)
      in
      match storage_savePreferences updated s1 with
      | (Throw e, s2) => (Throw e, s2)
      | (Normal _, s2) =>
          match UserPreferences.apiKeys' updates with
          | Some given =>
              (Normal tt, with_keys given (with_preferences (Some (updated, true)) s2))
          | None =>
              let shared :=
                match preferences s1 with Some (_, shared) => shared | None => false end in
              (Normal tt, with_preferences (Some (updated, shared)) s2)
          end
      end
  end.

End Storage.
End SettingsService.

(** Preferences and a service state to run the settings on: a store that
    holds a dark theme and a Groq key, and a service that has not loaded
    it. *)
Definition sample_preferences : UserPreferences.t :=
  UserPreferences.mk "dark" (JObj [("color", JStr "#eee")]) (JObj []) "groq"
    {[ "groq" := "gsk_stored" ]} false true.

Definition unloaded_settings : SettingsService.State := {|
  SettingsService.keys := ∅;
  SettingsService.preferences := None;
  SettingsService.stored := Some sample_preferences;
  SettingsService.operations := 0 |}.

(** A store that never fails, and one that always does. *)
Definition healthy : nat → option Exn := λ _, None.
Definition broken : nat → option Exn :=
  λ _, Some (JsError ErrorK "Database not initialized").

(** * Colour and geometry helpers *)

(** The helpers of [utils] are pure functions.  Numbers are integers
    here: colour channels and pixel coordinates. *)
Module RGB.
Record t := mk { r : Z; g : Z; b : Z }.
End RGB.

Module Point.
Record t := mk { x : Z; y : Z }.
End Point.

Module Box.
Record t := mk { x : Z; y : Z; width : Z; height : Z }.
End Box.

Module Utils.

(** [ToInt32], and the shift [<<] that works on it. *)
Definition ToInt32 (z : Z) : Z := (z + 2 ^ 31) mod 2 ^ 32 - 2 ^ 31.

Definition shl (x count : Z) : Z := ToInt32 (Z.shiftl (ToInt32 x) (count mod 32)).

(** [Number.prototype.toString(16)] on an integer: the digits from the
    least significant one, each put in front of the ones found so far. *)
Definition hex_digit_of (d : Z) : ascii :=
  nth (Z.to_nat d) (list_ascii_of_string "0123456789abcdef") "0"%char.

Fixpoint hex_of (fuel : nat) (n : Z) (acc : string) : string :=
  match fuel with
  | O => acc
  | S fuel =>
      let acc := String (hex_digit_of (n mod 16)) acc in
      if n / 16 =? 0 then acc else hex_of fuel (n / 16) acc
  end.

Definition toString16 (n : Z) : string :=
  if n <? 0 then "-" +:+ hex_of (S (Z.to_nat (Z.log2 (- n)))) (- n) ""
  else hex_of (S (Z.to_nat (Z.log2 n))) n "".

(** [s.slice(start)] for a start that is not negative. *)
Fixpoint slice_from (start : nat) (s : string) : string :=
  match start, s with
  | O, _ => s
  | S n, String _ rest => slice_from n rest
  | S _, EmptyString => EmptyString
  end.

Definition rgbToHex (r g b : Z) : string :=
  "#" +:+ slice_from 1 (toString16 (shl 1 24 + shl r 16 + shl g 8 + b)).

(** The value of a character of the class [[a-f\d]] under the [i] flag. *)
Definition hex_value (c : ascii) : option Z :=
  let n := Z.of_N (N_of_ascii c) in
  if (48 <=? n) && (n <=? 57) then Some (n - 48)
  else if (97 <=? n) && (n <=? 102) then Some (n - 87)
  else if (65 <=? n) && (n <=? 70) then Some (n - 55)
  else None.

(** [parseInt(group, 16)] on a capture group of two hexadecimal digits. *)
Definition parseInt16 (high low : Z) : Z := 16 * high + low.

(** The pattern is anchored at both ends: an optional [#], then exactly
    six hexadecimal digits. *)
Definition hexToRgb (hex : string) : option RGB.t :=
  let digits := match hex with String "#" rest => rest | _ => hex end in
  match mapM hex_value (list_ascii_of_string digits) with
  | Some [r1; r2; g1; g2; b1; b2] =>
      Some (RGB.mk (parseInt16 r1 r2) (parseInt16 g1 g2) (parseInt16 b1 b2))
  | _ => None
  end.

(** [Math.min(...values)] and [Math.max(...values)] of a list that is not
    empty. *)
Definition Math_min (first : Z) (rest : list Z) : Z := foldr Z.min first rest.
Definition Math_max (first : Z) (rest : list Z) : Z := foldr Z.max first rest.

(** The double nearest to an integer, ties going to the even mantissa.
    Integers up to 2^53 in size are doubles themselves; beyond that the
    53 leading bits are kept.  (Sizes from 2^1024 on, where the nearest
    double is an infinity, are outside this model.) *)
Definition to_double (z : Z) : Z :=
  let size := Z.abs z in
  if size <=? 2 ^ 53 then z
  else
    let dropped := Z.log2 size - 52 in
    let mantissa := size / 2 ^ dropped in
    let rest := size mod 2 ^ dropped in
    let half := 2 ^ (dropped - 1) in
    let mantissa :=
      if rest <? half then mantissa
      else if half <? rest then mantissa + 1
      else if Z.even mantissa then mantissa else mantissa + 1 in
    Z.sgn z * (mantissa * 2 ^ dropped).

(** [a - b] on two numbers that hold integers. *)
Definition minus (a b : Z) : Z := to_double (a - b).

Definition getBoundingBox (points : list Point.t) : Box.t :=
  match points with
  | [] => Box.mk 0 0 0 0
  | p :: ps =>
      let minX := Math_min (Point.x p) (map Point.x ps) in
      let maxX := Math_max (Point.x p) (map Point.x ps) in
      let minY := Math_min (Point.y p) (map Point.y ps) in
      let maxY := Math_max (Point.y p) (map Point.y ps) in
      Box.mk minX minY (minus maxX minX) (minus maxY minY)
  end.

(** A point lies in a box, borders included. *)
Definition inside (p : Point.t) (box : Box.t) : Prop :=
  Box.x box ≤ Point.x p ≤ Box.x box + Box.width box ∧
  Box.y box ≤ Point.y p ≤ Box.y box + Box.height box.

(** Coordinates whose differences are still exact: up to 2^52 in size. *)
Definition exact (p : Point.t) : Prop :=
  - 2 ^ 52 ≤ Point.x p ≤ 2 ^ 52 ∧ - 2 ^ 52 ≤ Point.y p ≤ 2 ^ 52.

End Utils.

(** * The undo history *)

(** [HistoryManager] keeps the snapshots of the editor in an array and an
    index into it.  The nodes and edges of a snapshot are plain data; what
    the manager does with them is clone them through JSON and compare
    their JSON texts, so both are parameters here, and so is the clock
    reading a snapshot is stamped with. *)
Module HistoryManager.

Record HistoryState {Data : Type} := {
  nodes : Data;
  edges : Data;
  timestamp : Z
}.
Arguments HistoryState : clear implicits.

Record t {Data : Type} := {
  history : list (HistoryState Data);
  currentIndex : Z
}.
Arguments t : clear implicits.

Inductive Op {Data : Type} :=
| SaveState (nodes edges : Data) (now : Z)
| Undo
| Redo
| Clear
| Initialize (nodes edges : Data) (now : Z).
Arguments Op : clear implicits.

Definition maxHistorySize : Z := 50.

(** A manager as the constructor leaves it. *)
Definition fresh {Data} : t Data := {| history := []; currentIndex := -1 |}.

(** [array.slice(0, end)]: a negative end counts from the back. *)
Definition slice_to {A} (l : list A) (finish : Z) : list A :=
  let len := Z.of_nat (length l) in
  let finish := if finish <? 0 then Z.max (len + finish) 0 else Z.min finish len in
  take (Z.to_nat finish) l.

Section History.
Context {Data : Type} (clone : Data → Data) (stringify : Data → string).

Definition getCurrentState (m : t Data) : option (HistoryState Data) :=
  if (0 <=? currentIndex m) && (currentIndex m <? Z.of_nat (length (history m)))
  then history m !! Z.to_nat (currentIndex m)
  else None.

Definition isStateSame (state1 state2 : option (HistoryState Data)) : bool :=
  match state1, state2 with
  | Some state1, Some state2 =>
      String.eqb (stringify (nodes state1)) (stringify (nodes state2)) &&
      String.eqb (stringify (edges state1)) (stringify (edges state2))
  | _, _ => false
  end.

Definition saveState (nodes edges : Data) (now : Z) (m : t Data) : t Data :=
  let m := {| history := slice_to (history m) (currentIndex m + 1);
              currentIndex := currentIndex m |} in
  let newState := {| nodes := clone nodes; edges := clone edges; timestamp := now |} in
  if negb (isStateSame (Some newState) (getCurrentState m)) then
    let m := {| history := history m ++ [newState];
                currentIndex := currentIndex m + 1 |} in
    if maxHistorySize <? Z.of_nat (length (history m)) then
      {| history := tail (history m); currentIndex := currentIndex m - 1 |}
    else m
  else m.

Definition canUndo (m : t Data) : bool := 0 <? currentIndex m.

Definition canRedo (m : t Data) : bool :=
  currentIndex m <? Z.of_nat (length (history m)) - 1.

Definition undo (m : t Data) : option (HistoryState Data) * t Data :=
  if canUndo m then
    let m := {| history := history m; currentIndex := currentIndex m - 1 |} in
    (getCurrentState m, m)
  else (None, m).

Definition redo (m : t Data) : option (HistoryState Data) * t Data :=
  if canRedo m then
    let m := {| history := history m; currentIndex := currentIndex m + 1 |} in
    (getCurrentState m, m)
  else (None, m).

Definition clear (m : t Data) : t Data := {| history := []; currentIndex := -1 |}.

Definition initialize (nodes edges : Data) (now : Z) (m : t Data) : t Data :=
  saveState nodes edges now (clear m).

(** One call of the editor on the manager, and a session of them. *)
Definition apply_op (op : Op Data) (m : t Data) : t Data :=
  match op with
  | SaveState nodes edges now => saveState nodes edges now m
  | Undo => (undo m).2
  | Redo => (redo m).2
  | Clear => clear m
  | Initialize nodes edges now => initialize nodes edges now m
  end.

Definition session (ops : list (Op Data)) : t Data := foldl (λ m op, apply_op op m) fresh ops.

(** The index points into the array, or is [-1] on an empty one. *)
Definition in_range (m : t Data) : Prop :=
  (history m = [] ∧ currentIndex m = -1) ∨
  0 ≤ currentIndex m < Z.of_nat (length (history m)).

(** What a session keeps true of the manager. *)
Definition kept (m : t Data) : Prop :=
  in_range m ∧ Z.of_nat (length (history m)) ≤ maxHistorySize.

End History.
End HistoryManager.

(** * Properties *)

(** ** Running statements *)

Lemma bind_Normal {A B} (m : M A) (k : A → M B) w b w' :
  bind m k w = (Normal b, w') →
  ∃ a w1, m w = (Normal a, w1) ∧ k a w1 = (Normal b, w').
Proof.
  unfold bind. destruct (m w) as [[a|e] w1]; intros H; [eauto | discriminate].
Qed.

Lemma bind_run {A B} (m : M A) (k : A → M B) w a w1 :
  m w = (Normal a, w1) → bind m k w = k a w1.
Proof. unfold bind. by intros ->. Qed.

Lemma bind_run_Throw {A B} (m : M A) (k : A → M B) w e w1 :
  m w = (Throw e, w1) → bind m k w = (Throw e, w1).
Proof. unfold bind. by intros ->. Qed.

Lemma lift_Normal {A} (c : Completion A) w a w' :
  lift c w = (Normal a, w') → c = Normal a ∧ w' = w.
Proof. unfold lift. intros [= -> ->]. done. Qed.

Lemma ret_Normal {A} (x : A) w a w' :
  ret x w = (Normal a, w') → a = x ∧ w' = w.
Proof. unfold ret. intros [= -> ->]. done. Qed.

Lemma get_Normal v k x : get v k = Normal x → x = prop v k ∧ nullish v = false.
Proof. unfold get. destruct (nullish v); intros [=]. done. Qed.

(** Take a successful run apart, statement by statement: [H] speaks of
    [x <- m ;; k]; afterwards [Hm] speaks of [m], with result [x] and
    world [w], and [H] of [k]. *)
Tactic Notation "step" hyp(H) "as" ident(x) ident(w) ident(Hm) :=
  apply bind_Normal in H as (x & w & Hm & H).

(** The same for a lifted completion, which leaves the world alone. *)
Tactic Notation "step_lift" hyp(H) "as" ident(x) ident(Hm) :=
  let w := fresh "w" in
  apply bind_Normal in H as (x & w & Hm & H);
  apply lift_Normal in Hm as [Hm ->].

(** The same for a property read, which then cannot have thrown. *)
Tactic Notation "step_get" hyp(H) :=
  let x := fresh "x" in
  let w := fresh "w" in
  let Hm := fresh "Hm" in
  apply bind_Normal in H as (x & w & Hm & H);
  apply lift_Normal in Hm as [Hm ->];
  apply get_Normal in Hm as [-> _].

Lemma or_else_truthy a b : truthy b = true → truthy (a ||| b) = true.
Proof. unfold or_else. destruct (truthy a) eqn:E; done. Qed.

Lemma truthy_defined v : truthy v = true → defined v.
Proof. by intros H ->. Qed.

Lemma or_else_given a b : truthy a = true → a ||| b = a.
Proof. unfold or_else. by intros ->. Qed.

Lemma dec_nat_inj i j : dec_nat i = dec_nat j → i = j.
Proof.
  assert (Hback : ∀ d, option_map Nat.of_uint
            (NilZero.uint_of_string (NilZero.string_of_uint d)) = Some (Nat.of_uint d)).
  { intros d. destruct d; [done | rewrite NilZero.usu; done ..]. }
  unfold dec_nat. intros H.
  pose proof (Hback (Nat.to_uint i)) as Hi.
  rewrite H, Hback in Hi.
  injection Hi as Hi. rewrite !Unsigned.of_to in Hi. done.
Qed.

(** Every element of the result comes from running the callback on the
    element at the same place, with that place's index. *)
Lemma map_indexed_lookup {A} (f : JSValue → nat → M A) items index w ys w' :
  map_indexed f items index w = (Normal ys, w') →
  ∀ i x, items !! i = Some x →
    ∃ y wa wb, ys !! i = Some y ∧ f x (index + i)%nat wa = (Normal y, wb).
Proof.
  revert index w ys w'. induction items as [|x0 rest IH]; intros index w ys w' H i x Hi.
  - done.
  - simpl in H. step H as y0 w1 Hy0. step H as rest' w2 Hrest.
    apply ret_Normal in H as [-> _].
    destruct i as [|i]; simpl in Hi.
    + injection Hi as ->. exists y0, w, w1. rewrite Nat.add_0_r. done.
    + destruct (IH _ _ _ _ Hrest i x Hi) as (y & wa & wb & Hy & Hf).
      exists y, wa, wb. split; [done|]. by rewrite <- Nat.add_succ_comm.
Qed.

Section Normaliser.
Context (P : Platform).

Lemma generateId_Normal w s w' :
  generateId P w = (Normal s, w') → s = idText P (draws w) ∧ draws w' = S (draws w).
Proof. unfold generateId. intros [= <- <-]. done. Qed.

(** What a rebuilt node looks like. *)
Lemma containerNode_Normal node index w n w' :
  containerNode P node index w = (Normal n, w') →
  Node.id n = (if truthy (prop node "id") then prop node "id"
               else JStr (idText P (draws w))) ∧
  draws w' = (if truthy (prop node "id") then draws w else S (draws w)) ∧
  Node.position n = prop node "position" ||| grid index ∧
  titled n ∧ styled n.
Proof.
  unfold containerNode. intros H.
  step_get H.
  apply bind_Normal in H as (nodeId & w1 & Hid & H).
  step_get H. step_get H.
  apply bind_Normal in H as (icon & w2 & Hicon & H).
  apply ret_Normal in H as [-> ->].
  assert (draws w2 = draws w1) as Hdraws.
  { destruct (truthy (get_opt _ "iconPath")).
    - apply ret_Normal in Hicon as [_ ->]. done.
    - destruct (truthy (get_opt _ "icon")).
      + step_lift Hicon as i0 Hi0. step_lift Hicon as name Hname.
        apply ret_Normal in Hicon as [_ ->]. done.
      + apply ret_Normal in Hicon as [_ ->]. done. }
  assert (grid index = JObj [("x", JNum (Z.of_nat (index mod 3) * 300 + 100));
                             ("y", JNum (Z.of_nat (index / 3) * 200 + 100))]) as <-.
  { unfold grid.
    by rewrite (Z.add_comm 100 (300 * _)), (Z.add_comm 100 (200 * _)),
               (Z.mul_comm 300), (Z.mul_comm 200). }
  rewrite Hdraws. unfold titled, styled. simpl.
  destruct (truthy (prop node "id")) eqn:Eid.
  - apply ret_Normal in Hid as [-> ->].
    repeat split; try done; apply truthy_defined; repeat apply or_else_truthy; done.
  - step Hid as fresh w3 Hfresh. apply generateId_Normal in Hfresh as [-> Hd].
    apply ret_Normal in Hid as [-> ->].
    repeat split; try done; apply truthy_defined; repeat apply or_else_truthy; done.
Qed.

Lemma edgeOf_Normal edge index w e w' :
  edgeOf edge index w = (Normal e, w') →
  Edge.id e = prop edge "id" ||| JStr ("edge-" +:+ dec_nat index) ∧
  Edge.animated e = prop edge "animated" ||| JBool false ∧
  w' = w.
Proof.
  unfold edgeOf. intros H.
  do 6 step_get H.
  apply ret_Normal in H as [-> ->]. done.
Qed.

(** The success path: the response parsed, [nodes] and [edges] were
    arrays or falsy, and every callback completed. *)
Lemma parseAIResponse_try_Normal response originalDescription w g w' :
  parseAIResponse_try P response originalDescription w = (Normal g, w') →
  ∃ parsed w1,
    JSON_parse P (default response (match_object response)) = Some parsed ∧
    map_indexed (containerNode P) (items_of parsed "nodes") 0 w
      = (Normal (DiagramGenerationResponse.nodes g), w1) ∧
    map_indexed edgeOf (items_of parsed "edges") 0 w1
      = (Normal (DiagramGenerationResponse.edges g), w').
Proof.
  unfold parseAIResponse_try, items_of. intros H.
  step_lift H as parsed Hparsed. unfold parse in Hparsed.
  destruct (JSON_parse P _) as [parsed'|] eqn:Eparse; [|discriminate].
  injection Hparsed as ->.
  step_get H.
  step_lift H as nodeItems HnodeItems.
  step H as nodes w3 Hnodes.
  step_get H.
  step_lift H as edgeItems HedgeItems.
  step H as edges w5 Hedges.
  do 3 step_get H.
  apply ret_Normal in H as [-> ->]. simpl.
  exists parsed, w3. split; [done|].
  unfold array_items in HnodeItems, HedgeItems.
  destruct (prop parsed "nodes" ||| JArr []); try discriminate.
  destruct (prop parsed "edges" ||| JArr []); try discriminate.
  injection HnodeItems as ->. injection HedgeItems as ->. done.
Qed.

Lemma parseAIResponse_run response originalDescription w :
  ∃ g w', parseAIResponse P response originalDescription w = (Normal g, w') ∧
    (parseAIResponse_try P response originalDescription w = (Normal g, w') ∨
     g = createFallbackDiagram originalDescription ∧
     ∃ e, parseAIResponse_try P response originalDescription w = (Throw e, w')).
Proof.
  unfold parseAIResponse, try_catch.
  destruct (parseAIResponse_try P response originalDescription w) as [[g|e] w'].
  - exists g, w'. auto.
  - eexists _, w'. split; [done|]. right. eauto.
Qed.

End Normaliser.

(** ** The normaliser is total and falls back deterministically *)

(** C1: for every raw response and every original description,
    [parseAIResponse] completes normally with a graph and never throws:
    either its [try] block completed with that graph, or the block threw
    and the graph is the fallback diagram. *)
Theorem parseAIResponse_never_throws (P : Platform)
    (response originalDescription : string) (w : World) :
  ∃ g w', parseAIResponse P response originalDescription w = (Normal g, w') ∧
    (parseAIResponse_try P response originalDescription w = (Normal g, w') ∨
     g = createFallbackDiagram originalDescription ∧
     ∃ e, parseAIResponse_try P response originalDescription w = (Throw e, w')).
Proof. apply parseAIResponse_run. Qed.

Lemma parse_failure_throws P response originalDescription w :
  JSON_parse P (default response (match_object response)) = None →
  ∃ e, parseAIResponse_try P response originalDescription w = (Throw e, w).
Proof.
  intros Hnone. unfold parseAIResponse_try, parse. rewrite Hnone.
  eexists. reflexivity.
Qed.

Lemma parse_failure_falls_back P s X w :
  JSON_parse P (default s (match_object s)) = None →
  parseAIResponse P s X w = (Normal (createFallbackDiagram X), w).
Proof.
  intros Hnone.
  destruct (parse_failure_throws P s X w Hnone) as [e He].
  unfold parseAIResponse, try_catch. rewrite He. done.
Qed.

(** C2: when the text from the first opening brace to the last closing
    brace (or the whole response, without such a text) is not parseable
    JSON, [parseAIResponse s X] returns exactly the fallback graph: the
    three nodes Start, Process, End with the Process content equal to [X],
    the title Simple Diagram, two edges joining the nodes in sequence, and
    one static suggestion. *)
Theorem fallback_on_unparseable (P : Platform) (s X : string) (w : World) :
  JSON_parse P (default s (match_object s)) = None →
  parseAIResponse P s X w = (Normal (createFallbackDiagram X), w) ∧
  let g := createFallbackDiagram X in
  map (λ n, (Node.id n, NodeData.title (Node.data n))) (DiagramGenerationResponse.nodes g)
    = [(JStr "start-1", JStr "Start"); (JStr "process-1", JStr "Process");
       (JStr "end-1", JStr "End")] ∧
  (NodeData.content ∘ Node.data) <$> DiagramGenerationResponse.nodes g !! 1%nat
    = Some (JStr X) ∧
  DiagramGenerationResponse.title g = JStr "Simple Diagram" ∧
  map (λ e, (Edge.source e, Edge.target e)) (DiagramGenerationResponse.edges g)
    = [(JStr "start-1", JStr "process-1"); (JStr "process-1", JStr "end-1")] ∧
  DiagramGenerationResponse.suggestions g
    = JArr [JStr "Add more detail to your description for better results"].
Proof.
  intros Hnone. split; [by apply parse_failure_falls_back | done].
Qed.

Lemma fallback_on_unparseable_witness :
  JSON_parse (Reference.platform (Normal ""))
    (default "not json at all" (match_object "not json at all")) = None ∧
  parseAIResponse (Reference.platform (Normal "")) "not json at all"
    "Build a login flow" Reference.world0
  = (Normal (createFallbackDiagram "Build a login flow"), Reference.world0).
Proof.
  split; [vm_compute; reflexivity|].
  refine (proj1 (fallback_on_unparseable (Reference.platform (Normal "")) "not json at all"
                   "Build a login flow" Reference.world0 _)).
  vm_compute. reflexivity.
Defined.

(** The well-formed minimal input of the specification: one node with a
    generated id at the origin of the grid, default content, title kept. *)
Example minimal_input :
  ∃ n, option_map DiagramGenerationResponse.nodes
         (match fst (parseAIResponse (Reference.platform (Normal ""))
                       (dq "{'title':'T','nodes':[{'data':{'title':'A'}}],'edges':[]}")
                       "desc" Reference.world0) with
          | Normal g => Some g
          | Throw _ => None
          end) = Some [n] ∧
       Node.id n = JStr "1700000000000-0fzyo82mv" ∧
       Node.position n = JObj [("x", JNum 100); ("y", JNum 100)] ∧
       NodeData.title (Node.data n) = JStr "A" ∧
       NodeData.content (Node.data n) = JStr "Component description".
Proof. eexists. split; [vm_compute; reflexivity|]. repeat split. Qed.

(** ** Default positions *)

(** C9: on the success path, the i-th returned node of a parsed node
    without [position] field sits at x = 100 + 300 (i mod 3),
    y = 100 + 200 floor(i / 3); a parsed node that supplies a position (an
    object, or any truthy value) keeps it unchanged. *)
Theorem default_positioning (P : Platform) (response originalDescription : string)
    (w w' : World) (g : DiagramGenerationResponse.t) (parsed : JSValue)
    (parsedNodes : list JSValue) (i : nat) (node : JSValue) :
  JSON_parse P (default response (match_object response)) = Some parsed →
  prop parsed "nodes" = JArr parsedNodes →
  parseAIResponse_try P response originalDescription w = (Normal g, w') →
  parsedNodes !! i = Some node →
  parseAIResponse P response originalDescription w = (Normal g, w') ∧
  ∃ n, DiagramGenerationResponse.nodes g !! i = Some n ∧
    (prop node "position" = JUndefined →
     Node.position n = JObj [("x", JNum (100 + 300 * Z.of_nat (i mod 3)));
                             ("y", JNum (100 + 200 * Z.of_nat (i / 3)))]) ∧
    (truthy (prop node "position") = true →
     Node.position n = prop node "position").
Proof.
  intros Hparsed Hnodes Htry Hi. split.
  { unfold parseAIResponse, try_catch. by rewrite Htry. }
  apply parseAIResponse_try_Normal in Htry as (parsed' & w1 & Hparsed' & Hmap & _).
  rewrite Hparsed in Hparsed'. injection Hparsed' as <-.
  unfold items_of in Hmap. rewrite Hnodes in Hmap. simpl in Hmap.
  destruct (map_indexed_lookup _ _ _ _ _ _ Hmap i node Hi) as (n & wa & wb & Hn & Hrun).
  apply containerNode_Normal in Hrun as (_ & _ & Hpos & _).
  exists n. split; [done|]. rewrite Hpos. split.
  - intros ->. done.
  - apply or_else_given.
Qed.

Lemma default_positioning_witness :
  ∃ g n,
    fst (parseAIResponse (Reference.platform (Normal ""))
           (dq "{'nodes':[{'position':{'x':5,'y':7}},{},{},{},{'id':'e'}]}") "desc"
           Reference.world0) = Normal g ∧
    DiagramGenerationResponse.nodes g !! 4%nat = Some n ∧
    Node.position n = JObj [("x", JNum 400); ("y", JNum 300)].
Proof.
  assert (∃ g w', parseAIResponse_try (Reference.platform (Normal ""))
           (dq "{'nodes':[{'position':{'x':5,'y':7}},{},{},{},{'id':'e'}]}") "desc"
           Reference.world0 = (Normal g, w')) as (g & w' & Htry).
  { eexists _, _. vm_compute. reflexivity. }
  assert (∃ parsed l,
            JSON_parse (Reference.platform (Normal ""))
              (default (dq "{'nodes':[{'position':{'x':5,'y':7}},{},{},{},{'id':'e'}]}")
                 (match_object (dq "{'nodes':[{'position':{'x':5,'y':7}},{},{},{},{'id':'e'}]}")))
            = Some parsed ∧
            prop parsed "nodes" = JArr l ∧ l !! 4%nat = Some (JObj [("id", JStr "e")]))
    as (parsed & l & Hparsed & Hl & Hi).
  { eexists _, _. split; [vm_compute; reflexivity|]. split; reflexivity. }
  destruct (default_positioning _ _ _ _ _ _ _ _ _ _ Hparsed Hl Htry Hi)
    as (Hrun & n & Hn & Habsent & _).
  exists g, n. split; [|split].
  - rewrite Hrun. reflexivity.
  - exact Hn.
  - apply Habsent. reflexivity.
Defined.

(** ** Node schema *)

Lemma rebuilt_nodes_complete P items index w nodes w' :
  map_indexed (containerNode P) items index w = (Normal nodes, w') →
  Forall (λ n, titled n ∧ styled n) nodes.
Proof.
  revert index w nodes w'.
  induction items as [|x rest IH]; intros index w nodes w' H; simpl in H.
  - apply ret_Normal in H as [-> _]. constructor.
  - step H as n w1 Hn. step H as ns w2 Hns. apply ret_Normal in H as [-> _].
    constructor; [|eauto].
    apply containerNode_Normal in Hn as (_ & _ & _ & Ht & Hs). done.
Qed.

Lemma reference_fallback_run :
  parseAIResponse (Reference.platform (Normal "")) "not json at all"
    "Build a login flow" Reference.world0
  = (Normal (createFallbackDiagram "Build a login flow"), Reference.world0).
Proof. apply parse_failure_falls_back. vm_compute. reflexivity. Qed.

(** C5, as claimed, fails: the Start node of the fallback diagram has no
    [backgroundColor]. *)
Lemma node_schema_counterexample :
  ¬ (∀ (P : Platform) (response originalDescription : string) (w w' : World)
       (g : DiagramGenerationResponse.t),
       parseAIResponse P response originalDescription w = (Normal g, w') →
       Forall (λ n, titled n ∧ styled n) (DiagramGenerationResponse.nodes g)).
Proof.
  intros Hclaim.
  pose proof (Hclaim _ _ _ _ _ _ reference_fallback_run) as Hall.
  apply Forall_cons_1 in Hall as [[_ [Hbg _]] _].
  by apply Hbg.
Qed.

(** C5, amended: every node of every returned graph has type custom and
    a defined title and content.  On the success path its three colours
    are defined as well; in the fallback diagram only the Process node
    carries them, the Start and End nodes leave them to the canvas. *)
Theorem node_schema (P : Platform) (response originalDescription : string)
    (w w' : World) (g : DiagramGenerationResponse.t) :
  parseAIResponse P response originalDescription w = (Normal g, w') →
  Forall titled (DiagramGenerationResponse.nodes g) ∧
  (parseAIResponse_try P response originalDescription w = (Normal g, w') ∧
   Forall styled (DiagramGenerationResponse.nodes g)
   ∨
   g = createFallbackDiagram originalDescription ∧
   ∃ start process finish,
     DiagramGenerationResponse.nodes g = [start; process; finish] ∧
     styled process ∧ ¬ styled start ∧ ¬ styled finish).
Proof.
  intros Hrun.
  destruct (parseAIResponse_run P response originalDescription w)
    as (g0 & w0 & Hrun0 & Hcase).
  rewrite Hrun in Hrun0. injection Hrun0 as <- <-.
  destruct Hcase as [Htry | [-> _]].
  - pose proof Htry as Hok.
    apply parseAIResponse_try_Normal in Htry as (parsed & w1 & _ & Hnodes & _).
    apply rebuilt_nodes_complete in Hnodes.
    split; [eapply Forall_impl; [exact Hnodes | by intros n [? ?]] |].
    left. split; [done|]. eapply Forall_impl; [exact Hnodes | by intros n [? ?]].
  - split.
    + repeat constructor; done.
    + right. split; [done|]. eexists _, _, _. split; [reflexivity|].
      unfold styled, defined. simpl. repeat split; try done; intros [H _]; by apply H.
Qed.

Lemma node_schema_witness :
  parseAIResponse (Reference.platform (Normal "")) "not json at all"
    "Build a login flow" Reference.world0
  = (Normal (createFallbackDiagram "Build a login flow"), Reference.world0) ∧
  Forall titled
    (DiagramGenerationResponse.nodes (createFallbackDiagram "Build a login flow")).
Proof.
  split; [exact reference_fallback_run|].
  exact (proj1 (node_schema _ _ _ _ _ _ reference_fallback_run)).
Defined.

(** ** Ids *)

Section Ids.
Context (P : Platform).

(** The returned node ids are the supplied ids and the ids drawn for
    the nodes without one, interleaved. *)
Lemma node_ids items index w nodes w' :
  map_indexed (containerNode P) items index w = (Normal nodes, w') →
  map Node.id nodes ≡ₚ
    supplied_ids items
    ++ map (λ k, JStr (idText P k)) (seq (draws w) (missing_ids items)).
Proof.
  revert index w nodes w'.
  induction items as [|x rest IH]; intros index w nodes w' H; simpl in H.
  - apply ret_Normal in H as [-> _]. done.
  - step H as n w1 Hn. step H as ns w2 Hns. apply ret_Normal in H as [-> _].
    apply containerNode_Normal in Hn as (Hid & Hdraws & _).
    apply IH in Hns. simpl. rewrite Hid, Hns, Hdraws.
    unfold supplied_ids, missing_ids. simpl.
    destruct (truthy (prop x "id")); simpl; [done|].
    apply Permutation_middle.
Qed.

Lemma edge_ids items index w edges w' :
  map_indexed edgeOf items index w = (Normal edges, w') →
  map Edge.id edges ≡ₚ supplied_ids items ++ default_edge_ids items index.
Proof.
  revert index w edges w'.
  induction items as [|x rest IH]; intros index w edges w' H; simpl in H.
  - apply ret_Normal in H as [-> _]. done.
  - step H as e w1 He. step H as es w2 Hes. apply ret_Normal in H as [-> _].
    apply edgeOf_Normal in He as (Hid & _ & _).
    apply IH in Hes. simpl. rewrite Hid, Hes.
    unfold supplied_ids, or_else. simpl.
    destruct (truthy (prop x "id")); simpl; [done|].
    apply Permutation_middle.
Qed.

Lemma default_edge_ids_from items index x :
  x ∈ default_edge_ids items index →
  ∃ j, (index ≤ j)%nat ∧ x = JStr ("edge-" +:+ dec_nat j).
Proof.
  revert index. induction items as [|item rest IH]; intros index Hx; simpl in Hx.
  - by apply elem_of_nil in Hx.
  - destruct (truthy (prop item "id")).
    + destruct (IH _ Hx) as (j & Hj & ->). exists j. split; [lia | done].
    + apply elem_of_cons in Hx as [-> | Hx]; [by exists index|].
      destruct (IH _ Hx) as (j & Hj & ->). exists j. split; [lia | done].
Qed.

Lemma default_edge_ids_NoDup items index : NoDup (default_edge_ids items index).
Proof.
  revert index. induction items as [|item rest IH]; intros index; simpl.
  - constructor.
  - destruct (truthy (prop item "id")); [done|].
    constructor; [|done].
    intros Hin. apply default_edge_ids_from in Hin as (j & Hj & Heq).
    simpl in Heq. injection Heq as Heq. apply dec_nat_inj in Heq. lia.
Qed.

End Ids.

Lemma reference_duplicate_ids :
  ∃ g w',
    parseAIResponse_try (Reference.platform (Normal ""))
      (dq "{'nodes':[{'id':'a'},{'id':'a'}],'edges':[]}") "desc" Reference.world0
    = (Normal g, w') ∧
    map Node.id (DiagramGenerationResponse.nodes g) = [JStr "a"; JStr "a"].
Proof. eexists _, _. split; [vm_compute; reflexivity | reflexivity]. Qed.

(** C3, as claimed, fails: the response with two nodes of id [a] comes
    back with two nodes of id [a]. *)
Lemma id_uniqueness_counterexample :
  ¬ (∀ (P : Platform) (response originalDescription : string) (w w' : World)
       (g : DiagramGenerationResponse.t),
       parseAIResponse_try P response originalDescription w = (Normal g, w') →
       NoDup (map Node.id (DiagramGenerationResponse.nodes g)) ∧
       NoDup (map Edge.id (DiagramGenerationResponse.edges g))).
Proof.
  intros Hclaim.
  destruct reference_duplicate_ids as (g & w' & Hrun & Hids).
  apply Hclaim in Hrun as [Hnodes _].
  rewrite Hids in Hnodes. apply NoDup_cons in Hnodes as [Hnotin _].
  apply Hnotin. left.
Qed.

(** C3, amended: on the success path the returned node ids are pairwise
    distinct whenever the ids the model supplied, together with the ids
    [generateId] draws for the nodes without one, are pairwise distinct;
    the returned edge ids are pairwise distinct whenever the supplied edge
    ids are pairwise distinct and none of them equals the default id
    [edge-i] of an edge without one. *)
Theorem id_uniqueness (P : Platform) (response originalDescription : string)
    (w w' : World) (g : DiagramGenerationResponse.t) (parsed : JSValue) :
  JSON_parse P (default response (match_object response)) = Some parsed →
  parseAIResponse_try P response originalDescription w = (Normal g, w') →
  NoDup (supplied_ids (items_of parsed "nodes")
         ++ map (λ k, JStr (idText P k))
                (seq (draws w) (missing_ids (items_of parsed "nodes")))) →
  NoDup (supplied_ids (items_of parsed "edges")) →
  (∀ x, x ∈ default_edge_ids (items_of parsed "edges") 0 →
        x ∉ supplied_ids (items_of parsed "edges")) →
  NoDup (map Node.id (DiagramGenerationResponse.nodes g)) ∧
  NoDup (map Edge.id (DiagramGenerationResponse.edges g)).
Proof.
  intros Hparsed Htry Hnodes Hedges Hdefaults.
  apply parseAIResponse_try_Normal in Htry as (parsed' & w1 & Hparsed' & Hn & He).
  rewrite Hparsed in Hparsed'. injection Hparsed' as <-.
  apply node_ids in Hn. apply edge_ids in He. split.
  - by rewrite Hn.
  - rewrite He. apply NoDup_app. split; [done|]. split.
    + intros x Hx Hd. by apply (Hdefaults x).
    + apply default_edge_ids_NoDup.
Qed.

Lemma id_uniqueness_witness :
  ∃ g,
    fst (parseAIResponse_try (Reference.platform (Normal ""))
           (dq "{'nodes':[{'id':'a'},{}],'edges':[{},{'id':'x'}]}") "desc"
           Reference.world0) = Normal g ∧
    NoDup (map Node.id (DiagramGenerationResponse.nodes g)) ∧
    NoDup (map Edge.id (DiagramGenerationResponse.edges g)).
Proof.
  assert (∃ g w', parseAIResponse_try (Reference.platform (Normal ""))
            (dq "{'nodes':[{'id':'a'},{}],'edges':[{},{'id':'x'}]}") "desc"
            Reference.world0 = (Normal g, w')) as (g & w' & Htry).
  { eexists _, _. vm_compute. reflexivity. }
  assert (∃ parsed,
            JSON_parse (Reference.platform (Normal ""))
              (default (dq "{'nodes':[{'id':'a'},{}],'edges':[{},{'id':'x'}]}")
                 (match_object (dq "{'nodes':[{'id':'a'},{}],'edges':[{},{'id':'x'}]}")))
            = Some parsed ∧
            NoDup (supplied_ids (items_of parsed "nodes")
                   ++ map (λ k, JStr (idText (Reference.platform (Normal "")) k))
                          (seq (draws Reference.world0)
                               (missing_ids (items_of parsed "nodes")))) ∧
            NoDup (supplied_ids (items_of parsed "edges")) ∧
            (∀ x, x ∈ default_edge_ids (items_of parsed "edges") 0 →
                  x ∉ supplied_ids (items_of parsed "edges")))
    as (parsed & Hparsed & Hnodes & Hedges & Hdefaults).
  { eexists. split; [vm_compute; reflexivity|]. vm_compute. split; [|split].
    - apply NoDup_cons. split; [|apply NoDup_singleton].
      intros Hin. apply list_elem_of_singleton in Hin. discriminate.
    - apply NoDup_singleton.
    - intros x Hx Hs. apply list_elem_of_singleton in Hx, Hs. congruence. }
  exists g. split; [by rewrite Htry|].
  exact (id_uniqueness _ _ _ _ _ _ _ Hparsed Htry Hnodes Hedges Hdefaults).
Defined.

(** ** Finding text in the prompt *)

Lemma strip_prefix_sound needle text after :
  strip_prefix needle text = Some after → text = needle +:+ after.
Proof.
  revert text. induction needle as [|a needle IH]; intros text H; simpl in H.
  - by injection H as ->.
  - destruct text as [|b text]; [done|].
    destruct (Ascii.eqb_spec a b) as [-> | _]; [|done].
    change (String b text = String b (needle +:+ after)). f_equal. by apply IH.
Qed.

Lemma find_sub_sound needle text before after :
  find_sub needle text = Some (before, after) → text = before +:+ needle +:+ after.
Proof.
  revert before. induction text as [|a text IH]; intros before H; simpl in H.
  - destruct (strip_prefix needle "") as [r|] eqn:E; [|done].
    injection H as <- <-. apply strip_prefix_sound in E. exact E.
  - destruct (strip_prefix needle (String a text)) as [r|] eqn:E.
    + injection H as <- <-. apply strip_prefix_sound in E. exact E.
    + destruct (find_sub needle text) as [[b r]|] eqn:E'; [|done].
      injection H as <- <-.
      change (String a text = String a (b +:+ needle +:+ r)). f_equal. by apply IH.
Qed.

Lemma contains_found needle text :
  is_Some (find_sub needle text) → contains needle text.
Proof.
  intros [[before after] H]. exists before, after. by apply find_sub_sound.
Qed.

Lemma string_app_assoc (a b c : string) : (a +:+ b) +:+ c = a +:+ (b +:+ c).
Proof.
  induction a as [|x a IH]; [done|].
  change (String x ((a +:+ b) +:+ c) = String x (a +:+ (b +:+ c))). by rewrite IH.
Qed.

Lemma contains_later needle head tail :
  contains needle tail → contains needle (head +:+ tail).
Proof.
  intros (before & after & ->). exists (head +:+ before), after.
  by rewrite string_app_assoc.
Qed.

Lemma contains_front needle head tail :
  contains needle head → contains needle (head +:+ tail).
Proof.
  intros (before & after & ->). exists before, (after +:+ tail).
  by rewrite !string_app_assoc.
Qed.

Lemma contains_front2 needle first second tail :
  contains needle (first +:+ second) → contains needle (first +:+ second +:+ tail).
Proof. rewrite <- string_app_assoc. apply contains_front. Qed.

(** Look for [needle] in a text built by appending pieces: in a piece,
    or across a piece and the next one. *)
Ltac find_in_pieces :=
  first
    [ solve [ apply contains_front; apply contains_found; vm_compute; eauto ]
    | solve [ apply contains_front2; apply contains_found; vm_compute; eauto ]
    | solve [ apply contains_found; vm_compute; eauto ]
    | apply contains_later; find_in_pieces ].

(** The prompt of a container diagram, and what it writes after
    [animated]. *)
Lemma container_prompt_animated (request : DiagramGenerationRequest.t)
    (availableIcons : list PublicIcon.t) :
  diagramType_of request = "container" →
  ∃ prompt,
    buildPrompt request availableIcons = Normal prompt ∧
    contains
      (schema_animated (negb (isWorkflowType (DiagramGenerationRequest.description request))))
      prompt.
Proof.
  unfold diagramType_of. intros Htype.
  unfold buildPrompt. cbv zeta. rewrite Htype.
  change (getDiagramTypeConfig "container") with (Own config_container).
  cbv beta iota. unfold animatedEdges_of.
  destruct (isWorkflowType (DiagramGenerationRequest.description request));
    cbn [String.eqb Ascii.eqb Bool.eqb andb negb animated config_container];
    (eexists; split; [reflexivity|]); find_in_pieces.
Qed.

(** ** The animation heuristic *)

(** C4, as claimed, fails in its second half: a container request whose
    description has no workflow keyword, answered by a response whose
    only edge has no [animated] field, comes back with that edge not
    animated. *)
Lemma animation_heuristic_counterexample :
  ∃ g w',
    generateDiagram
      (Reference.platform (Normal (dq "{'edges':[{'source':'a','target':'b'}]}")))
      (DiagramGenerationRequest.mk "web shop" "groq" None
         (Some (DiagramGenerationRequest.mk_options None (Some "container") None)))
      Reference.world0 = (Normal g, w') ∧
    isWorkflowType "web shop" = false ∧
    Reference.json (dq "{'edges':[{'source':'a','target':'b'}]}")
      = Some (JObj [("edges", JArr [JObj [("source", JStr "a"); ("target", JStr "b")]])]) ∧
    map Edge.animated (DiagramGenerationResponse.edges g) = [JBool false].
Proof.
  eexists _, _. split; [vm_compute; reflexivity|].
  split; [reflexivity|]. split; [vm_compute; reflexivity | reflexivity].
Qed.

(** C4, amended: for a container diagram the workflow keywords decide
    only the value that [buildPrompt] writes after [animated] in the
    schema of the prompt, false when a keyword matches and true when none
    does.  The normaliser does not consult it: on the success path an edge
    whose parsed form omits [animated] comes back with [animated] false,
    whatever the description. *)
Theorem animation_default (P : Platform) (request : DiagramGenerationRequest.t)
    (availableIcons : list PublicIcon.t) (response : string)
    (w w' : World) (g : DiagramGenerationResponse.t) (parsed : JSValue)
    (i : nat) (edge : JSValue) :
  diagramType_of request = "container" →
  JSON_parse P (default response (match_object response)) = Some parsed →
  parseAIResponse_try P response (DiagramGenerationRequest.description request) w
  = (Normal g, w') →
  items_of parsed "edges" !! i = Some edge →
  prop edge "animated" = JUndefined →
  (∃ prompt,
     buildPrompt request availableIcons = Normal prompt ∧
     contains
       (schema_animated (negb (isWorkflowType (DiagramGenerationRequest.description request))))
       prompt) ∧
  ∃ e, DiagramGenerationResponse.edges g !! i = Some e ∧ Edge.animated e = JBool false.
Proof.
  intros Htype Hparsed Htry Hi Habsent. split.
  { apply container_prompt_animated, Htype. }
  apply parseAIResponse_try_Normal in Htry as (parsed' & w1 & Hparsed' & _ & He).
  rewrite Hparsed in Hparsed'. injection Hparsed' as <-.
  destruct (map_indexed_lookup _ _ _ _ _ _ He i edge Hi) as (e & wa & wb & Hlook & Hrun).
  apply edgeOf_Normal in Hrun as (_ & Hanimated & _).
  exists e. split; [done|]. by rewrite Hanimated, Habsent.
Qed.

Lemma animation_default_witness :
  (∃ prompt,
     buildPrompt (DiagramGenerationRequest.mk "web shop" "groq" None None) []
     = Normal prompt ∧
     contains (schema_animated true) prompt) ∧
  ∃ g e,
    fst (parseAIResponse_try (Reference.platform (Normal ""))
           (dq "{'edges':[{'source':'a','target':'b'}]}") "web shop" Reference.world0)
    = Normal g ∧
    DiagramGenerationResponse.edges g !! 0%nat = Some e ∧ Edge.animated e = JBool false.
Proof.
  assert (∃ g w', parseAIResponse_try (Reference.platform (Normal ""))
            (dq "{'edges':[{'source':'a','target':'b'}]}") "web shop"
            Reference.world0 = (Normal g, w')) as (g & w' & Htry).
  { eexists _, _. vm_compute. reflexivity. }
  assert (∃ parsed edge,
            JSON_parse (Reference.platform (Normal ""))
              (default (dq "{'edges':[{'source':'a','target':'b'}]}")
                 (match_object (dq "{'edges':[{'source':'a','target':'b'}]}")))
            = Some parsed ∧
            items_of parsed "edges" !! 0%nat = Some edge ∧
            prop edge "animated" = JUndefined)
    as (parsed & edge & Hparsed & Hedge & Habsent).
  { eexists _, _. split; [vm_compute; reflexivity|]. split; reflexivity. }
  destruct (animation_default (Reference.platform (Normal ""))
              (DiagramGenerationRequest.mk "web shop" "groq" None None) []
              _ _ _ _ _ _ _ eq_refl Hparsed Htry Hedge Habsent)
    as (Hprompt & e & He & Hanimated).
  split; [exact Hprompt|]. exists g, e. split; [by rewrite Htry | done].
Defined.

(** ** The entry points *)

Section EntryPoints.
Context (P : Platform).

Lemma getAPIKey_run provider w :
  getAPIKey provider w = (Normal (read (apiKeys w) provider), w).
Proof. done. Qed.

(** A provider outside the three known ones ends in the [default]
    branch of the [switch]. *)
Lemma dispatch_unsupported provider prompt model w :
  provider ≠ "openrouter" → provider ≠ "groq" → provider ≠ "gemini" →
  dispatch P provider prompt model w
  = (Throw (JsError ErrorK ("Unsupported provider: " +:+ provider)), w).
Proof.
  intros H1 H2 H3. unfold dispatch.
  apply String.eqb_neq in H1, H2, H3. by rewrite H1, H2, H3.
Qed.

(** A graph comes back only when the provider answered, and it is then
    the normaliser's graph for that answer. *)
Lemma generateDiagram_Normal request w g w' :
  generateDiagram P request w = (Normal g, w') →
  ∃ key prompt w1 response w2,
    usable (read (apiKeys w) (DiagramGenerationRequest.provider request)) = Some key ∧
    preparePrompt P request key w = (Normal prompt, w1) ∧
    dispatch P (DiagramGenerationRequest.provider request) prompt
      (DiagramGenerationRequest.model request) w1 = (Normal response, w2) ∧
    parseAIResponse P response (DiagramGenerationRequest.description request) w2
    = (Normal g, w').
Proof.
  unfold generateDiagram. intros H.
  rewrite (bind_run _ _ _ _ _ (getAPIKey_run _ w)) in H.
  destruct (usable _) as [key|] eqn:Ekey; [|discriminate].
  step H as prompt w1 Hprompt.
  unfold try_catch in H.
  destruct (bind (dispatch P _ prompt _) _ w1) as [[g0|e] w2] eqn:Ebody; [|discriminate].
  injection H as -> ->.
  step Ebody as response w2 Hresponse.
  exists key, prompt, w1, response, w2. done.
Qed.

Lemma refineSetup_run provider apiKey w :
  ∃ w1, refineSetup provider apiKey w = (Normal tt, w1).
Proof.
  unfold refineSetup, initializeProvider.
  destruct (nonempty apiKey); [|by eexists].
  unfold bind, record_call, modify, ret.
  repeat (destruct (String.eqb provider _)); by eexists.
Qed.

End EntryPoints.

(** None of the three providers is named like a member of
    [Object.prototype]. *)
Lemma supported_not_inherited provider : supported provider → inherited provider = false.
Proof. by intros [-> | [-> | ->]]. Qed.





(** C6: when the provider call of [generateDiagram] throws, the caller
    receives one error whose message is the generation-failure prefix
    followed by the message of the thrown error (or by a fixed text when
    the thrown value is not an error); no graph is returned, so the
    fallback diagram is not. *)
Theorem provider_failure_surfaces (P : Platform) (request : DiagramGenerationRequest.t)
    (w w1 w2 : World) (key : Member string) (prompt : string) (e : Exn) :
  usable (read (apiKeys w) (DiagramGenerationRequest.provider request)) = Some key →
  preparePrompt P request key w = (Normal prompt, w1) →
  dispatch P (DiagramGenerationRequest.provider request) prompt
    (DiagramGenerationRequest.model request) w1 = (Throw e, w2) →
  generateDiagram P request w
  = (Throw (JsError ErrorK
              ("Failed to generate diagram: " +:+
               match e with
               | JsError _ message => message
               | JsThrown _ => "Unknown error"
               end)), w2) ∧
  ∀ g w', generateDiagram P request w ≠ (Normal g, w').
Proof.
  intros Hkey Hprompt Hthrow.
  assert (generateDiagram P request w
          = (Throw (JsError ErrorK ("Failed to generate diagram: " +:+ message_of e)), w2))
    as Hrun.
  { unfold generateDiagram.
    rewrite (bind_run _ _ _ _ _ (getAPIKey_run _ w)), Hkey.
    rewrite (bind_run _ _ _ _ _ Hprompt).
    unfold try_catch. by rewrite (bind_run_Throw _ _ _ _ _ Hthrow). }
  split; [done|]. intros g w'. by rewrite Hrun.
Qed.

Lemma provider_failure_surfaces_witness :
  fst (generateDiagram (Reference.platform (Throw (JsError ErrorK "Connection error.")))
         (DiagramGenerationRequest.mk "web shop" "groq" None None) Reference.world0)
  = Throw (JsError ErrorK "Failed to generate diagram: Connection error.").
Proof.
  assert (∃ key prompt w1 w2,
    usable (read (apiKeys Reference.world0) ("groq")) = Some key ∧
    preparePrompt (Reference.platform (Throw (JsError ErrorK "Connection error.")))
      (DiagramGenerationRequest.mk "web shop" "groq" None None) key Reference.world0
    = (Normal prompt, w1) ∧
    dispatch (Reference.platform (Throw (JsError ErrorK "Connection error.")))
      "groq" prompt None w1 = (Throw (JsError ErrorK "Connection error."), w2))
    as (key & prompt & w1 & w2 & Hkey & Hprompt & Hthrow).
  { eexists _, _, _, _. split; [vm_compute; reflexivity|].
    split; [vm_compute; reflexivity|]. vm_compute. reflexivity. }
  destruct (provider_failure_surfaces _
              (DiagramGenerationRequest.mk "web shop" "groq" None None)
              _ _ _ _ _ _ Hkey Hprompt Hthrow) as [Hrun _].
  by rewrite Hrun.
Defined.

(** An unsupported provider with a stored key gets as far as the
    [switch], whose error comes back wrapped. *)
Example unsupported_provider_surfaces :
  fst (generateDiagram (Reference.platform (Normal "{}"))
         (DiagramGenerationRequest.mk "web shop" "telepathy" None None) Reference.world1)
  = Throw (JsError ErrorK "Failed to generate diagram: Unsupported provider: telepathy").
Proof. vm_compute. reflexivity. Qed.

(** C8: whatever fails inside [refineDescription], be it the provider
    call, an unsupported provider, or the parsing of the response, the
    call completes normally with exactly the four static questions. *)
Theorem refine_failure_falls_back (P : Platform) (description provider : string)
    (apiKey : option string) (w w1 : World) :
  refineSetup provider apiKey w = (Normal tt, w1) →
  (∃ e w2, dispatch P provider (refinePrompt description) None w1 = (Throw e, w2)) ∨
  (∃ response w2,
     dispatch P provider (refinePrompt description) None w1 = (Normal response, w2) ∧
     JSON_parse P (default response (match_array response)) = None) →
  ∃ w', refineDescription P description provider apiKey w
        = (Normal
             (JArr [ JStr "What are the main steps in this process?";
                     JStr "Are there any decision points or conditions?";
                     JStr "Who are the main actors or users involved?";
                     JStr "What happens if something goes wrong?" ]), w').
Proof.
  intros Hsetup Hfail. unfold refineDescription.
  rewrite (bind_run _ _ _ _ _ Hsetup). unfold try_catch.
  destruct Hfail as [(e & w2 & Hthrow) | (response & w2 & Hanswer & Hnone)].
  - rewrite (bind_run_Throw _ _ _ _ _ Hthrow). by exists w2.
  - rewrite (bind_run _ _ _ _ _ Hanswer). unfold lift, parse. rewrite Hnone. by exists w2.
Qed.

Lemma refine_failure_falls_back_witness :
  fst (refineDescription (Reference.platform (Normal "Sure! Here you go"))
         "a login flow" "telepathy" (Some "key") Reference.world0)
  = Normal fallbackQuestions.
Proof.
  assert (∃ w1, refineSetup "telepathy" (Some "key") Reference.world0 = (Normal tt, w1))
    as [w1 Hsetup] by (eexists; vm_compute; reflexivity).
  destruct (refine_failure_falls_back (Reference.platform (Normal "Sure! Here you go"))
              "a login flow" "telepathy" (Some "key") Reference.world0 w1 Hsetup)
    as [w' Hrun].
  { left. eexists _, _. by apply dispatch_unsupported. }
  by rewrite Hrun.
Defined.

(** C10: when the bracketed part of the provider response (or the
    response itself, without brackets) parses as JSON, [refineDescription]
    completes with the parsed value as it is, whatever it is: nothing
    checks that it is an array of strings. *)
Theorem refine_returns_parsed_value (P : Platform) (description provider : string)
    (apiKey : option string) (w w1 w2 : World) (response : string) (v : JSValue) :
  refineSetup provider apiKey w = (Normal tt, w1) →
  dispatch P provider (refinePrompt description) None w1 = (Normal response, w2) →
  JSON_parse P (default response (match_array response)) = Some v →
  refineDescription P description provider apiKey w = (Normal v, w2).
Proof.
  intros Hsetup Hanswer Hparsed. unfold refineDescription.
  rewrite (bind_run _ _ _ _ _ Hsetup). unfold try_catch.
  rewrite (bind_run _ _ _ _ _ Hanswer). unfold lift, parse. by rewrite Hparsed.
Qed.

Lemma refine_returns_parsed_value_witness :
  fst (refineDescription (Reference.platform (Normal "42")) "a login flow" "groq"
         (Some "gsk_test") Reference.world0) = Normal (JNum 42) ∧
  is_string_array (JNum 42) = false.
Proof.
  split; [|reflexivity].
  assert (∃ w1 w2,
    refineSetup "groq" (Some "gsk_test") Reference.world0 = (Normal tt, w1) ∧
    dispatch (Reference.platform (Normal "42")) "groq" (refinePrompt "a login flow") None w1
    = (Normal "42", w2)) as (w1 & w2 & Hsetup & Hanswer).
  { eexists _, _. split; vm_compute; reflexivity. }
  rewrite (refine_returns_parsed_value (Reference.platform (Normal "42")) "a login flow"
             "groq" (Some "gsk_test") Reference.world0 w1 w2 "42" (JNum 42) Hsetup Hanswer).
  - reflexivity.
  - vm_compute. reflexivity.
Defined.

(** The second response the claim names: an array of numbers comes back
    as an array of numbers. *)
Lemma refine_array_of_numbers :
  fst (refineDescription (Reference.platform (Normal "Here: [1, 2] enjoy")) "a login flow"
         "groq" (Some "gsk_test") Reference.world0) = Normal (JArr [JNum 1; JNum 2]) ∧
  is_string_array (JArr [JNum 1; JNum 2]) = false.
Proof. split; vm_compute; reflexivity. Qed.

(** Rejection is impossible altogether: [refineDescription] completes
    normally in every world. *)
Lemma refineDescription_never_rejects (P : Platform) (description provider : string)
    (apiKey : option string) (w : World) :
  ∃ v w', refineDescription P description provider apiKey w = (Normal v, w').
Proof.
  destruct (refineSetup_run provider apiKey w) as [w1 Hsetup].
  unfold refineDescription. rewrite (bind_run _ _ _ _ _ Hsetup). unfold try_catch.
  match goal with |- context [bind ?m ?k w1] => destruct (bind m k w1) as [[v|e] w2] end;
    eexists _, _; reflexivity.
Qed.

(** * Further properties of the normaliser *)

Section NormaliserDetails.
Context (P : Platform).

(** The whole of a rebuilt edge. *)
Lemma edgeOf_value edge index w e w' :
  edgeOf edge index w = (Normal e, w') →
  e = Edge.mk (prop edge "id" ||| JStr ("edge-" +:+ dec_nat index))
              (prop edge "source") (prop edge "target")
              (prop edge "type" ||| JStr "smoothstep")
              (prop edge "label") (prop edge "animated" ||| JBool false).
Proof.
  unfold edgeOf. intros H. do 6 step_get H.
  apply ret_Normal in H as [-> _]. done.
Qed.

(** The data of a rebuilt node, the icon path apart. *)
Lemma containerNode_data node index w n w' :
  containerNode P node index w = (Normal n, w') →
  let data := prop node "data" in
  NodeData.title (Node.data n)
    = get_opt data "title" ||| get_opt data "label"
        ||| JStr ("Component " +:+ dec_nat (index + 1)) ∧
  NodeData.content (Node.data n)
    = get_opt data "content" ||| get_opt data "description"
        ||| JStr "Component description" ∧
  NodeData.backgroundColor (Node.data n) = get_opt data "backgroundColor" ||| JStr "#ffffff" ∧
  NodeData.borderColor (Node.data n) = get_opt data "borderColor" ||| JStr "#e5e7eb" ∧
  NodeData.textColor (Node.data n) = get_opt data "textColor" ||| JStr "#1f2937".
Proof.
  unfold containerNode. intros H.
  step_get H. step H as nodeId w1 Hid. step_get H. step_get H.
  step H as icon w2 Hicon. apply ret_Normal in H as [-> _]. done.
Qed.

(** The icon path of a rebuilt node. *)
Lemma containerNode_iconPath node index w n w' :
  containerNode P node index w = (Normal n, w') →
  let data := prop node "data" in
  (truthy (get_opt data "iconPath") = true →
   NodeData.iconPath (Node.data n) = get_opt data "iconPath") ∧
  (truthy (get_opt data "iconPath") = false → truthy (get_opt data "icon") = false →
   NodeData.iconPath (Node.data n) = JUndefined) ∧
  (∀ name, truthy (get_opt data "iconPath") = false →
     get_opt data "icon" = JStr name → name ≠ "" →
     NodeData.iconPath (Node.data n) = JStr ("/icons/" +:+ name +:+ ".png")).
Proof.
  unfold containerNode. intros H.
  step_get H. step H as nodeId w1 Hid. step_get H. step_get H.
  step H as icon w2 Hicon. apply ret_Normal in H as [-> _]. simpl.
  destruct (truthy (get_opt (prop node "data") "iconPath")) eqn:Epath.
  - apply ret_Normal in Hicon as [-> _]. done.
  - split; [done|]. split.
    + intros _ Hfalse. rewrite Hfalse in Hicon. by apply ret_Normal in Hicon as [-> _].
    + intros name _ Hname Hne. rewrite Hname in Hicon. simpl in Hicon.
      apply String.eqb_neq in Hne. rewrite Hne in Hicon. simpl in Hicon.
      step_lift Hicon as icon' Hicon'. step_lift Hicon as text Htext.
      apply ret_Normal in Hicon as [-> _].
      apply get_Normal in Hicon' as [-> Hdata].
      unfold get_opt in Hname. rewrite Hdata in Hname. rewrite Hname in Htext.
      by injection Htext as <-.
Qed.

(** The i-th parsed node and the i-th returned node, on the success
    path. *)
Lemma success_node response originalDescription w g w' parsed i node :
  JSON_parse P (default response (match_object response)) = Some parsed →
  parseAIResponse_try P response originalDescription w = (Normal g, w') →
  items_of parsed "nodes" !! i = Some node →
  ∃ n wa wb, DiagramGenerationResponse.nodes g !! i = Some n ∧
             containerNode P node i wa = (Normal n, wb).
Proof.
  intros Hparsed Htry Hi.
  apply parseAIResponse_try_Normal in Htry as (parsed' & w1 & Hparsed' & Hn & _).
  rewrite Hparsed in Hparsed'. injection Hparsed' as <-.
  exact (map_indexed_lookup _ _ _ _ _ _ Hn i node Hi).
Qed.

Lemma success_edge response originalDescription w g w' parsed i edge :
  JSON_parse P (default response (match_object response)) = Some parsed →
  parseAIResponse_try P response originalDescription w = (Normal g, w') →
  items_of parsed "edges" !! i = Some edge →
  ∃ e wa wb, DiagramGenerationResponse.edges g !! i = Some e ∧
             edgeOf edge i wa = (Normal e, wb).
Proof.
  intros Hparsed Htry Hi.
  apply parseAIResponse_try_Normal in Htry as (parsed' & w1 & Hparsed' & _ & He).
  rewrite Hparsed in Hparsed'. injection Hparsed' as <-.
  exact (map_indexed_lookup _ _ _ _ _ _ He i edge Hi).
Qed.

Lemma map_indexed_length {A} (f : JSValue → nat → M A) items index w ys w' :
  map_indexed f items index w = (Normal ys, w') → length ys = length items.
Proof.
  revert index w ys w'. induction items as [|x rest IH]; intros index w ys w' H; simpl in H.
  - apply ret_Normal in H as [-> _]. done.
  - step H as y w1 Hy. step H as rest' w2 Hrest.
    apply ret_Normal in H as [-> _]. simpl. f_equal. eauto.
Qed.

End NormaliserDetails.

(** X1: on the success path the normaliser returns one node per parsed
    node and one edge per parsed edge; nothing is dropped or added. *)
Theorem success_keeps_counts (P : Platform) (response originalDescription : string)
    (w w' : World) (g : DiagramGenerationResponse.t) (parsed : JSValue) :
  JSON_parse P (default response (match_object response)) = Some parsed →
  parseAIResponse_try P response originalDescription w = (Normal g, w') →
  length (DiagramGenerationResponse.nodes g) = length (items_of parsed "nodes") ∧
  length (DiagramGenerationResponse.edges g) = length (items_of parsed "edges").
Proof.
  intros Hparsed Htry.
  apply parseAIResponse_try_Normal in Htry as (parsed' & w1 & Hparsed' & Hn & He).
  rewrite Hparsed in Hparsed'. injection Hparsed' as <-.
  split; eapply map_indexed_length; eauto.
Qed.

(** The sample response parses and takes the success path. *)
Lemma sample_run :
  ∃ parsed g w',
    JSON_parse (Reference.platform (Normal ""))
      (default sample_response (match_object sample_response)) = Some parsed ∧
    parseAIResponse_try (Reference.platform (Normal "")) sample_response "a shop"
      Reference.world0 = (Normal g, w') ∧
    items_of parsed "nodes" = sample_nodes ∧
    items_of parsed "edges" = sample_edges.
Proof.
  eexists _, _, _. split; [vm_compute; reflexivity|].
  split; [vm_compute; reflexivity|]. split; reflexivity.
Qed.

Lemma success_keeps_counts_witness :
  ∃ g, fst (parseAIResponse_try (Reference.platform (Normal "")) sample_response "a shop"
              Reference.world0) = Normal g ∧
       length (DiagramGenerationResponse.nodes g) = 3%nat ∧
       length (DiagramGenerationResponse.edges g) = 2%nat.
Proof.
  destruct sample_run as (parsed & g & w' & Hparsed & Htry & Hnodes & Hedges).
  exists g. split; [by rewrite Htry|].
  destruct (success_keeps_counts _ _ _ _ _ _ _ Hparsed Htry) as [Hn He].
  by rewrite Hn, He, Hnodes, Hedges.
Defined.

(** X2: on the success path an edge comes back with the source, target
    and label of its parsed form, verbatim, whether or not a node with
    that id exists, and with its type, or smoothstep when it gives none. *)
Theorem edge_passes_through (P : Platform) (response originalDescription : string)
    (w w' : World) (g : DiagramGenerationResponse.t) (parsed : JSValue)
    (i : nat) (edge : JSValue) :
  JSON_parse P (default response (match_object response)) = Some parsed →
  parseAIResponse_try P response originalDescription w = (Normal g, w') →
  items_of parsed "edges" !! i = Some edge →
  ∃ e, DiagramGenerationResponse.edges g !! i = Some e ∧
       Edge.source e = prop edge "source" ∧
       Edge.target e = prop edge "target" ∧
       Edge.label e = prop edge "label" ∧
       Edge.type e = (if truthy (prop edge "type") then prop edge "type"
                      else JStr "smoothstep").
Proof.
  intros Hparsed Htry Hi.
  destruct (success_edge P _ _ _ _ _ _ _ _ Hparsed Htry Hi) as (e & wa & wb & He & Hrun).
  apply edgeOf_value in Hrun as ->. eexists. split; [exact He | done].
Qed.

Lemma edge_passes_through_witness :
  ∃ g e, fst (parseAIResponse_try (Reference.platform (Normal "")) sample_response "a shop"
                Reference.world0) = Normal g ∧
         DiagramGenerationResponse.edges g !! 0%nat = Some e ∧
         Edge.target e = JStr "ghost" ∧
         (JStr "ghost" ∉ map Node.id (DiagramGenerationResponse.nodes g)) ∧
         Edge.type e = JStr "smoothstep".
Proof.
  destruct sample_run as (parsed & g & w' & Hparsed & Htry & Hnodes & Hedges).
  assert (items_of parsed "edges" !! 0%nat
          = Some (JObj [("source", JStr "web"); ("target", JStr "ghost");
                        ("label", JStr "calls")])) as Hi by (by rewrite Hedges).
  destruct (edge_passes_through _ _ _ _ _ _ _ _ _ Hparsed Htry Hi)
    as (e & He & _ & Htarget & _ & Htype).
  exists g, e. split; [by rewrite Htry|]. split; [exact He|].
  split; [exact Htarget|]. split; [|exact Htype].
  vm_compute in Htry. injection Htry as <- _. vm_compute.
  intros Hin. repeat (apply elem_of_cons in Hin as [Hin|Hin]; [discriminate|]).
  by apply elem_of_nil in Hin.
Defined.

(** X3: on the success path the data of the i-th node is filled field by
    field: the title is the parsed title, else the parsed label, else
    Component i+1; the content is the parsed content, else the parsed
    description, else a fixed text; each colour is the parsed one, else
    white, light grey and dark grey. *)
Theorem node_data_defaults (P : Platform) (response originalDescription : string)
    (w w' : World) (g : DiagramGenerationResponse.t) (parsed : JSValue)
    (i : nat) (node : JSValue) :
  JSON_parse P (default response (match_object response)) = Some parsed →
  parseAIResponse_try P response originalDescription w = (Normal g, w') →
  items_of parsed "nodes" !! i = Some node →
  ∃ n, DiagramGenerationResponse.nodes g !! i = Some n ∧
    NodeData.title (Node.data n)
      = get_opt (prop node "data") "title" ||| get_opt (prop node "data") "label"
          ||| JStr ("Component " +:+ dec_nat (i + 1)) ∧
    NodeData.content (Node.data n)
      = get_opt (prop node "data") "content" ||| get_opt (prop node "data") "description"
          ||| JStr "Component description" ∧
    NodeData.backgroundColor (Node.data n)
      = get_opt (prop node "data") "backgroundColor" ||| JStr "#ffffff" ∧
    NodeData.borderColor (Node.data n)
      = get_opt (prop node "data") "borderColor" ||| JStr "#e5e7eb" ∧
    NodeData.textColor (Node.data n)
      = get_opt (prop node "data") "textColor" ||| JStr "#1f2937".
Proof.
  intros Hparsed Htry Hi.
  destruct (success_node P _ _ _ _ _ _ _ _ Hparsed Htry Hi) as (n & wa & wb & Hn & Hrun).
  exists n. split; [exact Hn|]. exact (containerNode_data P _ _ _ _ _ Hrun).
Qed.

Lemma node_data_defaults_witness :
  ∃ g n, fst (parseAIResponse_try (Reference.platform (Normal "")) sample_response "a shop"
                Reference.world0) = Normal g ∧
         DiagramGenerationResponse.nodes g !! 2%nat = Some n ∧
         NodeData.title (Node.data n) = JStr "Component 3" ∧
         NodeData.content (Node.data n) = JStr "Component description" ∧
         NodeData.borderColor (Node.data n) = JStr "#e5e7eb".
Proof.
  destruct sample_run as (parsed & g & w' & Hparsed & Htry & Hnodes & Hedges).
  assert (items_of parsed "nodes" !! 2%nat
          = Some (JObj [("position", JObj [("x", JNum 5); ("y", JNum 7)])])) as Hi
    by (by rewrite Hnodes).
  destruct (node_data_defaults _ _ _ _ _ _ _ _ _ Hparsed Htry Hi)
    as (n & Hn & Htitle & Hcontent & _ & Hborder & _).
  exists g, n. split; [by rewrite Htry|]. done.
Defined.

(** X4: on the success path a node whose data has no usable iconPath but
    names an icon by a non-empty string gets the path of that icon under
    /icons with the extension png. *)
Theorem icon_name_becomes_path (P : Platform) (response originalDescription : string)
    (w w' : World) (g : DiagramGenerationResponse.t) (parsed : JSValue)
    (i : nat) (node : JSValue) (name : string) :
  JSON_parse P (default response (match_object response)) = Some parsed →
  parseAIResponse_try P response originalDescription w = (Normal g, w') →
  items_of parsed "nodes" !! i = Some node →
  truthy (get_opt (prop node "data") "iconPath") = false →
  get_opt (prop node "data") "icon" = JStr name →
  name ≠ "" →
  ∃ n, DiagramGenerationResponse.nodes g !! i = Some n ∧
       NodeData.iconPath (Node.data n) = JStr ("/icons/" +:+ name +:+ ".png").
Proof.
  intros Hparsed Htry Hi Hpath Hicon Hname.
  destruct (success_node P _ _ _ _ _ _ _ _ Hparsed Htry Hi) as (n & wa & wb & Hn & Hrun).
  exists n. split; [exact Hn|].
  by apply (containerNode_iconPath P _ _ _ _ _ Hrun).
Qed.

Lemma icon_name_becomes_path_witness :
  ∃ g n, fst (parseAIResponse_try (Reference.platform (Normal "")) sample_response "a shop"
                Reference.world0) = Normal g ∧
         DiagramGenerationResponse.nodes g !! 0%nat = Some n ∧
         NodeData.iconPath (Node.data n) = JStr "/icons/react.png".
Proof.
  destruct sample_run as (parsed & g & w' & Hparsed & Htry & Hnodes & Hedges).
  assert (items_of parsed "nodes" !! 0%nat
          = Some (JObj [("id", JStr "web");
                        ("data", JObj [("label", JStr "Web"); ("icon", JStr "react")])]))
    as Hi by (by rewrite Hnodes).
  destruct (icon_name_becomes_path _ _ _ _ _ _ _ _ _ "react" Hparsed Htry Hi)
    as (n & Hn & Hicon); [reflexivity | reflexivity | discriminate |].
  exists g, n. split; [by rewrite Htry|]. done.
Defined.

(** ** How the normaliser fails *)

Section NormaliserFailures.
Context (P : Platform).

(** A loop whose callback throws at one element throws, there or
    earlier. *)
Lemma map_indexed_throws {A} (f : JSValue → nat → M A) items index i x :
  items !! i = Some x →
  (∀ w, ∃ e w', f x (index + i)%nat w = (Throw e, w')) →
  ∀ w, ∃ e w', map_indexed f items index w = (Throw e, w').
Proof.
  revert index i. induction items as [|x0 rest IH]; intros index i Hi Hthrow w; [done|].
  simpl. destruct (f x0 index w) as [[y|e] w1] eqn:Ehead.
  - rewrite (bind_run _ _ _ _ _ Ehead).
    destruct i as [|i]; simpl in Hi.
    + injection Hi as ->. rewrite Nat.add_0_r in Hthrow.
      destruct (Hthrow w) as (e & w' & He). congruence.
    + destruct (IH (S index) i Hi) with (w := w1) as (e & w' & He).
      { intros w0. rewrite Nat.add_succ_comm. apply Hthrow. }
      rewrite (bind_run_Throw _ _ _ _ _ He). eauto.
  - rewrite (bind_run_Throw _ _ _ _ _ Ehead). eauto.
Qed.

Lemma containerNode_null index w :
  containerNode P JNull index w = (Throw not_readable, w).
Proof. done. Qed.

Lemma edgeOf_null index w : edgeOf JNull index w = (Throw not_readable, w).
Proof. done. Qed.

Lemma items_of_array parsed k x i :
  items_of parsed k !! i = Some x → ∃ l, prop parsed k ||| JArr [] = JArr l ∧ l !! i = Some x.
Proof.
  unfold items_of. destruct (prop parsed k ||| JArr []); try done. eauto.
Qed.

(** A thrown [try] block is a returned fallback diagram. *)
Lemma thrown_is_fallback response originalDescription w :
  (∃ e w', parseAIResponse_try P response originalDescription w = (Throw e, w')) →
  ∃ w', parseAIResponse P response originalDescription w
        = (Normal (createFallbackDiagram originalDescription), w').
Proof.
  intros (e & w' & He). exists w'. unfold parseAIResponse, try_catch. by rewrite He.
Qed.

End NormaliserFailures.

(** Run the next statement of a block that is to be shown to throw: if
    it throws we are done, otherwise go on with its result. *)
Ltac run_or_throw :=
  match goal with
  | |- ∃ e w', bind ?m ?k ?w = (Throw e, w') =>
      let E := fresh "E" in
      destruct (m w) as [[?|?] ?] eqn:E;
      [ rewrite (bind_run _ _ _ _ _ E)
      | rewrite (bind_run_Throw _ _ _ _ _ E); eauto ]
  end.

(** X5: one [null] among the parsed nodes or among the parsed edges
    discards the whole response: the caller gets the fallback diagram,
    not the nodes and edges that were well formed. *)
Theorem null_item_discards_response (P : Platform)
    (response originalDescription : string) (w : World) (parsed : JSValue) (i : nat) :
  JSON_parse P (default response (match_object response)) = Some parsed →
  items_of parsed "nodes" !! i = Some JNull ∨ items_of parsed "edges" !! i = Some JNull →
  ∃ w', parseAIResponse P response originalDescription w
        = (Normal (createFallbackDiagram originalDescription), w').
Proof.
  intros Hparsed Hnull. apply thrown_is_fallback.
  unfold parseAIResponse_try, parse. rewrite Hparsed.
  rewrite (bind_run _ _ _ _ _ (eq_refl : lift (Normal parsed) w = (Normal parsed, w))).
  destruct Hnull as [Hi | Hi]; apply items_of_array in Hi as (l & Hl & Hi).
  - run_or_throw. apply lift_Normal in E as [E ->]. apply get_Normal in E as [-> _].
    rewrite Hl. simpl.
    rewrite (bind_run _ _ _ _ _ (eq_refl : lift (Normal l) w = (Normal l, w))).
    destruct (map_indexed_throws (containerNode P) l 0 i JNull Hi) with (w := w)
      as (e & w' & He); [intros ww; eauto using containerNode_null|].
    rewrite (bind_run_Throw _ _ _ _ _ He). eauto.
  - do 4 run_or_throw.
    apply lift_Normal in E2 as [E2 ->]. apply get_Normal in E2 as [-> _].
    rewrite Hl. simpl.
    match goal with |- ∃ e w', bind (lift (Normal l)) ?k ?w1 = _ =>
      rewrite (bind_run _ _ _ _ _ (eq_refl : lift (Normal l) w1 = (Normal l, w1))) end.
    match goal with |- ∃ e w', bind (map_indexed edgeOf l 0) ?k ?w1 = _ =>
      destruct (map_indexed_throws edgeOf l 0 i JNull Hi) with (w := w1)
        as (e & w' & He); [intros ww; eauto using edgeOf_null|];
      rewrite (bind_run_Throw _ _ _ _ _ He); eauto end.
Qed.

Lemma null_item_discards_response_witness :
  fst (parseAIResponse (Reference.platform (Normal ""))
         (dq "{'title':'T','nodes':[{'id':'a'},null],'edges':[]}") "a shop" Reference.world0)
  = Normal (createFallbackDiagram "a shop").
Proof.
  assert (∃ parsed,
    JSON_parse (Reference.platform (Normal ""))
      (default (dq "{'title':'T','nodes':[{'id':'a'},null],'edges':[]}")
         (match_object (dq "{'title':'T','nodes':[{'id':'a'},null],'edges':[]}")))
    = Some parsed ∧ items_of parsed "nodes" !! 1%nat = Some JNull)
    as (parsed & Hparsed & Hnull).
  { eexists. split; [vm_compute; reflexivity | reflexivity]. }
  destruct (null_item_discards_response _ _ "a shop" Reference.world0 _ _ Hparsed
              (or_introl Hnull)) as [w' Hrun].
  by rewrite Hrun.
Defined.

(** X6: when the parsed response has a truthy [nodes] or [edges] that is
    not an array (a string, a number, an object), the loop over it cannot
    start and the caller gets the fallback diagram. *)
Theorem non_array_discards_response (P : Platform)
    (response originalDescription : string) (w : World) (parsed : JSValue) (k : string) :
  JSON_parse P (default response (match_object response)) = Some parsed →
  k = "nodes" ∨ k = "edges" →
  truthy (prop parsed k) = true →
  (∀ l, prop parsed k ≠ JArr l) →
  ∃ w', parseAIResponse P response originalDescription w
        = (Normal (createFallbackDiagram originalDescription), w').
Proof.
  intros Hparsed Hk Htruthy Hnot. apply thrown_is_fallback.
  assert (array_items (prop parsed k ||| JArr []) = Throw not_a_function) as Hitems.
  { rewrite (or_else_given _ _ Htruthy).
    destruct (prop parsed k) eqn:Ev; try done. by destruct (Hnot items). }
  unfold parseAIResponse_try, parse. rewrite Hparsed.
  rewrite (bind_run _ _ _ _ _ (eq_refl : lift (Normal parsed) w = (Normal parsed, w))).
  destruct Hk as [-> | ->].
  - run_or_throw. apply lift_Normal in E as [E ->]. apply get_Normal in E as [-> _].
    rewrite Hitems. eauto.
  - do 4 run_or_throw.
    apply lift_Normal in E2 as [E2 ->]. apply get_Normal in E2 as [-> _].
    rewrite Hitems. eauto.
Qed.

Lemma non_array_discards_response_witness :
  fst (parseAIResponse (Reference.platform (Normal ""))
         (dq "{'nodes':[{'id':'a'}],'edges':{'0':{'source':'a'}}}") "a shop"
         Reference.world0)
  = Normal (createFallbackDiagram "a shop").
Proof.
  assert (∃ parsed,
    JSON_parse (Reference.platform (Normal ""))
      (default (dq "{'nodes':[{'id':'a'}],'edges':{'0':{'source':'a'}}}")
         (match_object (dq "{'nodes':[{'id':'a'}],'edges':{'0':{'source':'a'}}}")))
    = Some parsed ∧ truthy (prop parsed "edges") = true ∧
    ∀ l, prop parsed "edges" ≠ JArr l)
    as (parsed & Hparsed & Htruthy & Hnot).
  { eexists. split; [vm_compute; reflexivity|]. split; [reflexivity | done]. }
  destruct (non_array_discards_response _ _ "a shop" Reference.world0 _ "edges" Hparsed
              (or_intror eq_refl) Htruthy Hnot) as [w' Hrun].
  by rewrite Hrun.
Defined.

(** X7: valid JSON that is not [null] and gives no truthy value for any
    of the five properties the normaliser reads (a number, a string, an
    array, an object with other properties only) is not an error: it comes
    back as an empty diagram titled Generated Diagram that carries the
    original description, and no id is drawn. *)
Theorem propertyless_json_gives_empty_diagram (P : Platform)
    (response originalDescription : string) (w : World) (parsed : JSValue) :
  JSON_parse P (default response (match_object response)) = Some parsed →
  nullish parsed = false →
  (∀ k, k ∈ ["nodes"; "edges"; "title"; "description"; "suggestions"] →
        truthy (prop parsed k) = false) →
  parseAIResponse P response originalDescription w
  = (Normal (DiagramGenerationResponse.mk (JStr "Generated Diagram")
               (JStr originalDescription) [] [] (JArr [])), w).
Proof.
  intros Hparsed Hnullish Hnone.
  assert (∀ k d, k ∈ ["nodes"; "edges"; "title"; "description"; "suggestions"] →
                 prop parsed k ||| d = d) as Hor.
  { intros k d Hk. unfold or_else. by rewrite (Hnone k Hk). }
  unfold parseAIResponse, try_catch, parseAIResponse_try, parse. rewrite Hparsed.
  unfold bind, lift, get. rewrite Hnullish.
  rewrite !Hor by (repeat first [apply list_elem_of_here | apply list_elem_of_further]).
  done.
Qed.

Lemma propertyless_json_gives_empty_diagram_witness :
  parseAIResponse (Reference.platform (Normal "")) (dq "Sure: {'foo': 1, 'title': ''}")
    "a shop" Reference.world0
  = (Normal (DiagramGenerationResponse.mk (JStr "Generated Diagram") (JStr "a shop")
               [] [] (JArr [])), Reference.world0).
Proof.
  apply (propertyless_json_gives_empty_diagram (Reference.platform (Normal ""))
           (dq "Sure: {'foo': 1, 'title': ''}") "a shop" Reference.world0
           (JObj [("foo", JNum 1); ("title", JStr "")])).
  - vm_compute. reflexivity.
  - reflexivity.
  - intros k Hk. repeat (apply elem_of_cons in Hk as [-> | Hk]; [reflexivity|]).
    by apply elem_of_nil in Hk.
Defined.

(** ** What the normaliser does to the world *)

Lemma same_service_refl w : same_service w w.
Proof. by repeat split. Qed.

Lemma same_service_trans w1 w2 w3 :
  same_service w1 w2 → same_service w2 w3 → same_service w1 w3.
Proof.
  intros (H1 & H2 & H3 & H4 & H5) (K1 & K2 & K3 & K4 & K5).
  repeat split; congruence.
Qed.

Lemma draws_only_ret {A} (a : A) : draws_only (ret a).
Proof. intros w. split; [apply same_service_refl | done]. Qed.

Lemma draws_only_lift {A} (c : Completion A) : draws_only (lift c).
Proof. intros w. split; [apply same_service_refl | done]. Qed.

Lemma draws_only_bind {A B} (m : M A) (k : A → M B) :
  draws_only m → (∀ a, draws_only (k a)) → draws_only (bind m k).
Proof.
  intros Hm Hk w. unfold bind. specialize (Hm w).
  destruct (m w) as [[a|e] w1]; simpl in *; [|done].
  destruct Hm as [Hs Hd]. destruct (Hk a w1) as [Hs' Hd'].
  split; [by eapply same_service_trans | lia].
Qed.

Lemma draws_only_try_catch {A} (m : M A) (h : Exn → M A) :
  draws_only m → (∀ e, draws_only (h e)) → draws_only (try_catch m h).
Proof.
  intros Hm Hh w. unfold try_catch. specialize (Hm w).
  destruct (m w) as [[a|e] w1]; simpl in *; [done|].
  destruct Hm as [Hs Hd]. destruct (Hh e w1) as [Hs' Hd'].
  split; [by eapply same_service_trans | lia].
Qed.

Lemma draws_only_generateId P : draws_only (generateId P).
Proof. intros w. split; [by repeat split | simpl; lia]. Qed.

Lemma draws_only_map_indexed {A} (f : JSValue → nat → M A) items index :
  (∀ x i, draws_only (f x i)) → draws_only (map_indexed f items index).
Proof.
  intros Hf. revert index. induction items as [|x rest IH]; intros index; simpl.
  - apply draws_only_ret.
  - apply draws_only_bind; [apply Hf|]. intros y.
    apply draws_only_bind; [apply IH|]. intros ys. apply draws_only_ret.
Qed.

Create HintDb draws_only.
#[local] Hint Resolve draws_only_ret draws_only_lift draws_only_generateId : draws_only.

Ltac draws_only_block :=
  repeat first
    [ apply draws_only_bind; [|intros ?]
    | apply draws_only_try_catch; [|intros ?]
    | apply draws_only_map_indexed; intros ? ?
    | match goal with |- draws_only (if ?b then _ else _) => destruct b end
    | solve [auto with draws_only] ].

Lemma draws_only_containerNode P node index : draws_only (containerNode P node index).
Proof. unfold containerNode. draws_only_block. Qed.

Lemma draws_only_edgeOf edge index : draws_only (edgeOf edge index).
Proof. unfold edgeOf. draws_only_block. Qed.

Lemma draws_only_parseAIResponse P response originalDescription :
  draws_only (parseAIResponse P response originalDescription).
Proof.
  unfold parseAIResponse, parseAIResponse_try.
  apply draws_only_try_catch; [|intros ?; apply draws_only_ret].
  apply draws_only_bind; [apply draws_only_lift | intros parsed].
  apply draws_only_bind; [apply draws_only_lift | intros parsedNodes].
  apply draws_only_bind; [apply draws_only_lift | intros nodeItems].
  apply draws_only_bind;
    [apply draws_only_map_indexed; intros; apply draws_only_containerNode | intros nodes].
  apply draws_only_bind; [apply draws_only_lift | intros parsedEdges].
  apply draws_only_bind; [apply draws_only_lift | intros edgeItems].
  apply draws_only_bind;
    [apply draws_only_map_indexed; intros; apply draws_only_edgeOf | intros edges].
  draws_only_block.
Qed.

(** X8: whatever the response, the normaliser leaves the stored keys,
    the three provider clients and the record of outside calls untouched;
    the only thing it does to the world is draw ids. *)
Theorem normaliser_only_draws_ids (P : Platform) (response originalDescription : string)
    (w : World) :
  same_service w (parseAIResponse P response originalDescription w).2 ∧
  (draws w ≤ draws (parseAIResponse P response originalDescription w).2)%nat.
Proof. apply draws_only_parseAIResponse. Qed.

Lemma node_draws P items index w nodes w' :
  map_indexed (containerNode P) items index w = (Normal nodes, w') →
  draws w' = (draws w + missing_ids items)%nat.
Proof.
  revert index w nodes w'.
  induction items as [|x rest IH]; intros index w nodes w' H; simpl in H.
  - apply ret_Normal in H as [_ ->]. unfold missing_ids. simpl. lia.
  - step H as n w1 Hn. step H as ns w2 Hns. apply ret_Normal in H as [_ ->].
    apply containerNode_Normal in Hn as (_ & Hdraws & _).
    apply IH in Hns. rewrite Hns, Hdraws. unfold missing_ids. simpl.
    destruct (truthy (prop x "id")); simpl; lia.
Qed.

Lemma edges_keep_world items index w edges w' :
  map_indexed edgeOf items index w = (Normal edges, w') → w' = w.
Proof.
  revert index w edges w'.
  induction items as [|x rest IH]; intros index w edges w' H; simpl in H.
  - by apply ret_Normal in H as [_ ->].
  - step H as e w1 He. step H as es w2 Hes. apply ret_Normal in H as [_ ->].
    apply edgeOf_Normal in He as (_ & _ & ->). eauto.
Qed.

(** X9: on the success path [generateId] is called exactly once for each
    parsed node without a usable id, and never for an edge. *)
Theorem one_draw_per_missing_id (P : Platform) (response originalDescription : string)
    (w w' : World) (g : DiagramGenerationResponse.t) (parsed : JSValue) :
  JSON_parse P (default response (match_object response)) = Some parsed →
  parseAIResponse_try P response originalDescription w = (Normal g, w') →
  draws w' = (draws w + missing_ids (items_of parsed "nodes"))%nat.
Proof.
  intros Hparsed Htry.
  apply parseAIResponse_try_Normal in Htry as (parsed' & w1 & Hparsed' & Hn & He).
  rewrite Hparsed in Hparsed'. injection Hparsed' as <-.
  apply edges_keep_world in He as ->. by apply node_draws in Hn.
Qed.

Lemma one_draw_per_missing_id_witness :
  draws (parseAIResponse_try (Reference.platform (Normal "")) sample_response "a shop"
           Reference.world0).2 = 2%nat.
Proof.
  destruct sample_run as (parsed & g & w' & Hparsed & Htry & Hnodes & Hedges).
  rewrite Htry. simpl.
  rewrite (one_draw_per_missing_id _ _ _ _ _ _ _ Hparsed Htry), Hnodes. reflexivity.
Defined.

Lemma grid_inj i j : grid i = grid j → i = j.
Proof.
  intros Heq.
  assert (Z.of_nat (i mod 3) = Z.of_nat (j mod 3) ∧ Z.of_nat (i / 3) = Z.of_nat (j / 3))
    as [Hmod Hdiv].
  { set (coordinate := λ k v, match prop v k with JNum z => z | _ => 0 end).
    split.
    - apply (f_equal (coordinate "x")) in Heq. unfold coordinate, grid in Heq.
      cbn [prop own_prop String.eqb Ascii.eqb Bool.eqb] in Heq. lia.
    - apply (f_equal (coordinate "y")) in Heq. unfold coordinate, grid in Heq.
      cbn [prop own_prop String.eqb Ascii.eqb Bool.eqb] in Heq. lia. }
  rewrite (Nat.div_mod_eq i 3), (Nat.div_mod_eq j 3). lia.
Qed.

(** X10: on the success path two parsed nodes without a position, at
    different places of the array, never get the same default position. *)
Theorem default_positions_differ (P : Platform) (response originalDescription : string)
    (w w' : World) (g : DiagramGenerationResponse.t) (parsed : JSValue)
    (i j : nat) (a b : JSValue) :
  JSON_parse P (default response (match_object response)) = Some parsed →
  parseAIResponse_try P response originalDescription w = (Normal g, w') →
  items_of parsed "nodes" !! i = Some a →
  items_of parsed "nodes" !! j = Some b →
  prop a "position" = JUndefined →
  prop b "position" = JUndefined →
  i ≠ j →
  ∃ n m, DiagramGenerationResponse.nodes g !! i = Some n ∧
         DiagramGenerationResponse.nodes g !! j = Some m ∧
         Node.position n ≠ Node.position m.
Proof.
  intros Hparsed Htry Hi Hj Ha Hb Hne.
  destruct (success_node P _ _ _ _ _ _ _ _ Hparsed Htry Hi) as (n & wa & wb & Hn & Hrun).
  destruct (success_node P _ _ _ _ _ _ _ _ Hparsed Htry Hj) as (m & wc & wd & Hm & Hrun').
  apply containerNode_Normal in Hrun as (_ & _ & Hpn & _).
  apply containerNode_Normal in Hrun' as (_ & _ & Hpm & _).
  exists n, m. split; [done|]. split; [done|].
  rewrite Hpn, Hpm, Ha, Hb. unfold or_else. cbn [truthy].
  intros Heq. by apply Hne, grid_inj.
Qed.

Lemma default_positions_differ_witness :
  ∃ g n m,
    fst (parseAIResponse_try (Reference.platform (Normal ""))
           (dq "{'nodes':[{},{},{},{}]}") "a shop" Reference.world0) = Normal g ∧
    DiagramGenerationResponse.nodes g !! 0%nat = Some n ∧
    DiagramGenerationResponse.nodes g !! 3%nat = Some m ∧
    Node.position n ≠ Node.position m.
Proof.
  assert (∃ parsed g w',
    JSON_parse (Reference.platform (Normal ""))
      (default (dq "{'nodes':[{},{},{},{}]}") (match_object (dq "{'nodes':[{},{},{},{}]}")))
    = Some parsed ∧
    parseAIResponse_try (Reference.platform (Normal "")) (dq "{'nodes':[{},{},{},{}]}")
      "a shop" Reference.world0 = (Normal g, w') ∧
    items_of parsed "nodes" !! 0%nat = Some (JObj []) ∧
    items_of parsed "nodes" !! 3%nat = Some (JObj []))
    as (parsed & g & w' & Hparsed & Htry & H0 & H3).
  { eexists _, _, _. split; [vm_compute; reflexivity|].
    split; [vm_compute; reflexivity|]. split; reflexivity. }
  destruct (default_positions_differ _ _ _ _ _ _ _ 0 3 _ _ Hparsed Htry H0 H3)
    as (n & m & Hn & Hm & Hdiff); [reflexivity | reflexivity | lia |].
  exists g, n, m. split; [by rewrite Htry|]. done.
Defined.

(** * The prompt *)

(** X11: only the first 150 icons of the catalogue reach the prompt;
    whatever comes after them makes no difference. *)
Theorem prompt_uses_first_150_icons (request : DiagramGenerationRequest.t)
    (availableIcons : list PublicIcon.t) :
  buildPrompt request availableIcons = buildPrompt request (take 150 availableIcons).
Proof.
  unfold buildPrompt.
  by rewrite <- (firstn_map PublicIcon.name 150 availableIcons), firstn_firstn.
Qed.

(** X12: the value written after [animated] in the schema of the prompt
    is false exactly for a flowchart, for an architecture diagram, and for
    a container diagram whose description matches a workflow keyword.  A
    type that is none of the three gets the container configuration but
    not the keyword test, so it is told to animate even for a workflow;
    unless the type names a member of [Object.prototype]: then no prompt
    is built and [buildPrompt] throws a [TypeError]. *)
Theorem animated_value_of_prompt (request : DiagramGenerationRequest.t)
    (availableIcons : list PublicIcon.t) :
  let diagramType := diagramType_of request in
  let workflow := isWorkflowType (DiagramGenerationRequest.description request) in
  let solid :=
    String.eqb diagramType "flowchart" || String.eqb diagramType "architecture"
    || (String.eqb diagramType "container" && workflow) in
  if inherited diagramType
  then ∃ message, buildPrompt request availableIcons = Throw (JsError TypeErrorK message)
  else ∃ prompt,
         buildPrompt request availableIcons = Normal prompt ∧
         contains (schema_animated (negb solid)) prompt.
Proof.
  unfold diagramType_of, buildPrompt. cbv zeta.
  set (diagramType := default "container" _).
  unfold getDiagramTypeConfig, animatedEdges_of.
  destruct (String.eqb_spec diagramType "flowchart") as [-> | Hf].
  { cbn. eexists; split; [reflexivity|]. find_in_pieces. }
  destruct (String.eqb_spec diagramType "container") as [-> | Hc].
  { cbn [inherited existsb Object_prototype String.eqb Ascii.eqb Bool.eqb orb andb].
    destruct (isWorkflowType _); cbn [negb animated config_container];
      (eexists; split; [reflexivity|]); find_in_pieces. }
  destruct (String.eqb_spec diagramType "architecture") as [-> | Ha].
  { cbn. eexists; split; [reflexivity|]. find_in_pieces. }
  destruct (inherited diagramType); [by eexists|].
  cbn [orb andb negb animated config_container].
  eexists; split; [reflexivity|]. find_in_pieces.
Qed.

(** X13: for a container diagram whose description matches a workflow
    keyword the prompt contradicts itself: its schema asks for edges that
    are not animated, and its edge rules still ask for animated edges. *)
Theorem workflow_prompt_contradicts_itself (request : DiagramGenerationRequest.t)
    (availableIcons : list PublicIcon.t) :
  diagramType_of request = "container" →
  isWorkflowType (DiagramGenerationRequest.description request) = true →
  ∃ prompt,
    buildPrompt request availableIcons = Normal prompt ∧
    contains (dq "'animated': false") prompt ∧
    contains "Use animated edges to show flow" prompt.
Proof.
  unfold diagramType_of. intros Htype Hworkflow.
  unfold buildPrompt. cbv zeta. rewrite Htype.
  change (getDiagramTypeConfig "container") with (Own config_container).
  cbv beta iota. unfold animatedEdges_of. rewrite Hworkflow.
  cbn [String.eqb Ascii.eqb Bool.eqb andb animated config_container bool_text].
  eexists. split; [reflexivity|]. split; find_in_pieces.
Qed.

Lemma workflow_prompt_contradicts_itself_witness :
  ∃ prompt,
    buildPrompt (DiagramGenerationRequest.mk "checkout workflow" "groq" None None) []
    = Normal prompt ∧
    contains (dq "'animated': false") prompt ∧
    contains "Use animated edges to show flow" prompt.
Proof.
  apply (workflow_prompt_contradicts_itself
           (DiagramGenerationRequest.mk "checkout workflow" "groq" None None) []);
    reflexivity.
Defined.

(** * The clients *)

Lemma initializeProvider_run provider key w :
  initializeProvider provider key w
  = (Normal tt, (initializeProvider provider key w).2).
Proof.
  unfold initializeProvider, bind, record_call, modify, ret.
  by repeat destruct (String.eqb provider _).
Qed.

Lemma initializeProvider_world provider key w :
  let w1 := (initializeProvider provider key w).2 in
  apiKeys w1 = apiKeys w ∧ draws w1 = draws w ∧
  calls w1 = CallInitializeProvider provider :: calls w.
Proof.
  unfold initializeProvider, bind, record_call, modify, ret.
  by repeat destruct (String.eqb provider _).
Qed.

Lemma initializeProvider_client provider key w :
  supported provider → client_key provider (initializeProvider provider key w).2 = Some key.
Proof. by intros [-> | [-> | ->]]. Qed.

(** X14: setting up a provider stores the key in the client of that
    provider and nowhere else: afterwards that client holds the new key,
    whatever it held before, the clients of the other providers are as
    they were, and the stored keys are untouched. *)
Theorem initializeProvider_sets_one_client (provider other : string)
    (key : Member string) (w : World) :
  supported provider →
  client_key provider (initializeProvider provider key w).2 = Some key ∧
  (other ≠ provider →
   client_key other (initializeProvider provider key w).2 = client_key other w) ∧
  apiKeys (initializeProvider provider key w).2 = apiKeys w.
Proof.
  intros Hp. split; [|split].
  - by apply initializeProvider_client.
  - intros Hne. unfold client_key.
    destruct Hp as [-> | [-> | ->]]; apply String.eqb_neq in Hne; rewrite Hne;
      by repeat destruct (String.eqb other _).
  - apply initializeProvider_world.
Qed.

Lemma initializeProvider_sets_one_client_witness :
  client_key "groq" (initializeProvider "groq" (Own "new")
                       (initializeProvider "groq" (Own "old") Reference.world0).2).2
  = Some (Own "new").
Proof.
  exact (proj1 (initializeProvider_sets_one_client "groq" "gemini" (Own "new")
                  (initializeProvider "groq" (Own "old") Reference.world0).2
                  (or_intror (or_introl eq_refl)))).
Defined.

(** * The entry points, continued *)

Section Dispatch.
Context (P : Platform).

(** With a client in place the provider is called once, with the model
    of the caller or the default one. *)
Lemma dispatch_with_client provider prompt model key w :
  supported provider →
  client_key provider w = Some key →
  ∃ outcome,
    dispatch P provider prompt model w
    = (outcome,
       (record_call (CallProvider provider (string_or model (defaultModel provider)) prompt)
          w).2).
Proof.
  intros Hp Hkey. unfold dispatch, client_key in *.
  destruct Hp as [-> | [-> | ->]]; simpl in *.
  - unfold generateWithOpenRouter, bind, gets, lift, ret.
    destruct (openrouterClient w) as [c|] eqn:Ec; [|done]. simpl. rewrite ?Ec.
    destruct (chat_completions_create P _ _ _ _ _); eauto.
  - unfold generateWithGroq, bind, gets, lift, ret.
    destruct (groqClient w) as [c|] eqn:Ec; [|done]. simpl. rewrite ?Ec.
    destruct (chat_completions_create P _ _ _ _ _); eauto.
  - unfold generateWithGemini, bind, gets, lift, ret.
    destruct (geminiClient w) as [c|] eqn:Ec; [|done]. simpl. rewrite ?Ec.
    destruct (generateContent P _ _ _); eauto.
Qed.

(** Without a client nothing is called. *)
Lemma dispatch_without_client provider prompt model w :
  client_key provider w = None →
  ∃ e, dispatch P provider prompt model w = (Throw e, w).
Proof.
  unfold dispatch, client_key. intros Hkey.
  destruct (String.eqb provider "openrouter").
  { unfold generateWithOpenRouter, bind, gets.
    destruct (openrouterClient w); [done | eauto]. }
  destruct (String.eqb provider "groq").
  { unfold generateWithGroq, bind, gets. destruct (groqClient w); [done | eauto]. }
  destruct (String.eqb provider "gemini").
  { unfold generateWithGemini, bind, gets. destruct (geminiClient w); [done | eauto]. }
  eauto.
Qed.

Lemma dispatch_keeps_clients provider prompt model w q :
  client_key q (dispatch P provider prompt model w).2 = client_key q w ∧
  apiKeys (dispatch P provider prompt model w).2 = apiKeys w.
Proof.
  unfold dispatch, generateWithOpenRouter, generateWithGroq, generateWithGemini,
    bind, gets, lift, ret, throw, record_call, modify, client_key.
  repeat case_match; simplify_eq; simpl; try done;
    by match goal with H : ?client w = _ |- context [?client w] => rewrite H end.
Qed.

Lemma preparePrompt_run request key icons w :
  getAllIcons P = Normal icons →
  preparePrompt P request key w
  = (buildPrompt request icons,
     (record_call CallBuildPrompt
        (record_call CallGetAllIcons
           (initializeProvider (DiagramGenerationRequest.provider request) key w).2).2).2).
Proof.
  intros Hicons. unfold preparePrompt.
  rewrite (bind_run _ _ _ _ _ (initializeProvider_run _ _ _)).
  unfold bind, record_call, modify, lift, ret. by rewrite Hicons.
Qed.

End Dispatch.

(** Preparing the prompt leaves the freshly set up client in place,
    whether or not the icon catalogue can be read. *)
Lemma preparePrompt_client (P : Platform) (request : DiagramGenerationRequest.t)
    (w : World) (key : Member string) :
  supported (DiagramGenerationRequest.provider request) →
  client_key (DiagramGenerationRequest.provider request)
    (preparePrompt P request key w).2 = Some key.
Proof.
  intros Hp. pose proof (initializeProvider_client _ key w Hp) as Hc.
  unfold preparePrompt.
  rewrite (bind_run _ _ _ _ _ (initializeProvider_run _ _ _)).
  remember (initializeProvider _ key w).2 as w0 eqn:Hw0. clear Hw0.
  unfold bind, record_call, modify, lift, ret.
  destruct (getAllIcons P) as [icons|e]; exact Hc.
Qed.

(** Past the key check the client of the requested provider holds the
    stored key, however the request ends. *)
Lemma generateDiagram_sets_client (P : Platform) (request : DiagramGenerationRequest.t)
    (w : World) (key : Member string) :
  usable (read (apiKeys w) (DiagramGenerationRequest.provider request)) = Some key →
  supported (DiagramGenerationRequest.provider request) →
  client_key (DiagramGenerationRequest.provider request) (generateDiagram P request w).2
  = Some key.
Proof.
  intros Hkey Hp. unfold generateDiagram.
  rewrite (bind_run _ _ _ _ _ (getAPIKey_run _ w)), Hkey.
  pose proof (preparePrompt_client P request w key Hp) as Hc1.
  unfold bind at 1.
  destruct (preparePrompt P request key w) as [[prompt|e] w1]; simpl in Hc1; [|exact Hc1].
  destruct (dispatch_keeps_clients P (DiagramGenerationRequest.provider request)
              prompt (DiagramGenerationRequest.model request) w1
              (DiagramGenerationRequest.provider request)) as [Hkeep _].
  unfold try_catch, bind.
  destruct (dispatch P _ _ _ w1) as [[response|e] w2]; simpl in *; [|congruence].
  destruct (draws_only_parseAIResponse P response
              (DiagramGenerationRequest.description request) w2)
    as [(_ & Ho & Hg & Hm & _) _].
  destruct (parseAIResponse P response _ w2) as [[g|e] w3]; simpl in *;
    rewrite <- Hc1, <- Hkeep; unfold client_key; by rewrite Ho, Hg, Hm.
Qed.

(** X15: a supported provider with a stored key and an available icon
    catalogue is called exactly once per [generateDiagram] whenever the
    prompt can be built: after the client was set up, the icons fetched
    and the prompt built, with the model of the request or the provider's
    default one; this holds whether the call succeeds, fails, or answers
    nonsense: nothing is retried.  When the prompt cannot be built, the
    error of [buildPrompt] reaches the caller as it is and no provider is
    called. *)
Theorem generateDiagram_calls_provider_once (P : Platform)
    (request : DiagramGenerationRequest.t) (w : World) (key : Member string)
    (icons : list PublicIcon.t) :
  usable (read (apiKeys w) (DiagramGenerationRequest.provider request)) = Some key →
  supported (DiagramGenerationRequest.provider request) →
  getAllIcons P = Normal icons →
  (∀ prompt, buildPrompt request icons = Normal prompt →
     calls (generateDiagram P request w).2
     = CallProvider (DiagramGenerationRequest.provider request)
         (string_or (DiagramGenerationRequest.model request)
                    (defaultModel (DiagramGenerationRequest.provider request)))
         prompt
       :: CallBuildPrompt :: CallGetAllIcons
       :: CallInitializeProvider (DiagramGenerationRequest.provider request)
       :: calls w) ∧
  (∀ e, buildPrompt request icons = Throw e →
     (generateDiagram P request w).1 = Throw e ∧
     calls (generateDiagram P request w).2
     = CallBuildPrompt :: CallGetAllIcons
       :: CallInitializeProvider (DiagramGenerationRequest.provider request)
       :: calls w).
Proof.
  intros Hkey Hp Hicons.
  pose proof (preparePrompt_run P request key icons w Hicons) as Hprepare.
  remember (record_call CallBuildPrompt _).2 as w1 eqn:Hw1.
  assert (client_key (DiagramGenerationRequest.provider request) w1 = Some key) as Hclient.
  { rewrite <- (initializeProvider_client _ key w Hp). subst w1. unfold client_key. simpl.
    by repeat destruct (String.eqb _ _). }
  assert (calls w1 = CallBuildPrompt :: CallGetAllIcons
                     :: CallInitializeProvider (DiagramGenerationRequest.provider request)
                     :: calls w) as Hcalls.
  { subst w1. simpl. by rewrite (proj2 (proj2 (initializeProvider_world _ key w))). }
  clear Hw1. split.
  - intros prompt Hprompt. unfold generateDiagram.
    rewrite (bind_run _ _ _ _ _ (getAPIKey_run _ w)), Hkey.
    rewrite Hprompt in Hprepare. rewrite (bind_run _ _ _ _ _ Hprepare).
    destruct (dispatch_with_client P _ prompt
                (DiagramGenerationRequest.model request) key w1 Hp Hclient)
      as [outcome Hrun].
    remember (record_call (CallProvider _ _ _) w1).2 as w2 eqn:Hw2.
    assert (calls w2 = CallProvider (DiagramGenerationRequest.provider request)
                         (string_or (DiagramGenerationRequest.model request)
                            (defaultModel (DiagramGenerationRequest.provider request)))
                         prompt :: calls w1) as Hcalls2
      by (by subst w2).
    clear Hw2. unfold try_catch. destruct outcome as [response|e].
    + rewrite (bind_run _ _ _ _ _ Hrun).
      destruct (draws_only_parseAIResponse P response
                  (DiagramGenerationRequest.description request) w2)
        as [(_ & _ & _ & _ & Hsame) _].
      destruct (parseAIResponse P response _ w2) as [[g|e] w3]; simpl in *;
        by rewrite Hsame, Hcalls2, Hcalls.
    + rewrite (bind_run_Throw _ _ _ _ _ Hrun). simpl. by rewrite Hcalls2, Hcalls.
  - intros e He. unfold generateDiagram.
    rewrite (bind_run _ _ _ _ _ (getAPIKey_run _ w)), Hkey.
    rewrite He in Hprepare. by rewrite (bind_run_Throw _ _ _ _ _ Hprepare).
Qed.

Lemma generateDiagram_calls_provider_once_witness :
  ∃ prompt,
    buildPrompt (DiagramGenerationRequest.mk "web shop" "groq" (Some "") None)
      [ PublicIcon.mk "docker" "docker" "docker.png" "/icons/docker.png" None;
        PublicIcon.mk "redis" "redis" "redis.png" "/icons/redis.png" None ]
    = Normal prompt ∧
    calls (generateDiagram (Reference.platform (Throw (JsError ErrorK "Connection error.")))
             (DiagramGenerationRequest.mk "web shop" "groq" (Some "") None)
             Reference.world0).2
    = [ CallProvider "groq" "llama-3.1-70b-versatile" prompt;
        CallBuildPrompt; CallGetAllIcons; CallInitializeProvider "groq" ].
Proof.
  eexists. split; [reflexivity|].
  refine (proj1 (generateDiagram_calls_provider_once
                   (Reference.platform (Throw (JsError ErrorK "Connection error.")))
                   (DiagramGenerationRequest.mk "web shop" "groq" (Some "") None)
                   Reference.world0 (Own "gsk_test")
                   [ PublicIcon.mk "docker" "docker" "docker.png" "/icons/docker.png" None;
                     PublicIcon.mk "redis" "redis" "redis.png" "/icons/redis.png" None ]
                   _ _ _) _ _).
  - vm_compute. reflexivity.
  - right. left. reflexivity.
  - reflexivity.
  - reflexivity.
Defined.

(** A request for a diagram type named like a member of
    [Object.prototype] never reaches the provider: the [TypeError] of
    [buildPrompt] is thrown outside the [try] block. *)
Example inherited_type_rejects :
  generateDiagram (Reference.platform (Normal "{}"))
    (DiagramGenerationRequest.mk "web shop" "groq" None
       (Some (DiagramGenerationRequest.mk_options None (Some "toString") None)))
    Reference.world0
  = (Throw not_readable,
     (record_call CallBuildPrompt
        (record_call CallGetAllIcons
           (initializeProvider "groq" (Own "gsk_test") Reference.world0).2).2).2).
Proof. vm_compute. reflexivity. Qed.

(** X16: once the provider has answered, [generateDiagram] cannot fail:
    whatever text came back, the caller gets the graph the normaliser
    makes of it. *)
Theorem answered_request_resolves (P : Platform) (request : DiagramGenerationRequest.t)
    (w w1 w2 : World) (key : Member string) (prompt response : string) :
  usable (read (apiKeys w) (DiagramGenerationRequest.provider request)) = Some key →
  preparePrompt P request key w = (Normal prompt, w1) →
  dispatch P (DiagramGenerationRequest.provider request) prompt
    (DiagramGenerationRequest.model request) w1 = (Normal response, w2) →
  ∃ g w',
    generateDiagram P request w = (Normal g, w') ∧
    parseAIResponse P response (DiagramGenerationRequest.description request) w2
    = (Normal g, w').
Proof.
  intros Hkey Hprompt Hanswer.
  destruct (parseAIResponse_run P response (DiagramGenerationRequest.description request) w2)
    as (g & w' & Hrun & _).
  exists g, w'. split; [|done]. unfold generateDiagram.
  rewrite (bind_run _ _ _ _ _ (getAPIKey_run _ w)), Hkey.
  rewrite (bind_run _ _ _ _ _ Hprompt). unfold try_catch.
  by rewrite (bind_run _ _ _ _ _ Hanswer), Hrun.
Qed.

Lemma answered_request_resolves_witness :
  fst (generateDiagram (Reference.platform (Normal "I cannot help with that."))
         (DiagramGenerationRequest.mk "web shop" "groq" None None) Reference.world0)
  = Normal (createFallbackDiagram "web shop").
Proof.
  assert (∃ key prompt w1 w2,
    usable (read (apiKeys Reference.world0) ("groq")) = Some key ∧
    preparePrompt (Reference.platform (Normal "I cannot help with that."))
      (DiagramGenerationRequest.mk "web shop" "groq" None None) key Reference.world0
    = (Normal prompt, w1) ∧
    dispatch (Reference.platform (Normal "I cannot help with that."))
      "groq" prompt None w1 = (Normal "I cannot help with that.", w2) ∧
    parseAIResponse (Reference.platform (Normal "I cannot help with that."))
      "I cannot help with that." "web shop" w2
    = (Normal (createFallbackDiagram "web shop"), w2))
    as (key & prompt & w1 & w2 & Hkey & Hprompt & Hanswer & Hparse).
  { eexists _, _, _, _. split; [vm_compute; reflexivity|].
    split; [vm_compute; reflexivity|]. split; [vm_compute; reflexivity|].
    apply parse_failure_falls_back. vm_compute. reflexivity. }
  destruct (answered_request_resolves _
              (DiagramGenerationRequest.mk "web shop" "groq" None None)
              _ _ _ _ _ _ Hkey Hprompt Hanswer) as (g & w' & Hrun & Hsame).
  rewrite Hrun. simpl in *. rewrite Hparse in Hsame. by injection Hsame as <- _.
Defined.

(** X17: when a chat provider answers without content, the caller of a
    request whose prompt could be built gets the fallback diagram for the
    description, not an error. *)
Theorem empty_answer_gives_fallback (P : Platform) (request : DiagramGenerationRequest.t)
    (w : World) (key : Member string) (icons : list PublicIcon.t) (prompt : string) :
  usable (read (apiKeys w) (DiagramGenerationRequest.provider request)) = Some key →
  DiagramGenerationRequest.provider request = "openrouter" ∨
  DiagramGenerationRequest.provider request = "groq" →
  getAllIcons P = Normal icons →
  buildPrompt request icons = Normal prompt →
  (∀ baseURL apiKey model prompt max_tokens,
     chat_completions_create P baseURL apiKey model prompt max_tokens = Normal None) →
  JSON_parse P "" = None →
  (generateDiagram P request w).1
  = Normal (createFallbackDiagram (DiagramGenerationRequest.description request)).
Proof.
  intros Hkey Hp Hicons Hprompt Hsilent Hparse. unfold generateDiagram.
  rewrite (bind_run _ _ _ _ _ (getAPIKey_run _ w)), Hkey.
  pose proof (preparePrompt_run P request key icons w Hicons) as Hprepare.
  rewrite Hprompt in Hprepare. rewrite (bind_run _ _ _ _ _ Hprepare). clear Hprepare.
  remember (record_call CallBuildPrompt _).2 as w1 eqn:Hw1.
  assert (supported (DiagramGenerationRequest.provider request)) as Hs.
  { destruct Hp; [by left | by right; left]. }
  assert (client_key (DiagramGenerationRequest.provider request) w1 = Some key) as Hclient.
  { rewrite <- (initializeProvider_client _ key w Hs). subst w1. unfold client_key. simpl.
    by repeat destruct (String.eqb _ _). }
  clear Hw1.
  assert (∃ w2, dispatch P (DiagramGenerationRequest.provider request)
                  prompt (DiagramGenerationRequest.model request) w1
                = (Normal "", w2)) as [w2 Hanswer].
  { unfold dispatch, client_key in *. destruct Hp as [Hp | Hp]; rewrite Hp in *; simpl in *.
    - unfold generateWithOpenRouter, bind, gets, lift, ret.
      destruct (openrouterClient w1) as [c|]; [|done]. simpl. rewrite Hsilent. eauto.
    - unfold generateWithGroq, bind, gets, lift, ret.
      destruct (groqClient w1) as [c|]; [|done]. simpl. rewrite Hsilent. eauto. }
  unfold try_catch. rewrite (bind_run _ _ _ _ _ Hanswer).
  by rewrite (parse_failure_falls_back P "" _ w2 Hparse).
Qed.

Lemma empty_answer_gives_fallback_witness :
  (generateDiagram silent_platform
     (DiagramGenerationRequest.mk "web shop" "groq" None None) Reference.world0).1
  = Normal (createFallbackDiagram "web shop").
Proof.
  assert (∃ prompt,
            buildPrompt (DiagramGenerationRequest.mk "web shop" "groq" None None) []
            = Normal prompt) as [prompt Hprompt] by (eexists; reflexivity).
  apply (empty_answer_gives_fallback silent_platform
           (DiagramGenerationRequest.mk "web shop" "groq" None None)
           Reference.world0 (Own "gsk_test") [] prompt).
  - vm_compute. reflexivity.
  - by right.
  - reflexivity.
  - exact Hprompt.
  - reflexivity.
  - reflexivity.
Defined.

(** X18: [refineDescription] never looks at the stored keys: called
    without a key while the provider has no client yet, it makes no
    call at all and completes with the four static questions, leaving the
    world as it was. *)
Theorem refine_without_client_makes_no_call (P : Platform)
    (description provider : string) (apiKey : option string) (w : World) :
  nonempty apiKey = None →
  client_key provider w = None →
  refineDescription P description provider apiKey w = (Normal fallbackQuestions, w).
Proof.
  intros Hkey Hclient. unfold refineDescription, refineSetup. rewrite Hkey.
  rewrite (bind_run _ _ _ _ _ (eq_refl : ret tt w = (Normal tt, w))).
  destruct (dispatch_without_client P provider (refinePrompt description) None w Hclient)
    as [e He].
  unfold try_catch. by rewrite (bind_run_Throw _ _ _ _ _ He).
Qed.

Lemma refine_without_client_makes_no_call_witness :
  apiKeys Reference.world0 !! "groq" = Some "gsk_test" ∧
  refineDescription (Reference.platform (Normal (dq "['Who logs in?']"))) "a login flow"
    "groq" None Reference.world0
  = (Normal fallbackQuestions, Reference.world0).
Proof.
  split; [vm_compute; reflexivity|].
  apply (refine_without_client_makes_no_call
           (Reference.platform (Normal (dq "['Who logs in?']"))) "a login flow" "groq" None
           Reference.world0); reflexivity.
Defined.

(** X19: a [generateDiagram] for a supported provider with a stored key
    leaves the client of that provider in place, whatever its own
    outcome, so that a later [refineDescription] without a key does call
    the provider: once, with the default model and the refine prompt. *)
Theorem refine_after_generate_calls_provider (P : Platform)
    (request : DiagramGenerationRequest.t) (w : World) (key : Member string)
    (description : string) (icons : list PublicIcon.t) :
  usable (read (apiKeys w) (DiagramGenerationRequest.provider request)) = Some key →
  supported (DiagramGenerationRequest.provider request) →
  getAllIcons P = Normal icons →
  let w' := (generateDiagram P request w).2 in
  client_key (DiagramGenerationRequest.provider request) w' = Some key ∧
  calls (refineDescription P description (DiagramGenerationRequest.provider request)
           None w').2
  = CallProvider (DiagramGenerationRequest.provider request)
      (defaultModel (DiagramGenerationRequest.provider request))
      (refinePrompt description) :: calls w'.
Proof.
  intros Hkey Hp Hicons w'.
  assert (client_key (DiagramGenerationRequest.provider request) w' = Some key) as Hclient
    by (by apply generateDiagram_sets_client).
  split; [exact Hclient|].
  unfold refineDescription, refineSetup. simpl.
  rewrite (bind_run _ _ _ _ _ (eq_refl : ret tt w' = (Normal tt, w'))).
  destruct (dispatch_with_client P _ (refinePrompt description) None key w' Hp Hclient)
    as [outcome Hrun].
  unfold try_catch, bind. rewrite Hrun.
  destruct outcome as [response|e]; [|done].
  unfold lift. by destruct (parse _).
Qed.

Lemma refine_after_generate_calls_provider_witness :
  ∃ prompt,
    calls (refineDescription (Reference.platform (Normal "{}")) "a login flow" "groq" None
             (generateDiagram (Reference.platform (Normal "{}"))
                (DiagramGenerationRequest.mk "web shop" "groq" None None)
                Reference.world0).2).2
    = [ CallProvider "groq" "llama-3.1-70b-versatile" (refinePrompt "a login flow");
        CallProvider "groq" "llama-3.1-70b-versatile" prompt;
        CallBuildPrompt; CallGetAllIcons; CallInitializeProvider "groq" ].
Proof.
  eexists.
  pose proof (proj2 (refine_after_generate_calls_provider (Reference.platform (Normal "{}"))
                       (DiagramGenerationRequest.mk "web shop" "groq" None None)
                       Reference.world0 (Own "gsk_test") "a login flow" _
                       ltac:(vm_compute; reflexivity)
                       (or_intror (or_introl eq_refl)) eq_refl)) as Hcalls.
  cbn [DiagramGenerationRequest.provider] in Hcalls. rewrite Hcalls.
  vm_compute. reflexivity.
Defined.

(** * The settings service *)

Section Settings.
Import SettingsService.
Context (failure : nat → option Exn).

(** Saving the settings never fails and never touches the keys in
    memory, whatever the store does. *)
Lemma saveSettings_keeps_keys s :
  (saveSettings failure s).1 = Normal tt ∧ keys (saveSettings failure s).2 = keys s.
Proof.
  unfold saveSettings, storage_getPreferences, storage_savePreferences.
  destruct (failure (operations s)); simpl; [done|].
  by destruct (failure (S (operations s))).
Qed.

(** With a healthy store the saved record carries the keys in memory and
    what the store held of the other preferences, defaults filling what
    was missing. *)
Lemma saveSettings_stores s :
  failure (operations s) = None →
  failure (S (operations s)) = None →
  stored (saveSettings failure s).2
  = Some (UserPreferences.mk
            (or_string (default "" (UserPreferences.theme <$> stored s)) "light")
            (default JUndefined (UserPreferences.defaultNodeStyle <$> stored s) ||| JObj [])
            (default JUndefined (UserPreferences.defaultEdgeStyle <$> stored s) ||| JObj [])
            (or_string (default "" (UserPreferences.aiProvider <$> stored s)) "openrouter")
            (keys s)
            (default true (UserPreferences.autoSave <$> stored s))
            (default true (UserPreferences.gridSnap <$> stored s))).
Proof.
  intros H0 H1. unfold saveSettings, storage_getPreferences, storage_savePreferences.
  rewrite H0. simpl. by rewrite H1.
Qed.

Lemma loadSettings_keys s p :
  failure (operations s) = None → stored s = Some p →
  keys (loadSettings failure s).2 = UserPreferences.apiKeys p.
Proof.
  intros H0 Hp. unfold loadSettings, storage_getPreferences. by rewrite H0, Hp.
Qed.

End Settings.

(** Reading after writing and after deleting. *)
Lemma assign_insert k v (own : gmap string string) :
  k ≠ "__proto__" ∨ is_Some (own !! k) → assign k v own = <[k := v]> own.
Proof.
  unfold assign. intros [Hk | [x Hx]].
  - apply String.eqb_neq in Hk. by rewrite Hk.
  - rewrite Hx, bool_decide_eq_false_2 by done. by rewrite andb_false_r.
Qed.

Lemma assign_ignored v (own : gmap string string) :
  own !! "__proto__" = None → assign "__proto__" v own = own.
Proof. unfold assign. intros ->. by rewrite bool_decide_eq_true_2. Qed.

Lemma read_assign_other k v other (own : gmap string string) :
  other ≠ k → read (assign k v own) other = read own other.
Proof.
  intros Hne. unfold read, assign.
  destruct (_ && _); [done|]. by rewrite lookup_insert_ne.
Qed.

Lemma read_insert {A} k (v : A) (own : gmap string A) :
  read (<[k := v]> own) k = Some (Own v).
Proof. unfold read. by rewrite lookup_insert_eq. Qed.

Lemma read_delete {A} k (own : gmap string A) :
  read (delete k own) k = if inherited k then Some (Builtin k) else None.
Proof. unfold read. by rewrite lookup_delete_eq. Qed.

Lemma read_delete_other {A} k other (own : gmap string A) :
  other ≠ k → read (delete k own) other = read own other.
Proof. intros Hne. unfold read. by rewrite lookup_delete_ne. Qed.

(** X20: [saveAPIKey] always completes, and afterwards [getAPIKey]
    returns the saved key for that provider and what it returned before
    for every other provider; this holds even when the store fails, in
    which case the key lives in memory only and the failure is not
    reported.  The one name that cannot hold a key is [__proto__]: on a
    key object without an own property of that name the assignment is
    ignored, the keys stay as they were, and the read gives the
    prototype. *)
Theorem saveAPIKey_then_getAPIKey (failure : nat → option Exn) (provider apiKey : string)
    (s : SettingsService.State) :
  (SettingsService.saveAPIKey failure provider apiKey s).1 = Normal tt ∧
  (provider ≠ "__proto__" ∨ is_Some (SettingsService.keys s !! provider) →
   SettingsService.getAPIKey provider
     (SettingsService.saveAPIKey failure provider apiKey s).2
   = Some (Own apiKey)) ∧
  (provider = "__proto__" → SettingsService.keys s !! provider = None →
   SettingsService.keys (SettingsService.saveAPIKey failure provider apiKey s).2
   = SettingsService.keys s ∧
   SettingsService.getAPIKey provider
     (SettingsService.saveAPIKey failure provider apiKey s).2
   = Some (Builtin "__proto__")) ∧
  ∀ other, other ≠ provider →
    SettingsService.getAPIKey other (SettingsService.saveAPIKey failure provider apiKey s).2
    = SettingsService.getAPIKey other s.
Proof.
  unfold SettingsService.saveAPIKey, SettingsService.getAPIKey.
  destruct (saveSettings_keeps_keys failure
              (SettingsService.with_keys
                 (assign provider apiKey (SettingsService.keys s)) s))
    as [Hok Hkeys].
  rewrite Hkeys. simpl. split; [done|]. split; [|split].
  - intros Hp. rewrite assign_insert by done. apply read_insert.
  - intros -> Hnone. rewrite assign_ignored by done. split; [done|].
    unfold read. by rewrite Hnone.
  - intros other Hne. by apply read_assign_other.
Qed.

(** X21: [removeAPIKey] always completes, whether or not the store could
    be written, and every other provider keeps its key.  The removed
    provider has no key afterwards ([getAPIKey] gives nothing, [hasAPIKey]
    is false) unless its name is that of a member of [Object.prototype]:
    then [getAPIKey] gives that member and [hasAPIKey] is true. *)
Theorem removeAPIKey_then_getAPIKey (failure : nat → option Exn) (provider : string)
    (s : SettingsService.State) :
  (SettingsService.removeAPIKey failure provider s).1 = Normal tt ∧
  SettingsService.getAPIKey provider (SettingsService.removeAPIKey failure provider s).2
  = (if inherited provider then Some (Builtin provider) else None) ∧
  SettingsService.hasAPIKey provider (SettingsService.removeAPIKey failure provider s).2
  = inherited provider ∧
  ∀ other, other ≠ provider →
    SettingsService.getAPIKey other (SettingsService.removeAPIKey failure provider s).2
    = SettingsService.getAPIKey other s.
Proof.
  unfold SettingsService.removeAPIKey, SettingsService.getAPIKey, SettingsService.hasAPIKey.
  destruct (saveSettings_keeps_keys failure
              (SettingsService.with_keys (delete provider (SettingsService.keys s)) s))
    as [Hok Hkeys].
  rewrite Hkeys. simpl. rewrite read_delete. split; [done|]. split; [done|].
  split; [by destruct (inherited provider)|].
  intros other Hne. by apply read_delete_other.
Qed.

(** X22: with a store that works, a key saved under a name other than
    [__proto__] survives a restart: the key set written by [saveAPIKey]
    is exactly the key set in memory (stored keys that were never loaded
    are replaced, not merged), and any service that then loads its
    settings from that store finds the key. *)
Theorem saved_key_survives_reload (failure : nat → option Exn) (provider apiKey : string)
    (s later : SettingsService.State) :
  provider ≠ "__proto__" →
  failure (SettingsService.operations s) = None →
  failure (S (SettingsService.operations s)) = None →
  SettingsService.stored later
  = SettingsService.stored (SettingsService.saveAPIKey failure provider apiKey s).2 →
  failure (SettingsService.operations later) = None →
  UserPreferences.apiKeys <$> SettingsService.stored later
  = Some (<[provider := apiKey]> (SettingsService.keys s)) ∧
  SettingsService.getAPIKey provider (SettingsService.loadSettings failure later).2
  = Some (Own apiKey).
Proof.
  intros Hname H0 H1 Hstore Hlater.
  unfold SettingsService.saveAPIKey in Hstore.
  rewrite (saveSettings_stores failure
             (SettingsService.with_keys
                (assign provider apiKey (SettingsService.keys s)) s)
             H0 H1) in Hstore.
  simpl in Hstore. rewrite assign_insert in Hstore by (by left).
  split; [by rewrite Hstore|].
  unfold SettingsService.getAPIKey.
  rewrite (loadSettings_keys failure later _ Hlater Hstore). simpl.
  apply read_insert.
Qed.

Lemma saved_key_survives_reload_witness :
  UserPreferences.apiKeys <$>
    SettingsService.stored
      (SettingsService.saveAPIKey healthy "openrouter" "sk-or-1" unloaded_settings).2
  = Some {[ "openrouter" := "sk-or-1" ]} ∧
  SettingsService.getAPIKey "openrouter"
    (SettingsService.loadSettings healthy
       (SettingsService.saveAPIKey healthy "openrouter" "sk-or-1" unloaded_settings).2).2
  = Some (Own "sk-or-1").
Proof.
  destruct (saved_key_survives_reload healthy "openrouter" "sk-or-1" unloaded_settings
              (SettingsService.saveAPIKey healthy "openrouter" "sk-or-1" unloaded_settings).2
              ltac:(discriminate) eq_refl eq_refl eq_refl eq_refl) as [Hstored Hloaded].
  split; [exact Hstored | exact Hloaded].
Defined.

(** X23: saving a key does not reset the other preferences: with a store
    that works and holds preferences whose theme, provider and styles are
    set, the record written by [saveAPIKey] is the stored one with its
    key set replaced by the keys in memory, the new key among them unless
    it was given under the name [__proto__]. *)
Theorem saveAPIKey_keeps_other_preferences (failure : nat → option Exn)
    (provider apiKey : string) (s : SettingsService.State) (p : UserPreferences.t) :
  failure (SettingsService.operations s) = None →
  failure (S (SettingsService.operations s)) = None →
  SettingsService.stored s = Some p →
  UserPreferences.theme p ≠ "" →
  UserPreferences.aiProvider p ≠ "" →
  truthy (UserPreferences.defaultNodeStyle p) = true →
  truthy (UserPreferences.defaultEdgeStyle p) = true →
  SettingsService.stored (SettingsService.saveAPIKey failure provider apiKey s).2
  = Some (UserPreferences.mk (UserPreferences.theme p)
            (UserPreferences.defaultNodeStyle p) (UserPreferences.defaultEdgeStyle p)
            (UserPreferences.aiProvider p)
            (assign provider apiKey (SettingsService.keys s))
            (UserPreferences.autoSave p) (UserPreferences.gridSnap p)) ∧
  (provider ≠ "__proto__" →
   assign provider apiKey (SettingsService.keys s)
   = <[provider := apiKey]> (SettingsService.keys s)).
Proof.
  intros H0 H1 Hp Htheme Hprovider Hnode Hedge. split.
  - unfold SettingsService.saveAPIKey.
    rewrite (saveSettings_stores failure
               (SettingsService.with_keys
                  (assign provider apiKey (SettingsService.keys s)) s)
               H0 H1).
    simpl. rewrite Hp. simpl.
    unfold SettingsService.or_string, or_else.
    apply String.eqb_neq in Htheme, Hprovider. by rewrite Htheme, Hprovider, Hnode, Hedge.
  - intros Hname. apply assign_insert. by left.
Qed.

Lemma saveAPIKey_keeps_other_preferences_witness :
  SettingsService.stored
    (SettingsService.saveAPIKey healthy "openrouter" "sk-or-1" unloaded_settings).2
  = Some (UserPreferences.mk "dark" (JObj [("color", JStr "#eee")]) (JObj []) "groq"
            (<[ "openrouter" := "sk-or-1" ]> ∅) false true).
Proof.
  destruct (saveAPIKey_keeps_other_preferences healthy "openrouter" "sk-or-1"
              unloaded_settings sample_preferences eq_refl eq_refl eq_refl
              ltac:(discriminate) ltac:(discriminate) eq_refl eq_refl) as [Hstored Hinsert].
  rewrite Hstored, Hinsert by discriminate. reflexivity.
Defined.

(** X24: the key check of [generateDiagram] and [hasAPIKey] agree.  On a
    world whose key store is that of the settings service, a provider
    without a usable key ([hasAPIKey] false) is refused with the
    missing-key error before anything else happens, and a supported
    provider with one gets a client that holds exactly the key
    [getAPIKey] returns. *)
Theorem key_check_agrees_with_hasAPIKey (P : Platform)
    (request : DiagramGenerationRequest.t) (w : World) (s : SettingsService.State) :
  apiKeys w = SettingsService.keys s →
  (SettingsService.hasAPIKey (DiagramGenerationRequest.provider request) s = false →
   generateDiagram P request w
   = (Throw (JsError ErrorK
               ("API key not found for " +:+ DiagramGenerationRequest.provider request
                +:+ ". Please configure your API key in settings.")), w)) ∧
  (SettingsService.hasAPIKey (DiagramGenerationRequest.provider request) s = true →
   supported (DiagramGenerationRequest.provider request) →
   client_key (DiagramGenerationRequest.provider request) (generateDiagram P request w).2
   = SettingsService.getAPIKey (DiagramGenerationRequest.provider request) s).
Proof.
  intros Hlink. unfold SettingsService.hasAPIKey, SettingsService.getAPIKey.
  rewrite <- Hlink. split.
  - intros Hno. unfold generateDiagram.
    rewrite (bind_run _ _ _ _ _ (getAPIKey_run _ w)).
    destruct (read (apiKeys w) _) as [[k|name]|]; [|done|done]. simpl.
    by destruct (String.eqb k "").
  - intros Hyes Hp.
    destruct (read (apiKeys w) _) as [[k|name]|] eqn:Ek; [| |done].
    + apply generateDiagram_sets_client; [|done].
      rewrite Ek. simpl. by destruct (String.eqb k "").
    + apply generateDiagram_sets_client; [|done]. by rewrite Ek.
Qed.

Lemma key_check_agrees_with_hasAPIKey_witness :
  client_key "groq"
    (generateDiagram (Reference.platform (Normal "{}"))
       (DiagramGenerationRequest.mk "web shop" "groq" None None)
       Reference.world0).2
  = Some (Own "gsk_test").
Proof.
  apply (proj2 (key_check_agrees_with_hasAPIKey (Reference.platform (Normal "{}"))
                  (DiagramGenerationRequest.mk "web shop" "groq" None None)
                  Reference.world0
                  {| SettingsService.keys := {[ "groq" := "gsk_test" ]};
                     SettingsService.preferences := None;
                     SettingsService.stored := None;
                     SettingsService.operations := 0 |}
                  eq_refl)).
  - vm_compute. reflexivity.
  - right. left. reflexivity.
Defined.

(** * Colours *)

Lemma ToInt32_small z : - 2 ^ 31 ≤ z < 2 ^ 31 → Utils.ToInt32 z = z.
Proof. intros H. unfold Utils.ToInt32. rewrite Z.mod_small; lia. Qed.

Lemma shl_small x count :
  0 ≤ count < 32 → 0 ≤ x → x * 2 ^ count < 2 ^ 31 → Utils.shl x count = x * 2 ^ count.
Proof.
  intros Hc Hx Hs. unfold Utils.shl.
  assert (x < 2 ^ 31) by nia.
  rewrite (ToInt32_small x) by lia.
  rewrite Z.mod_small by lia. rewrite Z.shiftl_mul_pow2 by lia.
  apply ToInt32_small. lia.
Qed.

Lemma hex_of_more fuel q d acc :
  0 < q → 0 ≤ d < 16 →
  Utils.hex_of (S fuel) (16 * q + d) acc
  = Utils.hex_of fuel q (String (Utils.hex_digit_of d) acc).
Proof.
  intros Hq Hd. cbn [Utils.hex_of].
  replace ((16 * q + d) mod 16) with d by (Z.div_mod_to_equations; lia).
  replace ((16 * q + d) / 16) with q by (Z.div_mod_to_equations; lia).
  destruct (Z.eqb_spec q 0); [lia | done].
Qed.

Lemma hex_of_last fuel d acc :
  0 ≤ d < 16 → Utils.hex_of (S fuel) d acc = String (Utils.hex_digit_of d) acc.
Proof.
  intros Hd. cbn [Utils.hex_of].
  rewrite Z.mod_small, Z.div_small by lia. done.
Qed.

Lemma hex_value_digit d : 0 ≤ d < 16 → Utils.hex_value (Utils.hex_digit_of d) = Some d.
Proof.
  intros Hd.
  assert (∃ n : nat, (n < 16)%nat ∧ d = Z.of_nat n) as (n & Hn & ->)
    by (exists (Z.to_nat d); lia).
  do 16 (destruct n as [|n]; [reflexivity|]). lia.
Qed.

(** The text of a colour: [#] and two digits per channel. *)
Lemma rgbToHex_digits r1 r0 g1 g0 b1 b0 :
  0 ≤ r1 < 16 → 0 ≤ r0 < 16 → 0 ≤ g1 < 16 → 0 ≤ g0 < 16 → 0 ≤ b1 < 16 → 0 ≤ b0 < 16 →
  Utils.rgbToHex (16 * r1 + r0) (16 * g1 + g0) (16 * b1 + b0)
  = String "#" (String (Utils.hex_digit_of r1) (String (Utils.hex_digit_of r0)
      (String (Utils.hex_digit_of g1) (String (Utils.hex_digit_of g0)
         (String (Utils.hex_digit_of b1) (String (Utils.hex_digit_of b0) "")))))).
Proof.
  intros Hr1 Hr0 Hg1 Hg0 Hb1 Hb0. unfold Utils.rgbToHex.
  rewrite (shl_small 1 24), (shl_small _ 16), (shl_small _ 8) by lia.
  unfold Utils.toString16.
  set (n := 1 * 2 ^ 24 + (16 * r1 + r0) * 2 ^ 16 + (16 * g1 + g0) * 2 ^ 8 + (16 * b1 + b0)).
  assert (2 ^ 24 ≤ n < 2 ^ (24 + 1)) as Hn by (subst n; lia).
  destruct (Z.ltb_spec n 0); [lia|].
  rewrite (Z.log2_unique n 24) by lia.
  change (S (Z.to_nat 24)) with (S (S (S (S (S (S (S 18))))))).
  replace n
    with (16 * (16 * (16 * (16 * (16 * (16 * 1 + r1) + r0) + g1) + g0) + b1) + b0)
    by (subst n; lia).
  do 6 (rewrite hex_of_more by lia).
  rewrite hex_of_last by lia. reflexivity.
Qed.

(** X25: a colour survives the way through its text.  For channels from
    0 to 255 [rgbToHex] writes seven characters, and [hexToRgb] reads the
    three channels back from them. *)
Theorem rgb_round_trip (r g b : Z) :
  0 ≤ r ≤ 255 → 0 ≤ g ≤ 255 → 0 ≤ b ≤ 255 →
  String.length (Utils.rgbToHex r g b) = 7%nat ∧
  Utils.hexToRgb (Utils.rgbToHex r g b) = Some (RGB.mk r g b).
Proof.
  intros Hr Hg Hb.
  rewrite (Z.div_mod r 16), (Z.div_mod g 16), (Z.div_mod b 16) by lia.
  assert (0 ≤ r / 16 < 16 ∧ 0 ≤ r mod 16 < 16) as [??] by (Z.div_mod_to_equations; lia).
  assert (0 ≤ g / 16 < 16 ∧ 0 ≤ g mod 16 < 16) as [??] by (Z.div_mod_to_equations; lia).
  assert (0 ≤ b / 16 < 16 ∧ 0 ≤ b mod 16 < 16) as [??] by (Z.div_mod_to_equations; lia).
  rewrite rgbToHex_digits by done. split; [reflexivity|].
  unfold Utils.hexToRgb. cbn [list_ascii_of_string mapM].
  rewrite !hex_value_digit by done. reflexivity.
Qed.

Lemma rgb_round_trip_witness :
  Utils.rgbToHex 59 130 246 = "#3b82f6" ∧
  Utils.hexToRgb "#3b82f6" = Some (RGB.mk 59 130 246).
Proof.
  assert (Utils.rgbToHex 59 130 246 = "#3b82f6") as Htext by (vm_compute; reflexivity).
  split; [exact Htext|].
  rewrite <- Htext.
  apply (rgb_round_trip 59 130 246); lia.
Defined.

(** * Bounding boxes *)

Lemma elem_of_map {A B} (f : A → B) (l : list A) (v : B) :
  v ∈ map f l ↔ ∃ p, v = f p ∧ p ∈ l.
Proof.
  induction l as [|a l IH]; simpl.
  - split; [by intros ?%elem_of_nil | by intros (p & _ & ?%elem_of_nil)].
  - rewrite elem_of_cons, IH. split.
    + intros [->|(p & -> & Hp)]; [exists a | exists p]; split; try done.
      * apply list_elem_of_here.
      * by apply list_elem_of_further.
    + intros (p & -> & [->|Hp]%elem_of_cons); [by left | right; by exists p].
Qed.

Lemma Math_min_le first rest :
  Utils.Math_min first rest ≤ first ∧ ∀ v, v ∈ rest → Utils.Math_min first rest ≤ v.
Proof.
  unfold Utils.Math_min. induction rest as [|a rest [IH1 IH2]]; simpl.
  - split; [lia | by intros v ?%elem_of_nil].
  - split; [lia|]. intros v [->|Hv]%elem_of_cons; [lia|]. specialize (IH2 v Hv). lia.
Qed.

Lemma Math_max_ge first rest :
  first ≤ Utils.Math_max first rest ∧ ∀ v, v ∈ rest → v ≤ Utils.Math_max first rest.
Proof.
  unfold Utils.Math_max. induction rest as [|a rest [IH1 IH2]]; simpl.
  - split; [lia | by intros v ?%elem_of_nil].
  - split; [lia|]. intros v [->|Hv]%elem_of_cons; [lia|]. specialize (IH2 v Hv). lia.
Qed.

Lemma Math_min_greatest first rest low :
  low ≤ first → (∀ v, v ∈ rest → low ≤ v) → low ≤ Utils.Math_min first rest.
Proof.
  intros Hf. unfold Utils.Math_min. induction rest as [|a rest IH]; simpl; [done|].
  intros Hrest. pose proof (Hrest a (list_elem_of_here _ _)).
  assert (low ≤ foldr Z.min first rest)
    by (apply IH; intros v Hv; apply Hrest; by apply list_elem_of_further).
  lia.
Qed.

Lemma Math_max_least first rest high :
  first ≤ high → (∀ v, v ∈ rest → v ≤ high) → Utils.Math_max first rest ≤ high.
Proof.
  intros Hf. unfold Utils.Math_max. induction rest as [|a rest IH]; simpl; [done|].
  intros Hrest. pose proof (Hrest a (list_elem_of_here _ _)).
  assert (foldr Z.max first rest ≤ high)
    by (apply IH; intros v Hv; apply Hrest; by apply list_elem_of_further).
  lia.
Qed.

Lemma to_double_exact z : - 2 ^ 53 ≤ z ≤ 2 ^ 53 → Utils.to_double z = z.
Proof.
  intros H. unfold Utils.to_double.
  destruct (Z.leb_spec (Z.abs z) (2 ^ 53)); [done | lia].
Qed.

(** Beyond that range a difference is rounded, and the box can miss a
    point: between -1 and 2^53 lie 2^53 + 1 units, which is no double. *)
Example bounding_box_rounds :
  let points := [Point.mk (-1) 0; Point.mk (2 ^ 53) 0] in
  Box.width (Utils.getBoundingBox points) = 2 ^ 53 ∧
  ¬ Utils.inside (Point.mk (2 ^ 53) 0) (Utils.getBoundingBox points).
Proof.
  split; [vm_compute; reflexivity|].
  unfold Utils.inside. vm_compute. intros [[_ H] _]. by apply H.
Qed.

(** X26: for points whose integer coordinates are at most 2^52 in size
    the bounding box is the smallest box around them.  Every point lies in
    it, its width and height are never negative, and any box that holds
    all the points of a list that is not empty holds the bounding box as
    well. *)
Theorem bounding_box_is_smallest (points : list Point.t) :
  (∀ p, p ∈ points → Utils.exact p) →
  let box := Utils.getBoundingBox points in
  (∀ p, p ∈ points → Utils.inside p box) ∧
  0 ≤ Box.width box ∧ 0 ≤ Box.height box ∧
  (∀ other, points ≠ [] → (∀ p, p ∈ points → Utils.inside p other) →
     Box.x other ≤ Box.x box ∧
     Box.x box + Box.width box ≤ Box.x other + Box.width other ∧
     Box.y other ≤ Box.y box ∧
     Box.y box + Box.height box ≤ Box.y other + Box.height other).
Proof.
  intros Hexact. destruct points as [|q qs].
  { cbn. split; [by intros p ?%elem_of_nil | done]. }
  cbn zeta. cbn [Utils.getBoundingBox Box.x Box.y Box.width Box.height].
  assert (∀ (f : Point.t → Z) v, v ∈ map f qs → ∃ p, p ∈ q :: qs ∧ v = f p) as Hback.
  { intros f v (p & -> & Hp)%elem_of_map. exists p.
    split; [by apply list_elem_of_further | done]. }
  pose proof (Hexact q (list_elem_of_here _ _)) as [Hqx Hqy].
  destruct (Math_min_le (Point.x q) (map Point.x qs)) as [Hx1 Hx2].
  destruct (Math_max_ge (Point.x q) (map Point.x qs)) as [Hx3 Hx4].
  destruct (Math_min_le (Point.y q) (map Point.y qs)) as [Hy1 Hy2].
  destruct (Math_max_ge (Point.y q) (map Point.y qs)) as [Hy3 Hy4].
  assert (- 2 ^ 52 ≤ Utils.Math_min (Point.x q) (map Point.x qs)) as Lx.
  { apply Math_min_greatest; [lia|]. intros v (p & Hp & ->)%Hback. apply (Hexact p Hp). }
  assert (Utils.Math_max (Point.x q) (map Point.x qs) ≤ 2 ^ 52) as Ux.
  { apply Math_max_least; [lia|]. intros v (p & Hp & ->)%Hback. apply (Hexact p Hp). }
  assert (- 2 ^ 52 ≤ Utils.Math_min (Point.y q) (map Point.y qs)) as Ly.
  { apply Math_min_greatest; [lia|]. intros v (p & Hp & ->)%Hback. apply (Hexact p Hp). }
  assert (Utils.Math_max (Point.y q) (map Point.y qs) ≤ 2 ^ 52) as Uy.
  { apply Math_max_least; [lia|]. intros v (p & Hp & ->)%Hback. apply (Hexact p Hp). }
  unfold Utils.minus. rewrite !to_double_exact by lia.
  split; [|split; [lia|split; [lia|]]].
  - intros p [->|Hp]%elem_of_cons; unfold Utils.inside; cbn; [lia|].
    pose proof (Hx2 _ (proj2 (elem_of_map Point.x qs _) (ex_intro _ p (conj eq_refl Hp)))).
    pose proof (Hx4 _ (proj2 (elem_of_map Point.x qs _) (ex_intro _ p (conj eq_refl Hp)))).
    pose proof (Hy2 _ (proj2 (elem_of_map Point.y qs _) (ex_intro _ p (conj eq_refl Hp)))).
    pose proof (Hy4 _ (proj2 (elem_of_map Point.y qs _) (ex_intro _ p (conj eq_refl Hp)))).
    lia.
  - intros other _ Hall.
    assert (∀ p, p ∈ q :: qs →
              Box.x other ≤ Point.x p ≤ Box.x other + Box.width other ∧
              Box.y other ≤ Point.y p ≤ Box.y other + Box.height other) as Hin
      by (intros p Hp; apply (Hall p Hp)).
    pose proof (Hin q (list_elem_of_here _ _)) as Hq.
    assert (Box.x other ≤ Utils.Math_min (Point.x q) (map Point.x qs)).
    { apply Math_min_greatest; [lia|]. intros v (p & Hp & ->)%Hback. apply (Hin p Hp). }
    assert (Utils.Math_max (Point.x q) (map Point.x qs) ≤ Box.x other + Box.width other).
    { apply Math_max_least; [lia|]. intros v (p & Hp & ->)%Hback. apply (Hin p Hp). }
    assert (Box.y other ≤ Utils.Math_min (Point.y q) (map Point.y qs)).
    { apply Math_min_greatest; [lia|]. intros v (p & Hp & ->)%Hback. apply (Hin p Hp). }
    assert (Utils.Math_max (Point.y q) (map Point.y qs) ≤ Box.y other + Box.height other).
    { apply Math_max_least; [lia|]. intros v (p & Hp & ->)%Hback. apply (Hin p Hp). }
    lia.
Qed.

Lemma bounding_box_is_smallest_witness :
  Utils.getBoundingBox [Point.mk 30 (-5); Point.mk (-10) 40; Point.mk 0 0]
  = Box.mk (-10) (-5) 40 45 ∧
  Utils.inside (Point.mk 0 0)
    (Utils.getBoundingBox [Point.mk 30 (-5); Point.mk (-10) 40; Point.mk 0 0]).
Proof.
  split; [vm_compute; reflexivity|].
  refine (proj1 (bounding_box_is_smallest
                   [Point.mk 30 (-5); Point.mk (-10) 40; Point.mk 0 0] _) _ _).
  - intros p Hp. unfold Utils.exact.
    repeat (apply elem_of_cons in Hp as [-> | Hp]; [simpl; lia|]).
    by apply elem_of_nil in Hp.
  - apply list_elem_of_further, list_elem_of_further, list_elem_of_here.
Defined.

(** * The undo history *)

Section HistoryFacts.
Import HistoryManager.
Context {Data : Type} (clone : Data → Data) (stringify : Data → string).

Lemma slice_to_take {A} (l : list A) (finish : Z) :
  0 ≤ finish ≤ Z.of_nat (length l) →
  slice_to l finish = take (Z.to_nat finish) l ∧
  Z.of_nat (length (slice_to l finish)) = finish.
Proof.
  intros H. unfold slice_to. destruct (Z.ltb_spec finish 0); [lia|].
  rewrite Z.min_l by lia. split; [done|]. rewrite length_take. lia.
Qed.

Lemma in_range_bounds (m : t Data) :
  in_range m → 0 ≤ currentIndex m + 1 ≤ Z.of_nat (length (history m)).
Proof. intros [[-> ->]|H]; simpl; lia. Qed.

Lemma getCurrentState_lookup (m : t Data) :
  in_range m →
  getCurrentState m
  = if 0 <=? currentIndex m then history m !! Z.to_nat (currentIndex m) else None.
Proof.
  intros [[E1 E2]|H]; unfold getCurrentState.
  - rewrite E1, E2. done.
  - destruct (Z.leb_spec 0 (currentIndex m)); [|lia].
    destruct (Z.ltb_spec (currentIndex m) (Z.of_nat (length (history m)))); [done|lia].
Qed.

(** Cutting off what lies behind the index leaves the current state. *)
Lemma getCurrentState_cut (m : t Data) :
  in_range m →
  getCurrentState {| history := slice_to (history m) (currentIndex m + 1);
                     currentIndex := currentIndex m |}
  = getCurrentState m.
Proof.
  intros Hr. pose proof (in_range_bounds m Hr) as Hb.
  destruct (slice_to_take (history m) _ Hb) as [Ht Hl].
  unfold getCurrentState. cbn [history currentIndex]. rewrite Hl, Ht.
  destruct (Z.leb_spec 0 (currentIndex m)); simpl; [|done].
  destruct (Z.ltb_spec (currentIndex m) (currentIndex m + 1)); [|lia].
  destruct (Z.ltb_spec (currentIndex m) (Z.of_nat (length (history m)))); [|lia].
  apply lookup_take_lt. lia.
Qed.

(** The three ways [saveState] can end. *)
Lemma saveState_cases nodes edges now (m : t Data) :
  in_range m →
  let cut := take (Z.to_nat (currentIndex m + 1)) (history m) in
  let newState := {| HistoryManager.nodes := clone nodes;
                     HistoryManager.edges := clone edges;
                     timestamp := now |} in
  Z.of_nat (length cut) = currentIndex m + 1 ∧
  saveState clone stringify nodes edges now m
  = if isStateSame stringify (Some newState) (getCurrentState m) then
      {| history := cut; currentIndex := currentIndex m |}
    else if maxHistorySize <? currentIndex m + 2 then
      {| history := tail (cut ++ [newState]); currentIndex := currentIndex m |}
    else
      {| history := cut ++ [newState]; currentIndex := currentIndex m + 1 |}.
Proof.
  intros Hr cut newState. pose proof (in_range_bounds m Hr) as Hb.
  destruct (slice_to_take (history m) _ Hb) as [Ht Hl].
  rewrite Ht in Hl. fold cut in Hl. split; [exact Hl|].
  unfold saveState. rewrite (getCurrentState_cut m Hr).
  fold newState. cbn [history currentIndex]. rewrite Ht. fold cut.
  destruct (isStateSame stringify (Some newState) (getCurrentState m)); simpl; [done|].
  rewrite length_app. simpl.
  replace (Z.of_nat (length cut + 1)) with (currentIndex m + 2) by lia.
  destruct (maxHistorySize <? currentIndex m + 2); [|done].
  f_equal. lia.
Qed.

Lemma kept_saveState nodes edges now (m : t Data) :
  kept m → kept (saveState clone stringify nodes edges now m).
Proof.
  intros [Hr Hmax]. destruct (saveState_cases nodes edges now m Hr) as [Hl ->].
  pose proof (in_range_bounds m Hr) as Hb. unfold kept, in_range, maxHistorySize in *.
  set (cut := take _ _) in *.
  destruct (isStateSame _ _ _); [|destruct (Z.ltb_spec 50 (currentIndex m + 2))];
    cbn [history currentIndex]; rewrite ?length_tl, ?length_app; simpl.
  - split; [|lia]. destruct (decide (currentIndex m = -1)) as [E|E]; [left|right; lia].
    split; [|done]. apply nil_length_inv. lia.
  - split; [right|]; lia.
  - split; [right|]; lia.
Qed.

Lemma kept_undo (m : t Data) : kept m → kept (undo m).2.
Proof.
  intros [Hr Hmax]. unfold undo, canUndo.
  destruct (Z.ltb_spec 0 (currentIndex m)); [|done].
  split; [|done]. right. cbn [snd history currentIndex].
  destruct Hr as [[_ ?]|?]; lia.
Qed.

Lemma kept_redo (m : t Data) : kept m → kept (redo m).2.
Proof.
  intros [Hr Hmax]. unfold redo, canRedo.
  destruct (Z.ltb_spec (currentIndex m) (Z.of_nat (length (history m)) - 1)); [|done].
  split; [|done]. right. cbn [snd history currentIndex].
  destruct Hr as [[E E']|?]; [rewrite E in *; simpl in *|]; lia.
Qed.

Lemma kept_fresh : kept (fresh : t Data).
Proof. split; [by left | done]. Qed.

Lemma kept_apply_op op (m : t Data) : kept m → kept (apply_op clone stringify op m).
Proof.
  intros Hk. destruct op; simpl.
  - by apply kept_saveState.
  - by apply kept_undo.
  - by apply kept_redo.
  - apply kept_fresh.
  - apply kept_saveState, kept_fresh.
Qed.

Lemma kept_session ops : kept (session clone stringify ops).
Proof.
  unfold session. induction ops as [|op ops IH] using rev_ind; [apply kept_fresh|].
  rewrite foldl_snoc. by apply kept_apply_op.
Qed.

End HistoryFacts.

(** X27: whatever the editor does with the history manager, the index
    stays inside the array (or is -1 while the array is empty), and the
    array never holds more than 50 snapshots. *)
Theorem history_stays_in_range {Data : Type} (clone : Data → Data)
    (stringify : Data → string) (ops : list (HistoryManager.Op Data)) :
  let m := HistoryManager.session clone stringify ops in
  HistoryManager.in_range m ∧ (length (HistoryManager.history m) ≤ 50)%nat.
Proof.
  destruct (kept_session clone stringify ops) as [Hr Hmax].
  split; [done|]. unfold HistoryManager.maxHistorySize in Hmax. lia.
Qed.

(** X28: after [saveState] there is nothing left to redo, and that also
    when the snapshot equals the current one and nothing was recorded:
    the states behind the index are cut off before the comparison. *)
Theorem saveState_leaves_nothing_to_redo {Data : Type} (clone : Data → Data)
    (stringify : Data → string) (ops : list (HistoryManager.Op Data))
    (nodes edges : Data) (now : Z) :
  HistoryManager.canRedo
    (HistoryManager.saveState clone stringify nodes edges now
       (HistoryManager.session clone stringify ops)) = false.
Proof.
  destruct (kept_session clone stringify ops) as [Hr _].
  destruct (saveState_cases clone stringify nodes edges now _ Hr) as [Hl ->].
  set (m := HistoryManager.session clone stringify ops) in *.
  set (cut := take _ _) in *.
  unfold HistoryManager.canRedo.
  destruct (HistoryManager.isStateSame _ _ _);
    [|destruct (HistoryManager.maxHistorySize <? _)];
    cbn [HistoryManager.history HistoryManager.currentIndex];
    rewrite ?length_tl, ?length_app; simpl; apply Z.ltb_ge; lia.
Qed.

(** X29: [undo] takes back a recorded snapshot.  When the snapshot
    differs from the current state, [saveState] followed by [undo] hands
    out the state that was current before, also when the oldest snapshot
    had to go to make room; on a manager without a current state it
    hands out [null]. *)
Theorem undo_takes_back_saveState {Data : Type} (clone : Data → Data)
    (stringify : Data → string) (ops : list (HistoryManager.Op Data))
    (nodes edges : Data) (now : Z) :
  let m := HistoryManager.session clone stringify ops in
  HistoryManager.isStateSame stringify
    (Some {| HistoryManager.nodes := clone nodes;
             HistoryManager.edges := clone edges;
             HistoryManager.timestamp := now |})
    (HistoryManager.getCurrentState m) = false →
  (HistoryManager.undo
     (HistoryManager.saveState clone stringify nodes edges now m)).1
  = HistoryManager.getCurrentState m.
Proof.
  intros m Hdiff.
  destruct (kept_session clone stringify ops) as [Hr Hmax]. fold m in Hr, Hmax.
  destruct (saveState_cases clone stringify nodes edges now m Hr) as [Hl ->].
  rewrite Hdiff. set (cut := take _ _) in *.
  rewrite (getCurrentState_lookup m Hr).
  pose proof (in_range_bounds m Hr) as Hb.
  unfold HistoryManager.maxHistorySize in *.
  unfold HistoryManager.undo, HistoryManager.canUndo.
  destruct (Z.ltb_spec 50 (HistoryManager.currentIndex m + 2));
    cbn [HistoryManager.history HistoryManager.currentIndex].
  - destruct (Z.ltb_spec 0 (HistoryManager.currentIndex m)); [|lia].
    destruct (Z.leb_spec 0 (HistoryManager.currentIndex m)); [|lia].
    cbn [fst]. unfold HistoryManager.getCurrentState.
    cbn [HistoryManager.history HistoryManager.currentIndex].
    rewrite length_tl, length_app. simpl.
    destruct (Z.leb_spec 0 (HistoryManager.currentIndex m - 1)); [|lia].
    destruct (Z.ltb_spec (HistoryManager.currentIndex m - 1)
                (Z.of_nat (length cut + 1 - 1))); [|lia].
    simpl. rewrite lookup_tail.
    replace (S (Z.to_nat (HistoryManager.currentIndex m - 1)))
      with (Z.to_nat (HistoryManager.currentIndex m)) by lia.
    rewrite lookup_app_l by lia. subst cut. apply lookup_take_lt. lia.
  - destruct (Z.ltb_spec 0 (HistoryManager.currentIndex m + 1)).
    + destruct (Z.leb_spec 0 (HistoryManager.currentIndex m)); [|lia].
      cbn [fst]. unfold HistoryManager.getCurrentState.
      cbn [HistoryManager.history HistoryManager.currentIndex].
      rewrite length_app. simpl.
      replace (HistoryManager.currentIndex m + 1 - 1)
        with (HistoryManager.currentIndex m) by lia.
      destruct (Z.leb_spec 0 (HistoryManager.currentIndex m)); [|lia].
      destruct (Z.ltb_spec (HistoryManager.currentIndex m)
                  (Z.of_nat (length cut + 1))); [|lia].
      simpl. rewrite lookup_app_l by lia. subst cut. apply lookup_take_lt. lia.
    + destruct (Z.leb_spec 0 (HistoryManager.currentIndex m)); [lia|done].
Qed.

Lemma undo_takes_back_saveState_witness :
  (HistoryManager.undo
     (HistoryManager.saveState id dec_Z 7 8 200
        (HistoryManager.session id dec_Z [HistoryManager.SaveState 1 2 100]))).1
  = Some {| HistoryManager.nodes := 1; HistoryManager.edges := 2;
            HistoryManager.timestamp := 100 |}.
Proof.
  apply (undo_takes_back_saveState id dec_Z [HistoryManager.SaveState 1 2 100] 7 8 200).
  vm_compute. reflexivity.
Defined.

(** X30: [undo] and [redo] are inverse to each other.  Where there is
    something to undo, [undo] followed by [redo] leaves the manager as it
    was and hands out its current state; likewise [redo] followed by
    [undo] where there is something to redo. *)
Theorem undo_redo_inverse {Data : Type} (clone : Data → Data)
    (stringify : Data → string) (ops : list (HistoryManager.Op Data)) :
  let m := HistoryManager.session clone stringify ops in
  (HistoryManager.canUndo m = true →
   HistoryManager.redo (HistoryManager.undo m).2 = (HistoryManager.getCurrentState m, m)) ∧
  (HistoryManager.canRedo m = true →
   HistoryManager.undo (HistoryManager.redo m).2 = (HistoryManager.getCurrentState m, m)).
Proof.
  intros m. destruct (kept_session clone stringify ops) as [Hr _]. fold m in Hr.
  clearbody m. destruct m as [h i].
  unfold HistoryManager.undo, HistoryManager.redo, HistoryManager.canUndo,
    HistoryManager.canRedo, HistoryManager.in_range in *.
  cbn [HistoryManager.history HistoryManager.currentIndex] in *.
  split; intros Hcan; rewrite Hcan; cbn [snd HistoryManager.history
    HistoryManager.currentIndex].
  - apply Z.ltb_lt in Hcan.
    destruct (Z.ltb_spec (i - 1) (Z.of_nat (length h) - 1)); [|lia].
    by replace (i - 1 + 1) with i by lia.
  - apply Z.ltb_lt in Hcan.
    assert (0 ≤ i) by (destruct Hr as [[-> ->]|?]; simpl in *; lia).
    destruct (Z.ltb_spec 0 (i + 1)); [|lia].
    by replace (i + 1 - 1) with i by lia.
Qed.
